(** * N54 / MSD80 flashing helper: a shallow embedding of [tools/n54flash.py]

    The development follows the layering of the Python module:
    - byte strings and the Python slicing primitives the module relies on;
    - the seed-to-key function [calc_key_msd80];
    - the CAN frame bus and the [IsoTp] transport ([_send], [_recv],
      [request]) as a state-and-exception monad over a scripted bus;
    - the [Flasher] service calls and workflows on top of it;
    - the VIN patcher [patch_vin] and [_fix_cal_checksum] over a store of
      byte buffers, because the checksum fix mutates its argument in place.

    Logging calls ([LOG.info] and friends) have no influence on any value
    and are left out throughout. *)

From Stdlib Require Import ZArith Lia String Ascii.
From Stdlib Require Import Strings.Byte DecimalString HexadecimalString.
From stdpp Require Import base list.

Local Open Scope Z_scope.

(** ** Bytes *)

Abbreviation byte := Byte.byte.

#[global] Instance byte_eq_dec : EqDecision byte.
Proof.
  intros x y. destruct (Byte.eqb x y) eqn:E.
  - left. apply Byte.byte_dec_bl, E.
  - right. intros ->. rewrite (@Byte.byte_dec_lb y y eq_refl) in E. discriminate.
Defined.

(** The integer value of a byte, as Python sees an element of [bytes]. *)
Definition b2z (b : byte) : Z := Z.of_N (Byte.to_N b).

(** [bytes([z])] for an integer already reduced to [0..255].  Every call
    site in the module masks or bounds its argument, so the reduction
    modulo 256 written here never changes a value (see [b2z_z2b]). *)
Definition z2b (z : Z) : byte :=
  match Byte.of_N (Z.to_N (z mod 256)) with
  | Some b => b
  | None => Byte.x00
  end.

Definition zeros (n : nat) : list byte := replicate n Byte.x00.

(** [int.from_bytes(bs, "big")] *)
Definition int_from_bytes_big (bs : list byte) : Z :=
  fold_left (fun acc b => acc * 256 + b2z b) bs 0.

(** [z.to_bytes(n, "big")]: [OverflowError] (here [None]) when [z] is
    negative or does not fit in [n] bytes. *)
Definition to_bytes_big (n : nat) (z : Z) : option (list byte) :=
  if (0 <=? z) && (z <? 256 ^ Z.of_nat n)
  then Some (map (fun i => z2b (Z.land (Z.shiftr z (8 * Z.of_nat i)) 255))
                 (rev (seq 0 n)))
  else None.

(** Python slice [l[a:b]] for [0 <= a] and [0 <= b]: out-of-range bounds
    are clamped, never an error. *)
Definition slice {A} (l : list A) (a b : nat) : list A := drop a (take b l).

(** Python slice assignment [l[a:b] = v] on a [bytearray], for [a <= b]:
    the (clamped) slice is replaced by [v]; past the end it appends. *)
Definition set_slice {A} (l : list A) (a b : nat) (v : list A) : list A :=
  take a l ++ v ++ drop b l.

(** ** Constants *)

Definition CAN_ID_REQ : Z := 0x6F1.
Definition CAN_ID_RESP : Z := 0x6F9.

Definition POS_RESP : Z := 0x40.

Definition SID_START_SESSION : Z := 0x10.
Definition SID_ECU_RESET : Z := 0x11.
Definition SID_SECURITY_ACCESS : Z := 0x27.
Definition SID_TESTER_PRESENT : Z := 0x3E.
Definition SID_READ_ECU_ID : Z := 0x1A.
Definition SID_READ_MEMORY_BY_ADDR : Z := 0x23.
Definition SID_REQUEST_DOWNLOAD : Z := 0x34.
Definition SID_TRANSFER_DATA : Z := 0x36.
Definition SID_REQUEST_TRANSFER_EXIT : Z := 0x37.
Definition SID_ROUTINE_CONTROL : Z := 0x31.

Definition ROUTINE_ERASE_ALL : Z := 0xFF00.

Definition FLASH_SIZE : Z := 0x100000.
Definition TRANSFER_SIZE_DEFAULT : Z := 0x0800.

Definition CAL_START : Z := 0x010000.
Definition CAL_SIZE : Z := 0x040000.
Definition CAL_END : Z := CAL_START + CAL_SIZE.

(** ** Seed to key *)

Definition calc_key_msd80 (seed : Z) : Z :=
  Z.land (Z.lxor seed 0x5A3C + 0x7F1B) 0xFFFF.

(** ** Exceptions, results and the bus monad *)

(** The Python exceptions the modelled code can raise.  The last two are
    not Python exceptions: [FuelExhausted] marks a loop cut off by the
    model's fuel, and the adequacy lemmas below show that it is never
    produced; [DanglingRef] marks the use of a reference that names no
    object of the store, which no Python program can hold. *)
Inductive exn : Type :=
  | ValueError (msg : string)
  | RuntimeError (msg : string)
  | IndexError
  | OverflowError
  | UnicodeEncodeError
  | StructError
  | FuelExhausted
  | DanglingRef.

Inductive result (A : Type) : Type :=
  | Ok (a : A)
  | Raise (e : exn).
Arguments Ok {A} a.
Arguments Raise {A} e.

(** A CAN frame ([@dataclass Frame]). *)
Record Frame : Type := mkFrame { arbitration_id : Z; data : list byte }.

(** The world a [Flasher] acts on: a scripted [FrameBus] and the file the
    backup writes.  [rx_queue] lists what successive [bus.recv(timeout)]
    calls return, [None] standing for an expired timeout; once the script
    is used up every further [recv] times out.  [tx_log] collects the frames
    given to [bus.send], oldest first; [slept] the arguments of
    [time.sleep], in milliseconds; [files] the files written, by path. *)
Record World : Type := mkWorld {
  rx_queue : list (option Frame);
  tx_log : list Frame;
  slept : list Z;
  files : list (string * list byte)
}.

(** Computations that read and update a state of type [S] and either
    return a value or raise; the state reached when an exception is raised
    is kept, as the effects of a Python function survive its exception. *)
Definition ST (S A : Type) : Type := S -> result A * S.

Definition ret {S A} (a : A) : ST S A := fun w => (Ok a, w).

Definition raise {S A} (e : exn) : ST S A := fun w => (Raise e, w).

Definition bind {S A B} (c : ST S A) (k : A -> ST S B) : ST S B :=
  fun w => match c w with
           | (Ok a, w') => k a w'
           | (Raise e, w') => (Raise e, w')
           end.

Notation "'let!' x ':=' c 'in' k" := (bind c (fun x => k))
  (at level 10, x pattern, c at level 100, k at level 200).
Notation "c ';;;' k" := (bind c (fun _ => k))
  (at level 100, k at level 200, right associativity).

Abbreviation M := (ST World).

(** [bus.send(frame)] *)
Definition bus_send (f : Frame) : M unit :=
  fun w => (Ok tt, mkWorld (rx_queue w) (tx_log w ++ [f]) (slept w) (files w)).

(** [bus.recv(timeout)] *)
Definition bus_recv : M (option Frame) :=
  fun w => match rx_queue w with
           | [] => (Ok None, w)
           | m :: q => (Ok m, mkWorld q (tx_log w) (slept w) (files w))
           end.

(** [time.sleep(ms / 1000.0)] *)
Definition sleep_ms (ms : Z) : M unit :=
  fun w => (Ok tt, mkWorld (rx_queue w) (tx_log w) (slept w ++ [ms]) (files w)).

(** Number of scripted receive events left; used only to bound loops. *)
Definition pending : M nat := fun w => (Ok (length (rx_queue w)), w).

(** ** ISO-TP transport ([class IsoTp]) *)

(** The attributes of an [IsoTp] object that influence its behaviour.  The
    [timeout] attribute is passed unchanged to [bus.recv], whose outcome
    the bus script fixes. *)
Record IsoTp : Type := mkIsoTp { tx_id : Z; rx_id : Z }.

Section Transport.
Variable tp : IsoTp.

(** The receive loop of [_recv] for a First frame:
    [while len(buf) < total: ...]. *)
Fixpoint recv_loop (fuel : nat) (buf : list byte) (total : nat)
  : M (list byte) :=
  if (length buf <? total)%nat then
    match fuel with
    | O => raise FuelExhausted
    | S fuel' =>
        let! cf := bus_recv in
        match cf with
        | None => raise (RuntimeError "Consecutive frame timeout")
        | Some f =>
            if negb (arbitration_id f =? rx_id tp)
            then raise (RuntimeError "Consecutive frame timeout")
            else recv_loop fuel' (buf ++ drop 1 (data f)) total
        end
    end
  else ret (take total buf).

(** [IsoTp._recv(raw)] *)
Definition _recv (raw : bool) : M (option (list byte)) :=
  let! msg := bus_recv in
  match msg with
  | None => ret None
  | Some m =>
      if negb (arbitration_id m =? rx_id tp) then ret None
      else
        let d := data m in
        if raw then ret (Some d)
        else
          match d with
          | [] => raise IndexError
          | d0 :: _ =>
              let ptype := Z.land (b2z d0) 0xF0 in
              if ptype =? 0x00 then
                ret (Some (slice d 1 (1 + Z.to_nat (Z.land (b2z d0) 0x0F))))
              else if ptype =? 0x10 then
                match d !! 1%nat with
                | None => raise IndexError
                | Some d1 =>
                    let total :=
                      Z.lor (Z.shiftl (Z.land (b2z d0) 0x0F) 8) (b2z d1) in
                    let buf := slice d 2 8 in
                    bus_send (mkFrame (tx_id tp)
                                ([z2b 0x30; z2b 0; z2b 0] ++ zeros 5)) ;;;
                    let! n := pending in
                    let! buf' := recv_loop (S n) buf (Z.to_nat total) in
                    ret (Some buf')
                end
              else ret None
          end
  end.

(** The test applied to a FlowControl answer in [_send], at both places
    it occurs: [if not fc or fc[0] >> 4 != 0x3: raise RuntimeError(msg)]
    followed by [st_min, bs = fc[2], fc[1]]. *)
Definition flow_control (fc : option (list byte)) (msg : string)
  : M (Z * Z) :=
  match fc with
  | None => raise (RuntimeError msg)
  | Some [] => raise (RuntimeError msg)
  | Some ((f0 :: _) as d) =>
      if negb (Z.shiftr (b2z f0) 4 =? 0x3) then raise (RuntimeError msg)
      else
        match d !! 2%nat, d !! 1%nat with
        | Some s, Some b => ret (b2z s, b2z b)
        | _, _ => raise IndexError
        end
  end.

(** The Consecutive-frame loop of [_send]: [while ptr < total: ...]. *)
Fixpoint send_loop (fuel : nat) (payload : list byte)
    (ptr : nat) (sn bs_cnt st_min bs : Z) : M unit :=
  if (ptr <? length payload)%nat then
    match fuel with
    | O => raise FuelExhausted
    | S fuel' =>
        let chunk := slice payload ptr (ptr + 7) in
        let cf := [z2b (Z.lor 0x20 (Z.land sn 0x0F))] ++ chunk
                  ++ zeros (7 - length chunk) in
        bus_send (mkFrame (tx_id tp) cf) ;;;
        let ptr := (ptr + length chunk)%nat in
        let sn := Z.land (sn + 1) 0x0F in
        let bs_cnt := bs_cnt + 1 in
        let! (bs_cnt, st_min, bs) :=
          (if negb (bs =? 0) && (bs <=? bs_cnt) then
             let! fc := _recv true in
             let! (st_min', bs') :=
               flow_control fc "Missing FC mid-transfer" in
             ret (0, st_min', bs')
           else ret (bs_cnt, st_min, bs)) in
        (if st_min <=? 0x7F then sleep_ms st_min else ret tt) ;;;
        send_loop fuel' payload ptr sn bs_cnt st_min bs
    end
  else ret tt.

(** [IsoTp._send(payload)] *)
Definition _send (payload : list byte) : M unit :=
  if (length payload <=? 7)%nat then
    bus_send (mkFrame (tx_id tp)
                ([z2b (Z.of_nat (length payload))] ++ payload
                 ++ zeros (7 - length payload)))
  else
    let total := Z.of_nat (length payload) in
    let ff := [z2b (Z.lor 0x10 (Z.land (Z.shiftr total 8) 0x0F));
               z2b (Z.land total 0xFF)] ++ slice payload 0 6 in
    bus_send (mkFrame (tx_id tp) ff) ;;;
    let! fc := _recv true in
    let! (st_min, bs) := flow_control fc "No FlowControl" in
    send_loop (length payload) payload 6 1 0 st_min bs.

(** [IsoTp.request(payload, expect_resp)] *)
Definition request (payload : list byte) (expect_resp : bool)
  : M (option (list byte)) :=
  _send payload ;;;
  if expect_resp then _recv false else ret None.

End Transport.

(** ** String formatting used in error messages *)

(** [f"{z}"] for an integer. *)
Definition dec_string (z : Z) : string :=
  DecimalString.NilZero.string_of_int (Z.to_int z).

Definition upper_hex (c : ascii) : ascii :=
  let n := nat_of_ascii c in
  if (97 <=? n)%nat && (n <=? 102)%nat then ascii_of_nat (n - 32) else c.

Fixpoint string_map (f : ascii -> ascii) (s : string) : string :=
  match s with
  | EmptyString => EmptyString
  | String c s' => String (f c) (string_map f s')
  end.

Fixpoint string_repeat (c : ascii) (n : nat) : string :=
  match n with
  | O => EmptyString
  | S n' => String c (string_repeat c n')
  end.

(** [f"{z:06X}"] for [0 <= z]: upper-case hexadecimal, zero-padded on the
    left to at least six digits. *)
Definition hex06X (z : Z) : string :=
  let s := string_map upper_hex
             (HexadecimalString.NilZero.string_of_uint
                (N.to_hex_uint (Z.to_N z))) in
  (string_repeat "0" (6 - String.length s) ++ s)%string.

(** [range(start, stop, step)] with [start = 0]: [None] stands for the
    [ValueError] Python raises for a zero step; a negative step gives the
    empty range. *)
Definition range0 (stop step : Z) : option (list Z) :=
  if step =? 0 then None
  else if (step <? 0) || (stop <=? 0) then Some []
  else Some (map (fun k => Z.of_nat k * step)
                 (seq 0 (Z.to_nat ((stop + step - 1) / step)))).

(** [for x in xs: body(x)] *)
Fixpoint for_each {A} (xs : list A) (body : A -> M unit) : M unit :=
  match xs with
  | [] => ret tt
  | x :: xs' => body x ;;; for_each xs' body
  end.

(** [open(path, "wb")]: the file is created or truncated. *)
Fixpoint file_truncate (path : string) (fs : list (string * list byte))
  : list (string * list byte) :=
  match fs with
  | [] => [(path, [])]
  | (p, c) :: fs' =>
      if String.eqb p path then (p, []) :: fs'
      else (p, c) :: file_truncate path fs'
  end.

(** [handle.write(data)] on the file opened at [path]. *)
Fixpoint file_append (path : string) (d : list byte)
    (fs : list (string * list byte)) : list (string * list byte) :=
  match fs with
  | [] => []
  | (p, c) :: fs' =>
      if String.eqb p path then (p, c ++ d) :: fs'
      else (p, c) :: file_append path d fs'
  end.

Definition open_wb (path : string) : M unit :=
  fun w => (Ok tt, mkWorld (rx_queue w) (tx_log w) (slept w)
                     (file_truncate path (files w))).

Definition handle_write (path : string) (d : list byte) : M unit :=
  fun w => (Ok tt, mkWorld (rx_queue w) (tx_log w) (slept w)
                     (file_append path d (files w))).

(** ** KWP helper and the Flasher ([class Flasher]) *)

Definition pos (sid : Z) : Z := sid + POS_RESP.

(** [Flasher.__init__] builds [IsoTp(bus, CAN_ID_REQ, CAN_ID_RESP)] and
    stores nothing else: a [Flasher] has no attribute recording whether a
    session was entered or unlocked. *)
Definition flasher_tp : IsoTp := mkIsoTp CAN_ID_REQ CAN_ID_RESP.

(** [not resp or resp[0] != pos(sid)] *)
Definition rejected (resp : list byte) (sid : Z) : bool :=
  match resp with
  | [] => true
  | r0 :: _ => negb (b2z r0 =? pos sid)
  end.

(** The integers [bytes([z])] accepts. *)
Class ByteRange (z : Z) : Prop :=
  byte_range : (0 <=? z) && (z <? 256) = true.

#[global] Hint Extern 1 (ByteRange _) => exact eq_refl : typeclass_instances.

(** [Flasher._kwp(sid, payload)] with [expect_resp=True], its only use.
    The request starts with [bytes([sid])], which raises ValueError
    unless [0 <= sid <= 255]. *)
Definition _kwp (sid : Z) (payload : list byte) : M (list byte) :=
  if (0 <=? sid) && (sid <? 256) then
    let! resp := request flasher_tp ([z2b sid] ++ payload) true in
    ret (match resp with Some r => r | None => [] end)
  else raise (ValueError "bytes must be in range(0, 256)").

Definition enter_session : M unit :=
  let! resp := _kwp SID_START_SESSION [z2b 0x85] in
  if rejected resp SID_START_SESSION
  then raise (RuntimeError "Cannot enter programming session")
  else ret tt.

Definition security_unlock : M unit :=
  let! seed_r := _kwp SID_SECURITY_ACCESS [z2b 0x01] in
  if rejected seed_r SID_SECURITY_ACCESS
  then raise (RuntimeError "Seed request failed")
  else
    let seed := int_from_bytes_big (slice seed_r 2 4) in
    let key := calc_key_msd80 seed in
    let! key_r := _kwp SID_SECURITY_ACCESS
                    [z2b 0x02; z2b (Z.shiftr key 8); z2b (Z.land key 0xFF)] in
    if rejected key_r SID_SECURITY_ACCESS
    then raise (RuntimeError "Security key rejected")
    else ret tt.

Definition read_block (addr length : Z) : M (list byte) :=
  if (length <=? 0) || (0xFFFF <? length)
  then raise (ValueError "Length must be 1..65535 bytes")
  else
    match to_bytes_big 4 addr, to_bytes_big 4 length with
    | Some a, Some l =>
        let payload := [z2b 0x24] ++ a ++ [z2b 0x24] ++ l in
        let! resp := _kwp SID_READ_MEMORY_BY_ADDR payload in
        if rejected resp SID_READ_MEMORY_BY_ADDR
        then raise (RuntimeError "ReadMemoryByAddress failed")
        else ret (drop 1 resp)
    | _, _ => raise OverflowError
    end.

Definition erase_all : M unit :=
  let payload := [z2b 0x01; z2b (Z.shiftr ROUTINE_ERASE_ALL 8);
                  z2b (Z.land ROUTINE_ERASE_ALL 0xFF)] in
  let! resp := _kwp SID_ROUTINE_CONTROL payload in
  if rejected resp SID_ROUTINE_CONTROL
  then raise (RuntimeError "Erase routine rejected")
  else ret tt.

Definition request_download (addr length : Z) : M Z :=
  match to_bytes_big 4 addr, to_bytes_big 4 length with
  | Some a, Some l =>
      let payload := [z2b 0x00; z2b 0x44] ++ a ++ l in
      let! resp := _kwp SID_REQUEST_DOWNLOAD payload in
      if rejected resp SID_REQUEST_DOWNLOAD
      then raise (RuntimeError "RequestDownload rejected")
      else
        match resp !! 1%nat with
        | None => raise IndexError
        | Some r1 =>
            let max_len_len := b2z r1 in
            ret (if max_len_len =? 0 then TRANSFER_SIZE_DEFAULT
                 else int_from_bytes_big
                        (slice resp 2 (2 + Z.to_nat max_len_len)))
        end
  | _, _ => raise OverflowError
  end.

(** [data[offset : offset + chunk_size]] for [0 <= offset] and any integer
    [chunk_size]: a stop that is negative counts from the end of [data]. *)
Definition chunk_at (d : list byte) (offset : nat) (chunk_size : Z)
  : list byte :=
  let stop := Z.of_nat offset + chunk_size in
  if 0 <=? stop then slice d offset (Z.to_nat stop)
  else slice d offset (Z.to_nat (Z.of_nat (length d) + stop)).

(** The loop of [transfer_data]: [while offset < total: ...]. *)
Fixpoint transfer_loop (fuel : nat) (d : list byte) (chunk_size : Z)
    (counter : Z) (offset : nat) : M unit :=
  if (offset <? length d)%nat then
    match fuel with
    | O => raise FuelExhausted
    | S fuel' =>
        let chunk := chunk_at d offset chunk_size in
        let payload := [z2b (Z.land counter 0xFF)] ++ chunk in
        let! resp := _kwp SID_TRANSFER_DATA payload in
        if rejected resp SID_TRANSFER_DATA
        then raise (RuntimeError
                      ("TransferData failed at block " ++ dec_string counter))
        else transfer_loop fuel' d chunk_size
               (Z.land (counter + 1) 0xFF) (offset + length chunk)
    end
  else ret tt.

(** Every answered block takes one event off the bus script and an
    unanswered one ends the loop, so the script length bounds the number of
    iterations whatever [chunk_size] is. *)
Definition transfer_data (d : list byte) (chunk_size : Z) : M unit :=
  let! n := pending in
  transfer_loop (S n) d chunk_size 1 0.

Definition transfer_exit : M unit :=
  let! resp := _kwp SID_REQUEST_TRANSFER_EXIT [] in
  if rejected resp SID_REQUEST_TRANSFER_EXIT
  then raise (RuntimeError "TransferExit failed")
  else ret tt.

(** [Flasher.backup(output, chunk)] *)
Definition backup (output : string) (chunk : Z) : M unit :=
  open_wb output ;;;
  match range0 FLASH_SIZE chunk with
  | None => raise (ValueError "range() arg 3 must not be zero")
  | Some addrs =>
      for_each addrs (fun addr =>
        let! d := read_block addr (Z.min chunk (FLASH_SIZE - addr)) in
        handle_write output d)
  end.

(** What [Flasher.flash] goes on with once it has chosen the block size:
    it starts a [TesterPresentThread] and, with that thread alive, runs
    [transfer_data(image, block)] and [transfer_exit()], then stops and
    joins the thread in a [finally] clause.  The thread sends TesterPresent
    requests and reads answers on the very bus the transfer uses, so what
    the two do together is not a computation with one thread of control.
    The workflow is therefore followed up to this point, and the transfer
    it hands over to is given as its result. *)
Inductive flash_next : Type :=
  | transfer_under_heartbeat (image : list byte) (block : Z).

(** [Flasher.flash(image, chunk_size)], from its size check to the choice
    of the block size. *)
Definition flash (image : list byte) (chunk_size : Z) : M flash_next :=
  if negb (Z.of_nat (length image) =? FLASH_SIZE)
  then raise (ValueError "Image must be exactly 1 MiB")
  else
    erase_all ;;;
    let! max_chunk := request_download 0 (Z.of_nat (length image)) in
    let block := Z.min chunk_size max_chunk in
    ret (transfer_under_heartbeat image block).

(** The body of the loop of [Flasher.verify], for the stride at [addr]. *)
Definition verify_body (image : list byte) (chunk : Z) (addr : Z) : M unit :=
  let! d := read_block addr
              (Z.min chunk (Z.of_nat (length image) - addr)) in
  if negb (bool_decide
             (d = slice image (Z.to_nat addr) (Z.to_nat addr + length d)))
  then raise (RuntimeError ("Verification mismatch at 0x" ++ hex06X addr))
  else ret tt.

(** [Flasher.verify(image, chunk)] *)
Definition verify (image : list byte) (chunk : Z) : M unit :=
  match range0 (Z.of_nat (length image)) chunk with
  | None => raise (ValueError "range() arg 3 must not be zero")
  | Some addrs => for_each addrs (verify_body image chunk)
  end.

(** ** VIN patch helpers *)

(** A Python [str]: its code points. *)
Definition str : Type := list N.

(** [s.encode("ascii")]: [None] stands for [UnicodeEncodeError]. *)
Definition encode_ascii (s : str) : option (list byte) :=
  if forallb (fun c => (c <? 128)%N) s
  then Some (map (fun c => z2b (Z.of_N c)) s)
  else None.

Fixpoint starts_with (l sub : list byte) : bool :=
  match sub, l with
  | [], _ => true
  | _ :: _, [] => false
  | s :: sub', x :: l' => bool_decide (x = s) && starts_with l' sub'
  end.

(** [l.find(sub)]: the lowest index at which [sub] occurs in [l]; [None]
    stands for the result [-1]. *)
Fixpoint find (l sub : list byte) : option nat :=
  if starts_with l sub then Some O
  else match l with
       | [] => None
       | _ :: l' => option_map S (find l' sub)
       end.

(** [struct.iter_unpack(">H", b)] collected into a list: [None] stands for
    the [struct.error] raised when [len(b)] is odd. *)
Fixpoint iter_unpack_H (b : list byte) : option (list Z) :=
  match b with
  | [] => Some []
  | [_] => None
  | hi :: lo :: b' =>
      option_map (cons (b2z hi * 256 + b2z lo)) (iter_unpack_H b')
  end.

Definition py_sum (ws : list Z) : Z := fold_left Z.add ws 0.

(** The store of byte buffers ([bytes] and [bytearray] objects), addressed
    by position; a buffer is shared by every reference to its position. *)
Abbreviation Store := (list (list byte)).
Abbreviation ref := nat.

(** [bytearray(b)] and [bytes(b)]: a new object holding a copy. *)
Definition alloc (v : list byte) : ST Store ref :=
  fun h => (Ok (length h), h ++ [v]).

Definition load (r : ref) : ST Store (list byte) :=
  fun h => match h !! r with
           | Some v => (Ok v, h)
           | None => (Raise DanglingRef, h)
           end.

(** In-place update of the object [r] refers to. *)
Definition store (r : ref) (v : list byte) : ST Store unit :=
  fun h => (Ok tt, <[r := v]> h).

Definition nCAL_START : nat := Z.to_nat CAL_START.
Definition nCAL_END : nat := Z.to_nat CAL_END.

(** [_fix_cal_checksum(buf)]: mutates [buf] and returns nothing. *)
Definition _fix_cal_checksum (buf : ref) : ST Store unit :=
  let! b := load buf in
  let cal := slice b nCAL_START nCAL_END in
  match iter_unpack_H (take (length cal - 2) cal) with
  | None => raise StructError
  | Some words =>
      let checksum := Z.land (py_sum words) 0xFFFF in
      let corrected := Z.land (- checksum) 0xFFFF in
      match to_bytes_big 2 corrected with
      | None => raise OverflowError
      | Some cb =>
          let! b := load buf in
          store buf (set_slice b (nCAL_END - 2) nCAL_END cb)
      end
  end.

(** [patch_vin(image, new_vin)] *)
Definition patch_vin (image : ref) (new_vin : str) : ST Store ref :=
  if negb (length new_vin =? 17)%nat
  then raise (ValueError "VIN must be exactly 17 characters")
  else
    let! img := load image in
    let! buf := alloc img in
    match encode_ascii new_vin with
    | None => raise UnicodeEncodeError
    | Some vin_bytes =>
        let! b := load buf in
        let cal_region := slice b nCAL_START nCAL_END in
        match find cal_region vin_bytes with
        | None =>
            raise (RuntimeError "Existing VIN not found in calibration area")
        | Some idx =>
            let abs_idx := (nCAL_START + idx)%nat in
            let! b := load buf in
            store buf (set_slice b abs_idx (abs_idx + 17) vin_bytes) ;;;
            _fix_cal_checksum buf ;;;
            let! b := load buf in
            alloc b
        end
    end.

(** ** Wire format produced by the send algorithm *)

Section Segmentation.
Variable tp : IsoTp.

Definition single_frame (p : list byte) : Frame :=
  mkFrame (tx_id tp)
    ([z2b (Z.of_nat (length p))] ++ p ++ zeros (7 - length p)).

Definition first_frame (p : list byte) : Frame :=
  let total := Z.of_nat (length p) in
  mkFrame (tx_id tp)
    ([z2b (Z.lor 0x10 (Z.land (Z.shiftr total 8) 0x0F));
      z2b (Z.land total 0xFF)] ++ slice p 0 6).

(** The [k]-th Consecutive frame, counting from 0. *)
Definition consecutive_frame (p : list byte) (k : nat) : Frame :=
  let chunk := slice p (6 + 7 * k) (6 + 7 * k + 7) in
  mkFrame (tx_id tp)
    ([z2b (Z.lor 0x20 ((Z.of_nat k + 1) mod 16))] ++ chunk
     ++ zeros (7 - length chunk)).

Definition cf_count (p : list byte) : nat := (length p - 6 + 6) / 7.

Definition consecutive_frames (p : list byte) (k m : nat) : list Frame :=
  map (consecutive_frame p) (seq k m).

Definition segments (p : list byte) : list Frame :=
  if (length p <=? 7)%nat then [single_frame p]
  else first_frame p :: consecutive_frames p 0 (cf_count p).

(** The FlowControl frame [_recv] answers a First frame with. *)
Definition flow_control_frame : Frame :=
  mkFrame (tx_id tp) ([z2b 0x30; z2b 0; z2b 0] ++ zeros 5).
End Segmentation.

(** The sleeps a sender observes for [m] Consecutive frames under a
    separation time [st]. *)
Definition st_sleeps (st : Z) (m : nat) : list Z :=
  if st <=? 0x7F then replicate m st else [].

(** Decoding the length field of a First frame and of a Single frame,
    as boolean checks that can be run over every admissible length. *)
Definition ff_length_ok (n : nat) : bool :=
  let total := Z.of_nat n in
  let d0 := b2z (z2b (Z.lor 0x10 (Z.land (Z.shiftr total 8) 0x0F))) in
  let d1 := b2z (z2b (Z.land total 0xFF)) in
  (Z.land d0 0xF0 =? 0x10)
  && (Z.lor (Z.shiftl (Z.land d0 0x0F) 8) d1 =? total).

(** The two bytes of a First frame header and the first byte of a
    Consecutive frame, read back as integers. *)
Definition ff_bytes_ok (n : nat) : bool :=
  let total := Z.of_nat n in
  (b2z (z2b (Z.lor 0x10 (Z.land (Z.shiftr total 8) 0x0F))) =? 0x10 + total / 256)
  && (b2z (z2b (Z.land total 0xFF)) =? total mod 256).

Definition cf_byte_ok (j : nat) : bool :=
  b2z (z2b (Z.lor 0x20 (Z.of_nat j))) =? 0x20 + Z.of_nat j.

Definition sf_length_ok (n : nat) : bool :=
  let d0 := b2z (z2b (Z.of_nat n)) in
  (Z.land d0 0xF0 =? 0) && (Z.to_nat (Z.land d0 0x0F) =? n)%nat.

(** ** The round trip of the specification

    [iso_tp_roundtrip a b p]: endpoint [a] segments [p] with [_send], the
    peer [b] reassembles the frames [a] put on the bus with [_recv]; the
    only frame [a] is given to read is the FlowControl frame with which
    [b] answers a First frame. *)
Definition iso_tp_roundtrip (a b : IsoTp) (p : list byte)
  : result (option (list byte)) :=
  let '(r1, w1) := _send a p (mkWorld [Some (flow_control_frame b)] [] [] []) in
  match r1 with
  | Raise e => Raise e
  | Ok _ => fst (_recv b false (mkWorld (map Some (tx_log w1)) [] [] []))
  end.

(** ** A cooperative ECU, as a bus script

    The ECU end of the link transmits on [CAN_ID_RESP].  For one KWP
    exchange with request [rq] and response [rs], [kwp_script] is what the
    ECU puts on the bus (a FlowControl frame with block size 0 and no
    separation time if the request needs one, then the segmented
    response); [kwp_sent] is what the tester transmits in that exchange and
    [kwp_slept] the sleeps it makes. *)
Definition ecu_tp : IsoTp := mkIsoTp CAN_ID_RESP CAN_ID_REQ.

Definition kwp_script (rq rs : list byte) : list (option Frame) :=
  (if (length rq <=? 7)%nat then []
   else [Some (mkFrame CAN_ID_RESP
                 (Byte.x30 :: Byte.x00 :: Byte.x00 :: zeros 5))])
  ++ map Some (segments ecu_tp rs).

Definition kwp_sent (rq rs : list byte) : list Frame :=
  segments flasher_tp rq
  ++ (if (length rs <=? 7)%nat then [] else [flow_control_frame flasher_tp]).

Definition kwp_slept (rq : list byte) : list Z :=
  if (length rq <=? 7)%nat then [] else st_sleeps 0 (cf_count rq).

(** The ReadMemoryByAddress exchanges of a cooperative ECU holding the
    flash contents [mem]: for each address of [addrs], the request
    [read_block] builds for a stride of [chunk] bytes (clipped to [n]) and
    the positive answer carrying those bytes of [mem]. *)
Definition be4 (z : Z) : list byte :=
  match to_bytes_big 4 z with Some b => b | None => [] end.

Definition read_request (addr length : Z) : list byte :=
  z2b SID_READ_MEMORY_BY_ADDR
  :: [z2b 0x24] ++ be4 addr ++ [z2b 0x24] ++ be4 length.

Definition read_answer (mem : list byte) (addr length : Z) : list byte :=
  z2b (pos SID_READ_MEMORY_BY_ADDR)
  :: slice mem (Z.to_nat addr) (Z.to_nat (addr + length)).

Definition memory_script (mem : list byte) (n chunk : Z) (addrs : list Z)
  : list (option Frame) :=
  flat_map (fun addr =>
              kwp_script (read_request addr (Z.min chunk (n - addr)))
                         (read_answer mem addr (Z.min chunk (n - addr))))
           addrs.

(** What the ECU puts on the bus during [verify] of an image of the
    length of [mem]. *)
Definition verify_script (mem : list byte) (chunk : Z)
  : list (option Frame) :=
  match range0 (Z.of_nat (length mem)) chunk with
  | Some addrs => memory_script mem (Z.of_nat (length mem)) chunk addrs
  | None => []
  end.


(** Start address of stride [k], and agreement of the ECU memory with the
    image on that stride. *)
Definition stride_addr (chunk : Z) (k : nat) : Z := Z.of_nat k * chunk.

Definition stride_agrees (image mem : list byte) (chunk : Z) (k : nat)
  : Prop :=
  forall j : nat,
    (Z.to_nat (stride_addr chunk k) <= j
     < Z.to_nat (stride_addr chunk (S k)))%nat ->
    mem !! j = image !! j.

(** A computation that only ever adds to the log of transmitted frames. *)
Definition appends {A} (c : M A) : Prop :=
  forall w : World, tx_log w `prefix_of` tx_log (snd (c w)).

(** A computation whose first transmission, in any world, is the frame
    [f]. *)
Definition sends_first {A} (f : Frame) (c : M A) : Prop :=
  forall w : World, (tx_log w ++ [f]) `prefix_of` tx_log (snd (c w)).

(** The requests of the flash workflow and the exchanges of a cooperative
    ECU during it.  [transfer_requests d block] lists the TransferData
    requests for [d] cut into blocks of [block] bytes, the block counter
    starting at 1 and wrapping modulo 256; the ECU answers each with the
    positive echo of the counter. *)
Definition erase_request : list byte :=
  [z2b SID_ROUTINE_CONTROL; z2b 0x01; z2b 0xFF; z2b 0x00].

Definition download_request (addr length : Z) : list byte :=
  z2b SID_REQUEST_DOWNLOAD :: [z2b 0x00; z2b 0x44] ++ be4 addr ++ be4 length.

Definition block_counter (k : nat) : Z := (Z.of_nat k + 1) mod 256.

Definition transfer_request (d : list byte) (block : nat) (k : nat)
  : list byte :=
  z2b SID_TRANSFER_DATA :: z2b (block_counter k)
  :: slice d (k * block) (k * block + block).

Definition transfer_answer (k : nat) : list byte :=
  [z2b (pos SID_TRANSFER_DATA); z2b (block_counter k)].

Definition block_count (d : list byte) (block : nat) : nat :=
  (length d + block - 1) / block.

Definition transfer_script (d : list byte) (block : nat) (k m : nat)
  : list (option Frame) :=
  flat_map (fun k => kwp_script (transfer_request d block k)
                       (transfer_answer k))
           (seq k m).

Definition transfer_sent (d : list byte) (block : nat) (k m : nat)
  : list Frame :=
  flat_map (fun k => kwp_sent (transfer_request d block k)
                       (transfer_answer k))
           (seq k m).

Definition exit_request : list byte := [z2b SID_REQUEST_TRANSFER_EXIT].

(** The positive answer of a cooperative ECU to the erase routine. *)
Definition erase_answer : list byte :=
  [z2b (pos SID_ROUTINE_CONTROL); z2b 0x01].

(** [sub] occurs in [l] at index [i]. *)
Definition occurs_at (l sub : list byte) (i : nat) : Prop :=
  take (length sub) (drop i l) = sub.

(** The exceptions of [patch_vin] under the names of the specification's
    error kinds. *)
Definition InvalidVin : exn := ValueError "VIN must be exactly 17 characters".
Definition VinNotFound : exn :=
  RuntimeError "Existing VIN not found in calibration area".

(** The CAL region of a buffer, [buf[CAL_START:CAL_END]]. *)
Definition cal_of (b : list byte) : list byte := slice b nCAL_START nCAL_END.


(** A computation that only ever takes events off the bus script. *)
Definition consumes {A} (c : M A) : Prop :=
  forall w : World,
    (length (rx_queue (snd (c w))) <= length (rx_queue w))%nat.

(** * Further definitions: properties beyond the specification's claims *)

(** ** Flow control seen by the sender *)

(** The next event of a bus script, an exhausted script timing out. *)
Definition next_event (q : list (option Frame)) : option Frame :=
  match q with
  | [] => None
  | e :: _ => e
  end.

(** Whether a receive event is accepted by [_send] as a FlowControl
    frame: a frame on the expected identifier, not empty, whose first
    byte has the high nibble 3. *)
Definition is_flow_control (tp : IsoTp) (e : option Frame) : bool :=
  match e with
  | None => false
  | Some f =>
      (arbitration_id f =? rx_id tp)
      && match data f with
         | [] => false
         | f0 :: _ => Z.shiftr (b2z f0) 4 =? 0x3
         end
  end.

(** ** Reassembly seen by the receiver *)

(** The data bytes [_recv] takes from a frame during reassembly,
    [cf.data[1:]]. *)
Definition cf_payload (f : Frame) : list byte := drop 1 (data f).

(** The frames [fs] are exactly those the reassembly loop reads when it
    starts with [buf] and waits for [total] bytes: before each of them the
    buffer is still short, after the last it is not. *)
Fixpoint completes (buf : list byte) (fs : list Frame) (total : nat) : Prop :=
  match fs with
  | [] => (total <= length buf)%nat
  | f :: fs' =>
      (length buf < total)%nat /\ completes (buf ++ cf_payload f) fs' total
  end.

(** Whether a receive event is a frame on the identifier [tp] listens
    to; a timeout is not. *)
Definition accepted (tp : IsoTp) (e : option Frame) : bool :=
  match e with
  | None => false
  | Some f => arbitration_id f =? rx_id tp
  end.

(** The length a First frame with the first bytes [d0], [d1] declares. *)
Definition ff_total (d0 d1 : byte) : nat :=
  Z.to_nat (Z.lor (Z.shiftl (Z.land (b2z d0) 0x0F) 8) (b2z d1)).

(** ** Requests of the session and security services *)

Definition session_request : list byte := [z2b SID_START_SESSION; z2b 0x85].

Definition seed_request : list byte := [z2b SID_SECURITY_ACCESS; z2b 0x01].

(** The key request [security_unlock] builds from the answer to its seed
    request. *)
Definition key_request (seed_answer : list byte) : list byte :=
  let key := calc_key_msd80 (int_from_bytes_big (slice seed_answer 2 4)) in
  [z2b SID_SECURITY_ACCESS; z2b 0x02; z2b (Z.shiftr key 8);
   z2b (Z.land key 0xFF)].

(** ** An ECU that answers reads with fewer bytes than asked for *)

(** The positive ReadMemoryByAddress answer that carries only the first
    [keep addr] bytes of the range asked for. *)
Definition short_answer (mem : list byte) (keep : Z -> nat)
    (addr length : Z) : list byte :=
  z2b (pos SID_READ_MEMORY_BY_ADDR)
  :: take (keep addr) (slice mem (Z.to_nat addr) (Z.to_nat (addr + length))).

Definition short_script (mem : list byte) (keep : Z -> nat) (n chunk : Z)
    (addrs : list Z) : list (option Frame) :=
  flat_map (fun addr =>
              kwp_script (read_request addr (Z.min chunk (n - addr)))
                         (short_answer mem keep addr (Z.min chunk (n - addr))))
           addrs.

(** What such an ECU puts on the bus during [verify] of [image]. *)
Definition short_verify_script (image : list byte) (keep : Z -> nat)
    (chunk : Z) : list (option Frame) :=
  match range0 (Z.of_nat (length image)) chunk with
  | Some addrs => short_script image keep (Z.of_nat (length image)) chunk addrs
  | None => []
  end.

(** ** Files and the backup *)

(** The contents of the file at [path], if there is one. *)
Fixpoint file_contents (path : string) (fs : list (string * list byte))
  : option (list byte) :=
  match fs with
  | [] => None
  | (p, c) :: fs' =>
      if String.eqb p path then Some c else file_contents path fs'
  end.

(** What a cooperative ECU holding [mem] puts on the bus during a
    [backup] read in strides of [chunk] bytes. *)
Definition backup_script (mem : list byte) (chunk : Z)
  : list (option Frame) :=
  match range0 FLASH_SIZE chunk with
  | Some addrs => memory_script mem FLASH_SIZE chunk addrs
  | None => []
  end.

(** ** Reading the ECU identification ([Flasher.read_ecu_id]) *)

(** [bs.hex()]: two lower-case hexadecimal digits per byte. *)
Definition hex_digit (n : Z) : ascii :=
  nth (Z.to_nat n) (list_ascii_of_string "0123456789abcdef") "0"%char.

Fixpoint bytes_hex (bs : list byte) : string :=
  match bs with
  | [] => EmptyString
  | b :: bs' =>
      String (hex_digit (b2z b / 16))
        (String (hex_digit (b2z b mod 16)) (bytes_hex bs'))
  end.

(** A Python [dict] from labels to byte strings, in insertion order;
    [dict_set] is [d[k] = v]: the value of a key already present is
    replaced where it stands, a new key is added at the end. *)
Abbreviation dict := (list (string * list byte)).

Fixpoint dict_set (k : string) (v : list byte) (d : dict) : dict :=
  match d with
  | [] => [(k, v)]
  | (k', v') :: d' =>
      if String.eqb k' k then (k', v) :: d' else (k', v') :: dict_set k v d'
  end.

Definition ecu_identifiers : list (list byte) :=
  [[Byte.x90]; [Byte.x92]; [Byte.x94]; [Byte.x97]].

(** The loop of [read_ecu_id] over the identifiers still to be asked. *)
Fixpoint read_ids (idents : list (list byte)) (result : dict) : M dict :=
  match idents with
  | [] => ret result
  | ident :: idents' =>
      let! resp := _kwp SID_READ_ECU_ID ident in
      read_ids idents'
        (if negb (rejected resp SID_READ_ECU_ID)
         then dict_set ("0x" ++ bytes_hex ident) (drop 2 resp) result
         else result)
  end.

Definition read_ecu_id : M dict := read_ids ecu_identifiers [].

(** The exchanges of [read_ecu_id] with an ECU that answers the four
    requests with [answers], and the entries those answers give. *)
Definition id_request (ident : list byte) : list byte :=
  z2b SID_READ_ECU_ID :: ident.

Definition id_script (answers : list (list byte)) : list (option Frame) :=
  flat_map (fun '(ident, rs) => kwp_script (id_request ident) rs)
           (zip ecu_identifiers answers).

Definition id_sent (answers : list (list byte)) : list Frame :=
  flat_map (fun '(ident, rs) => kwp_sent (id_request ident) rs)
           (zip ecu_identifiers answers).

Definition id_entries (answers : list (list byte)) : dict :=
  flat_map (fun '(ident, rs) =>
              if rejected rs SID_READ_ECU_ID then []
              else [(("0x" ++ bytes_hex ident)%string, drop 2 rs)])
           (zip ecu_identifiers answers).

(** * The web API's transfer loop ([tools/n54flash_enhanced.py]) *)

(** [FlashController._transfer_with_progress] repeats the loop of
    [Flasher.transfer_data] and calls [progress_callback(offset, total)]
    after every block, if a callback is given.  The callback is whatever
    callable the caller supplies: it is modelled as a computation over the
    world of the flasher and a state [C] of the caller's own, which may
    change either and may raise. *)
Abbreviation Callback C := (Z -> Z -> ST (World * C) unit).

(** A computation of the flasher run inside the caller's state. *)
Definition lift {C A} (c : M A) : ST (World * C) A :=
  fun s => let (r, w') := c (fst s) in (r, (w', snd s)).

(** The loop; [progress_callback] is [None] when no callback is given. *)
Fixpoint transfer_progress_loop {C} (fuel : nat) (d : list byte)
    (chunk_size : Z) (progress_callback : option (Callback C))
    (counter : Z) (offset : nat) : ST (World * C) unit :=
  if (offset <? length d)%nat then
    match fuel with
    | O => raise FuelExhausted
    | S fuel' =>
        let chunk := chunk_at d offset chunk_size in
        let payload := [z2b (Z.land counter 0xFF)] ++ chunk in
        let! resp := lift (_kwp SID_TRANSFER_DATA payload) in
        if rejected resp SID_TRANSFER_DATA
        then raise (RuntimeError
                      ("TransferData failed at block " ++ dec_string counter))
        else
          let offset := (offset + length chunk)%nat in
          let counter := Z.land (counter + 1) 0xFF in
          (match progress_callback with
           | Some callback =>
               callback (Z.of_nat offset) (Z.of_nat (length d))
           | None => ret tt
           end) ;;;
          transfer_progress_loop fuel' d chunk_size progress_callback
            counter offset
    end
  else ret tt.

Definition _transfer_with_progress {C} (d : list byte) (chunk_size : Z)
    (progress_callback : option (Callback C)) : ST (World * C) unit :=
  let! n := lift pending in
  transfer_progress_loop (S n) d chunk_size progress_callback 1 0.

(** What a callback may or may not do: leave the flasher's world as it
    is, return normally whatever it is given, and raise [e] on some call. *)
Definition keeps_bus {C} (callback : Callback C) : Prop :=
  forall (offset total : Z) (w : World) (c : C),
    fst (snd (callback offset total (w, c))) = w.

Definition returns {C} (callback : Callback C) : Prop :=
  forall (offset total : Z) (s : World * C),
    fst (callback offset total s) = Ok tt.

Definition raised_by {C} (progress_callback : option (Callback C))
    (e : exn) : Prop :=
  exists (callback : Callback C) (offset total : Z) (s : World * C),
    progress_callback = Some callback
    /\ fst (callback offset total s) = Raise e.

(** A callback that records the calls it receives, to observe them. *)
Abbreviation Progress := (list (Z * Z)).

Definition record_progress : Callback Progress :=
  fun offset total s => (Ok tt, (fst s, snd s ++ [(offset, total)])).

(** The progress reports of a transfer of [d] in blocks of [block] bytes:
    after block [k] the offset reached, and the total. *)
Definition progress_reports (d : list byte) (block : nat) (k m : nat)
  : Progress :=
  map (fun j => (Z.of_nat (Nat.min (S j * block) (length d)),
                 Z.of_nat (length d)))
      (seq k m).

(** ** Basic facts about bytes *)

Lemma b2z_range (b : byte) : 0 <= b2z b < 256.
Proof.
  unfold b2z. pose proof (Byte.to_N_bounded b) as H.
  split; [apply N2Z.is_nonneg | ].
  apply N.lt_succ_r in H. change (255 + 1)%N with 256%N in H. lia.
Qed.

Lemma b2z_z2b (z : Z) : 0 <= z < 256 -> b2z (z2b z) = z.
Proof.
  intros Hz. unfold b2z, z2b. rewrite Z.mod_small by lia.
  destruct (Byte.of_N (Z.to_N z)) as [b|] eqn:E.
  - apply Byte.to_of_N in E. rewrite E. lia.
  - apply Byte.of_N_None_iff in E. lia.
Qed.

Lemma z2b_b2z (b : byte) : z2b (b2z b) = b.
Proof.
  unfold z2b. rewrite Z.mod_small by apply b2z_range.
  unfold b2z. rewrite N2Z.id, Byte.of_to_N. reflexivity.
Qed.

Lemma length_slice {A} (l : list A) a b :
  length (slice l a b) = (Nat.min b (length l) - a)%nat.
Proof. unfold slice. rewrite length_drop, length_take. reflexivity. Qed.

Lemma land_mod16 z : Z.land (z mod 16) 0x0F = z mod 16.
Proof.
  change 0x0F with (Z.ones 4). rewrite Z.land_ones by lia.
  change (2 ^ 4) with 16. apply Z.mod_mod. lia.
Qed.

Lemma land_succ_mod16 z : Z.land (z mod 16 + 1) 0x0F = (z + 1) mod 16.
Proof.
  change 0x0F with (Z.ones 4). rewrite Z.land_ones by lia.
  change (2 ^ 4) with 16. rewrite Z.add_mod_idemp_l by lia. reflexivity.
Qed.

Section SendFacts.
Variable tp : IsoTp.

Lemma _send_single (p : list byte) (w : World) :
  (length p <= 7)%nat ->
  _send tp p w =
    (Ok tt, mkWorld (rx_queue w) (tx_log w ++ [single_frame tp p])
              (slept w) (files w)).
Proof.
  intros Hp. unfold _send.
  destruct (Nat.leb_spec (length p) 7) as [_|]; [reflexivity | lia].
Qed.

Lemma send_loop_unlimited (p : list byte) (st : Z) :
  forall (m k fuel : nat) (bs_cnt : Z) (w : World),
    (m + k = cf_count p)%nat -> (6 <= length p)%nat ->
    (m <= fuel)%nat ->
    send_loop tp fuel p (Nat.min (6 + 7 * k) (length p))
      ((Z.of_nat k + 1) mod 16) bs_cnt st 0 w =
    (Ok tt, mkWorld (rx_queue w)
              (tx_log w ++ consecutive_frames tp p k m)
              (slept w ++ st_sleeps st m) (files w)).
Proof.
  unfold cf_count.
  induction m as [|m IH]; intros k fuel bs_cnt w Hk Hlen Hfuel.
  - assert (length p <= 6 + 7 * k)%nat.
    { pose proof (Nat.div_mod_eq (length p - 6 + 6) 7).
      pose proof (Nat.mod_upper_bound (length p - 6 + 6) 7). lia. }
    rewrite Nat.min_r by lia.
    destruct fuel; simpl; rewrite Nat.ltb_irrefl; unfold ret, st_sleeps;
      destruct (st <=? 127); simpl; rewrite !app_nil_r; destruct w; reflexivity.
  - assert (6 + 7 * k < length p)%nat.
    { pose proof (Nat.div_mod_eq (length p - 6 + 6) 7).
      pose proof (Nat.mod_upper_bound (length p - 6 + 6) 7). lia. }
    rewrite Nat.min_l by lia.
    destruct fuel as [|fuel]; [lia|].
    cbn [send_loop].
    destruct (Nat.ltb_spec (6 + 7 * k) (length p)) as [_|]; [|lia].
    unfold bind at 1. unfold bus_send at 1.
    change (0 =? 0) with true. cbn [negb andb].
    unfold bind at 1. unfold ret at 1.
    assert (Hc : (6 + 7 * k + length (slice p (6 + 7 * k) (6 + 7 * k + 7)))%nat
                 = Nat.min (6 + 7 * S k) (length p)).
    { rewrite length_slice. lia. }
    rewrite Hc.
    rewrite land_succ_mod16, land_mod16.
    replace (Z.of_nat k + 1 + 1) with (Z.of_nat (S k) + 1) by lia.
    unfold bind at 1.
    assert (Hs : forall w0, (if st <=? 127 then sleep_ms st else ret tt) w0 =
              (Ok tt, mkWorld (rx_queue w0) (tx_log w0)
                        (slept w0 ++ st_sleeps st 1) (files w0))).
    { intros w0. unfold st_sleeps. destruct (st <=? 127); unfold sleep_ms, ret; simpl;
        [reflexivity | rewrite app_nil_r; destruct w0; reflexivity]. }
    rewrite Hs. rewrite IH by lia. cbn [rx_queue tx_log slept files].
    rewrite <- !app_assoc.
    replace (st_sleeps st 1 ++ st_sleeps st m) with (st_sleeps st (S m))
      by (unfold st_sleeps; destruct (st <=? 127); reflexivity).
    reflexivity.
Qed.

Lemma cf_count_le (p : list byte) : (cf_count p <= length p)%nat.
Proof.
  unfold cf_count. pose proof (Nat.div_mod_eq (length p - 6 + 6) 7). lia.
Qed.

(** A FlowControl frame with block size 0 lets the whole payload go. *)
Lemma _send_multi (p : list byte) (w : World) (f0 st : byte)
    (rest : list byte) (q : list (option Frame)) :
  (7 < length p)%nat ->
  Z.shiftr (b2z f0) 4 = 3 ->
  rx_queue w = Some (mkFrame (rx_id tp) (f0 :: Byte.x00 :: st :: rest)) :: q ->
  _send tp p w =
    (Ok tt, mkWorld q (tx_log w ++ segments tp p)
              (slept w ++ st_sleeps (b2z st) (cf_count p)) (files w)).
Proof.
  intros Hp Hf0 Hq. unfold _send, segments.
  destruct (Nat.leb_spec (length p) 7) as [|_]; [lia|].
  unfold bind at 1. unfold bus_send at 1.
  unfold bind at 1. unfold _recv at 1. unfold bind at 1.
  unfold bus_recv at 1. cbn [rx_queue tx_log slept files]. rewrite Hq.
  cbn [arbitration_id data]. rewrite Z.eqb_refl. cbn [negb].
  unfold ret at 1. unfold bind at 1. unfold flow_control at 1.
  rewrite Hf0. change (3 =? 3) with true. cbn [negb].
  cbn [lookup list_lookup].
  unfold ret at 1. change (b2z Byte.x00) with 0.
  pose proof (send_loop_unlimited p (b2z st) (cf_count p) 0 (length p) 0
                (mkWorld q (tx_log w ++ [first_frame tp p]) (slept w) (files w))) as H.
  rewrite Nat.min_l in H by lia.
  change ((Z.of_nat 0 + 1) mod 16) with 1 in H.
  change (6 + 7 * 0)%nat with 6%nat in H.
  unfold first_frame in H |- *.
  rewrite H by (try apply cf_count_le; lia).
  cbn [rx_queue tx_log slept files]. rewrite <- app_assoc. reflexivity.
Qed.
End SendFacts.

Lemma ff_length_table : forallb ff_length_ok (seq 0 4096) = true.
Proof. vm_compute. reflexivity. Qed.

Lemma ff_length_decode (n : nat) :
  (n <= 4095)%nat ->
  let total := Z.of_nat n in
  let d0 := b2z (z2b (Z.lor 0x10 (Z.land (Z.shiftr total 8) 0x0F))) in
  let d1 := b2z (z2b (Z.land total 0xFF)) in
  Z.land d0 0xF0 = 0x10 /\ Z.lor (Z.shiftl (Z.land d0 0x0F) 8) d1 = total.
Proof.
  intros Hn. pose proof ff_length_table as T.
  rewrite forallb_forall in T. specialize (T n).
  assert (Hin : In n (seq 0 4096)) by (apply in_seq; lia).
  apply T in Hin. unfold ff_length_ok in Hin.
  apply andb_prop in Hin as [H1 H2].
  apply Z.eqb_eq in H1, H2. split; assumption.
Qed.

Lemma sf_length_decode (n : nat) :
  (n <= 7)%nat ->
  let d0 := b2z (z2b (Z.of_nat n)) in
  Z.land d0 0xF0 = 0 /\ Z.to_nat (Z.land d0 0x0F) = n.
Proof.
  intros Hn.
  assert (T : forallb sf_length_ok (seq 0 8) = true) by reflexivity.
  rewrite forallb_forall in T. specialize (T n).
  assert (Hin : In n (seq 0 8)) by (apply in_seq; lia).
  apply T in Hin. unfold sf_length_ok in Hin.
  apply andb_prop in Hin as [H1 H2].
  apply Z.eqb_eq in H1. apply Nat.eqb_eq in H2. split; assumption.
Qed.

Section RecvFacts.
Variable tp : IsoTp.
(** The peer, which transmits on the identifier [tp] listens to. *)
Variable peer : IsoTp.
Hypothesis peer_tx : tx_id peer = rx_id tp.

Lemma _recv_single (p : list byte) (w : World) (q : list (option Frame)) :
  (length p <= 7)%nat ->
  rx_queue w = Some (single_frame peer p) :: q ->
  _recv tp false w =
    (Ok (Some p), mkWorld q (tx_log w) (slept w) (files w)).
Proof.
  intros Hp Hq. unfold _recv, bind, bus_recv. rewrite Hq.
  unfold single_frame. cbn [arbitration_id data app].
  rewrite peer_tx, Z.eqb_refl. cbn [negb].
  destruct (sf_length_decode (length p) Hp) as [H1 H2].
  rewrite H1, H2. change (0 =? 0) with true. cbn iota.
  unfold ret. do 3 f_equal.
  unfold slice. rewrite <- Nat.add_1_l. cbn [Nat.add take drop].
  rewrite take_app_length. reflexivity.
Qed.

Lemma recv_loop_segments (p : list byte) :
  forall (m k fuel : nat) (pad : list byte) (w : World)
         (q : list (option Frame)),
    (m + k = cf_count p)%nat -> (6 <= length p)%nat ->
    (m <= fuel)%nat ->
    ((6 + 7 * k < length p)%nat -> pad = []) ->
    rx_queue w = map Some (consecutive_frames peer p k m) ++ q ->
    recv_loop tp fuel (take (6 + 7 * k) p ++ pad) (length p) w =
      (Ok p, mkWorld q (tx_log w) (slept w) (files w)).
Proof.
  unfold cf_count.
  induction m as [|m IH]; intros k fuel pad w q Hk Hlen Hfuel Hpad Hq.
  - assert (length p <= 6 + 7 * k)%nat.
    { pose proof (Nat.div_mod_eq (length p - 6 + 6) 7).
      pose proof (Nat.mod_upper_bound (length p - 6 + 6) 7). lia. }
    rewrite take_ge by lia.
    assert (E : recv_loop tp fuel (p ++ pad) (length p) w
                = ret (take (length p) (p ++ pad)) w).
    { destruct fuel; cbn [recv_loop]; rewrite length_app;
        destruct (Nat.ltb_spec (length p + length pad) (length p)); try lia;
        reflexivity. }
    rewrite E, take_app_length. unfold ret. destruct w. cbn in Hq.
    rewrite Hq. reflexivity.
  - assert (6 + 7 * k < length p)%nat.
    { pose proof (Nat.div_mod_eq (length p - 6 + 6) 7).
      pose proof (Nat.mod_upper_bound (length p - 6 + 6) 7). lia. }
    rewrite (Hpad H), app_nil_r.
    destruct fuel as [|fuel]; [lia|].
    cbn [recv_loop]. rewrite length_take.
    destruct (Nat.ltb_spec ((6 + 7 * k) `min` length p) (length p)) as [_|]; [|lia].
    unfold bind at 1. unfold bus_recv at 1. rewrite Hq.
    unfold consecutive_frames at 1. cbn [seq map app].
    unfold consecutive_frame at 1. cbn [arbitration_id data].
    rewrite peer_tx, Z.eqb_refl. cbn [negb].
    unfold consecutive_frame at 1. cbn [arbitration_id data app drop].
    rewrite drop_0, app_assoc.
    replace (take (6 + 7 * k) p ++ slice p (6 + 7 * k) (6 + 7 * k + 7))
      with (take (6 + 7 * S k) p).
    2:{ unfold slice. replace (6 + 7 * S k)%nat with (6 + 7 * k + 7)%nat by lia.
        rewrite <- (take_drop (6 + 7 * k) (take (6 + 7 * k + 7) p)) at 1.
        f_equal. rewrite take_take. f_equal. lia. }
    rewrite (IH (S k) fuel _ _ q); [reflexivity | lia | lia | lia | | reflexivity].
    intros Hlt. rewrite length_slice.
    replace (7 - (((6 + 7 * k + 7) `min` length p) - (6 + 7 * k)))%nat
      with 0%nat by lia.
    reflexivity.
Qed.

Lemma _recv_multi (p : list byte) (w : World) (q : list (option Frame)) :
  (7 < length p <= 4095)%nat ->
  rx_queue w = map Some (segments peer p) ++ q ->
  _recv tp false w =
    (Ok (Some p),
     mkWorld q (tx_log w ++ [flow_control_frame tp]) (slept w) (files w)).
Proof.
  intros [Hp Hmax] Hq. unfold segments in Hq.
  destruct (Nat.leb_spec (length p) 7) as [|_]; [lia|].
  unfold _recv. unfold bind at 1. unfold bus_recv at 1. rewrite Hq.
  cbn [map app]. unfold first_frame. cbn [arbitration_id data app].
  rewrite peer_tx, Z.eqb_refl. cbn [negb].
  destruct (ff_length_decode (length p) Hmax) as [H1 H2].
  rewrite H1. change (16 =? 0) with false. change (16 =? 16) with true.
  cbn iota. cbn [lookup list_lookup]. rewrite H2.
  unfold bind at 1. unfold bus_send at 1.
  unfold bind at 1. unfold pending at 1.
  unfold bind at 1. cbn [rx_queue tx_log slept files].
  rewrite Nat2Z.id.
  replace (slice (_ :: _ :: slice p 0 6) 2 8) with (take (6 + 7 * 0) p ++ []).
  2:{ unfold slice. cbn [drop take]. rewrite !drop_0, app_nil_r.
      rewrite take_take. reflexivity. }
  erewrite (recv_loop_segments p (cf_count p) 0).
  - unfold ret. reflexivity.
  - lia.
  - lia.
  - rewrite length_app, length_map. unfold consecutive_frames.
    rewrite length_map, length_seq. lia.
  - reflexivity.
  - reflexivity.
Qed.
End RecvFacts.

Section SendAnyFlowControl.
Variable tp : IsoTp.

Lemma _recv_raw_tx_log (w : World) :
  tx_log (snd (_recv tp true w)) = tx_log w.
Proof.
  unfold _recv, bind, bus_recv.
  destruct (rx_queue w) as [|[m|] q]; cbn; try reflexivity.
  destruct (negb (arbitration_id m =? rx_id tp)); reflexivity.
Qed.

Lemma flow_control_pure (fc : option (list byte)) (msg : string) (w : World) :
  snd (flow_control fc msg w) = w.
Proof.
  unfold flow_control.
  destruct fc as [[|f0 d]|]; try reflexivity.
  destruct (negb _); try reflexivity.
  destruct (_ !! 2%nat); try reflexivity.
  destruct (_ !! 1%nat); reflexivity.
Qed.

(** Whatever the peer's flow control asks for, a transfer that completes
    has put exactly the Consecutive frames of the payload on the bus. *)
Lemma send_loop_frames (p : list byte) :
  forall (m k fuel : nat) (bs_cnt st bs : Z) (w w' : World),
    (m + k = cf_count p)%nat -> (6 <= length p)%nat ->
    send_loop tp fuel p (Nat.min (6 + 7 * k) (length p))
      ((Z.of_nat k + 1) mod 16) bs_cnt st bs w = (Ok tt, w') ->
    tx_log w' = tx_log w ++ consecutive_frames tp p k m.
Proof.
  unfold cf_count.
  induction m as [|m IH]; intros k fuel bs_cnt st bs w w' Hk Hlen Hrun.
  - assert (length p <= 6 + 7 * k)%nat.
    { pose proof (Nat.div_mod_eq (length p - 6 + 6) 7).
      pose proof (Nat.mod_upper_bound (length p - 6 + 6) 7). lia. }
    rewrite Nat.min_r in Hrun by lia.
    assert (E : send_loop tp fuel p (length p) ((Z.of_nat k + 1) mod 16)
                  bs_cnt st bs w = (Ok tt, w)).
    { destruct fuel; cbn [send_loop]; rewrite Nat.ltb_irrefl; reflexivity. }
    rewrite E in Hrun. injection Hrun as <-. cbn. rewrite app_nil_r. reflexivity.
  - assert (6 + 7 * k < length p)%nat.
    { pose proof (Nat.div_mod_eq (length p - 6 + 6) 7).
      pose proof (Nat.mod_upper_bound (length p - 6 + 6) 7). lia. }
    rewrite Nat.min_l in Hrun by lia.
    destruct fuel as [|fuel]; cbn [send_loop] in Hrun;
      destruct (Nat.ltb_spec (6 + 7 * k) (length p)) as [_|]; try lia;
      [discriminate Hrun|].
    unfold bind at 1 in Hrun. unfold bus_send at 1 in Hrun.
    assert (Hc : (6 + 7 * k + length (slice p (6 + 7 * k) (6 + 7 * k + 7)))%nat
                 = Nat.min (6 + 7 * S k) (length p)).
    { unfold slice. rewrite length_drop, length_take. lia. }
    rewrite Hc, land_succ_mod16, land_mod16 in Hrun.
    replace (Z.of_nat k + 1 + 1) with (Z.of_nat (S k) + 1) in Hrun by lia.
    set (w1 := mkWorld _ _ _ _) in Hrun.
    unfold bind at 1 in Hrun.
    match type of Hrun with
    | (let (_, _) := ?c w1 in _) = _ =>
        assert (Hfc : tx_log (snd (c w1)) = tx_log w1);
        [| destruct (c w1) as [[[[bc' st'] bs']|e] w2]; [|discriminate Hrun] ]
    end.
    { destruct (negb (bs =? 0) && (bs <=? bs_cnt + 1)); [|reflexivity].
      unfold bind at 1.
      pose proof (_recv_raw_tx_log w1) as Hr.
      destruct (_recv tp true w1) as [[fc|e] w2]; [|exact Hr].
      unfold bind at 1.
      pose proof (flow_control_pure fc "Missing FC mid-transfer" w2) as Hf.
      destruct (flow_control fc "Missing FC mid-transfer" w2) as [[[s b]|e] w3];
        cbn in Hf; subst w3; exact Hr. }
    cbn [snd] in Hfc.
    unfold bind at 1 in Hrun.
    match type of Hrun with
    | (let (_, _) := ?c w2 in _) = _ =>
        assert (Hsl : c w2 = (Ok tt, snd (c w2)) /\ tx_log (snd (c w2)) = tx_log w2)
          by (destruct (st' <=? 127); split; reflexivity);
        destruct Hsl as [Hsl1 Hsl2]; rewrite Hsl1 in Hrun
    end.
    apply IH in Hrun; [|lia|lia].
    rewrite Hrun, Hsl2, Hfc. subst w1. cbn [tx_log].
    rewrite <- app_assoc. reflexivity.
Qed.

Lemma _send_frames (p : list byte) (w w' : World) :
  _send tp p w = (Ok tt, w') -> tx_log w' = tx_log w ++ segments tp p.
Proof.
  unfold _send, segments. intros Hrun.
  destruct (Nat.leb_spec (length p) 7) as [|Hlen].
  - unfold bus_send in Hrun. injection Hrun as <-. reflexivity.
  - unfold bind at 1 in Hrun. unfold bus_send at 1 in Hrun.
    set (w1 := mkWorld _ _ _ _) in Hrun.
    unfold bind at 1 in Hrun.
    pose proof (_recv_raw_tx_log w1) as Hr.
    destruct (_recv tp true w1) as [[fc|e] w2]; [|discriminate Hrun].
    unfold bind at 1 in Hrun.
    pose proof (flow_control_pure fc "No FlowControl" w2) as Hf.
    destruct (flow_control fc "No FlowControl" w2) as [[[s b]|e] w3];
      [|discriminate Hrun].
    cbn in Hf, Hr. subst w3.
    pose proof (send_loop_frames p (cf_count p) 0 (length p) 0 s b w2 w') as H.
    rewrite Nat.min_l in H by lia.
    apply H in Hrun; [|lia|lia].
    rewrite Hrun, Hr. subst w1. cbn [tx_log]. rewrite <- app_assoc. reflexivity.
Qed.
End SendAnyFlowControl.

(** ** The loops of the transport never run out of fuel *)

(** Transport a disequality between raised exceptions to another result
    type. *)
Ltac raise_ne H :=
  let Heq := fresh "Heq" in
  intros Heq; cbn in Heq; injection Heq as ->; apply H; reflexivity.

Section TransportFuel.
Variable tp : IsoTp.

Lemma recv_loop_fuel :
  forall (fuel : nat) (buf : list byte) (total : nat) (w : World),
    (length (rx_queue w) < fuel)%nat ->
    fst (recv_loop tp fuel buf total w) <> Raise FuelExhausted.
Proof.
  induction fuel as [|fuel IH]; intros buf total w Hq; [lia|].
  cbn [recv_loop]. destruct (length buf <? total)%nat; [|discriminate].
  unfold bind, bus_recv.
  destruct (rx_queue w) as [|[f|] q] eqn:E; cbn; try discriminate.
  destruct (negb (arbitration_id f =? rx_id tp)); [discriminate|].
  apply IH. cbn in *. lia.
Qed.

Lemma _recv_fuel (raw : bool) (w : World) :
  fst (_recv tp raw w) <> Raise FuelExhausted.
Proof.
  unfold _recv. unfold bind at 1. unfold bus_recv.
  destruct (rx_queue w) as [|[m|] q] eqn:E; cbn -[recv_loop]; try discriminate.
  destruct (negb (arbitration_id m =? rx_id tp)); [discriminate|].
  destruct raw; [discriminate|].
  destruct (data m) as [|d0 d]; [discriminate|].
  destruct (Z.land (b2z d0) 240 =? 0); [discriminate|].
  destruct (Z.land (b2z d0) 240 =? 16); [|discriminate].
  destruct ((d0 :: d) !! 1%nat); [|discriminate].
  unfold bind at 1. unfold bus_send. unfold bind at 1. unfold pending.
  cbn [rx_queue]. unfold bind at 1.
  match goal with
  | |- fst (let (_, _) := recv_loop tp ?f ?b ?t ?w1 in _) <> _ =>
      pose proof (recv_loop_fuel f b t w1) as H;
      destruct (recv_loop tp f b t w1) as [[r|e] w2]
  end; cbn in *; [discriminate|].
  intros Heq. injection Heq as ->. apply H; [lia | reflexivity].
Qed.

Lemma flow_control_fuel (fc : option (list byte)) (msg : string) (w : World) :
  fst (flow_control fc msg w) <> Raise FuelExhausted.
Proof.
  unfold flow_control.
  destruct fc as [[|f0 d]|]; try discriminate.
  destruct (negb _); try discriminate.
  destruct (_ !! 2%nat); try discriminate.
  destruct (_ !! 1%nat); discriminate.
Qed.

Lemma send_loop_fuel (p : list byte) :
  forall (m k fuel : nat) (bs_cnt st bs : Z) (w : World),
    (m + k = cf_count p)%nat -> (6 <= length p)%nat -> (m <= fuel)%nat ->
    fst (send_loop tp fuel p (Nat.min (6 + 7 * k) (length p))
           ((Z.of_nat k + 1) mod 16) bs_cnt st bs w) <> Raise FuelExhausted.
Proof.
  unfold cf_count.
  induction m as [|m IH]; intros k fuel bs_cnt st bs w Hk Hlen Hfuel.
  - assert (length p <= 6 + 7 * k)%nat.
    { pose proof (Nat.div_mod_eq (length p - 6 + 6) 7).
      pose proof (Nat.mod_upper_bound (length p - 6 + 6) 7). lia. }
    rewrite Nat.min_r by lia.
    destruct fuel; cbn [send_loop]; rewrite Nat.ltb_irrefl; discriminate.
  - assert (6 + 7 * k < length p)%nat.
    { pose proof (Nat.div_mod_eq (length p - 6 + 6) 7).
      pose proof (Nat.mod_upper_bound (length p - 6 + 6) 7). lia. }
    rewrite Nat.min_l by lia.
    destruct fuel as [|fuel]; [lia|]. cbn [send_loop].
    destruct (Nat.ltb_spec (6 + 7 * k) (length p)) as [_|]; [|lia].
    unfold bind at 1. unfold bus_send at 1.
    assert (Hc : (6 + 7 * k + length (slice p (6 + 7 * k) (6 + 7 * k + 7)))%nat
                 = Nat.min (6 + 7 * S k) (length p)).
    { unfold slice. rewrite length_drop, length_take. lia. }
    rewrite Hc, land_succ_mod16, land_mod16.
    replace (Z.of_nat k + 1 + 1) with (Z.of_nat (S k) + 1) by lia.
    set (w1 := mkWorld _ _ _ _).
    unfold bind at 1.
    match goal with
    | |- fst (let (_, _) := ?c w1 in _) <> _ =>
        assert (Hfc : fst (c w1) <> Raise FuelExhausted);
        [| destruct (c w1) as [[[[bc' st'] bs']|e] w2]; [|raise_ne Hfc] ]
    end.
    { destruct (negb (bs =? 0) && (bs <=? bs_cnt + 1)); [|discriminate].
      unfold bind at 1.
      pose proof (_recv_fuel true w1) as Hr.
      destruct (_recv tp true w1) as [[fc|e] w2]; [|raise_ne Hr].
      unfold bind at 1.
      pose proof (flow_control_fuel fc "Missing FC mid-transfer" w2) as Hf.
      destruct (flow_control fc "Missing FC mid-transfer" w2) as [[[s b]|e] w3];
        [discriminate | raise_ne Hf]. }
    unfold bind at 1.
    destruct (st' <=? 127); unfold sleep_ms, ret; apply IH; lia.
Qed.

(** [_send] is total: the fuel given to its loop always suffices. *)
Lemma _send_fuel (p : list byte) (w : World) :
  fst (_send tp p w) <> Raise FuelExhausted.
Proof.
  unfold _send.
  destruct (Nat.leb_spec (length p) 7) as [|Hlen]; [discriminate|].
  unfold bind at 1. unfold bus_send at 1.
  set (w1 := mkWorld _ _ _ _).
  unfold bind at 1.
  pose proof (_recv_fuel true w1) as Hr.
  destruct (_recv tp true w1) as [[fc|e] w2]; [|raise_ne Hr].
  unfold bind at 1.
  pose proof (flow_control_fuel fc "No FlowControl" w2) as Hf.
  destruct (flow_control fc "No FlowControl" w2) as [[[s b]|e] w3];
    [|raise_ne Hf].
  pose proof (send_loop_fuel p (cf_count p) 0 (length p) 0 s b w3) as H.
  rewrite Nat.min_l in H by lia.
  apply H; try lia. apply cf_count_le.
Qed.

Lemma request_fuel (p : list byte) (e : bool) (w : World) :
  fst (request tp p e w) <> Raise FuelExhausted.
Proof.
  unfold request, bind.
  pose proof (_send_fuel p w) as Hs.
  destruct (_send tp p w) as [[[]|x] w1]; [|raise_ne Hs].
  destruct e; [apply _recv_fuel | discriminate].
Qed.
End TransportFuel.

(** ** Shape of the frames *)

Lemma ff_bytes (n : nat) :
  (n <= 4095)%nat ->
  let total := Z.of_nat n in
  b2z (z2b (Z.lor 0x10 (Z.land (Z.shiftr total 8) 0x0F))) = 0x10 + total / 256
  /\ b2z (z2b (Z.land total 0xFF)) = total mod 256.
Proof.
  intros Hn.
  assert (T : forallb ff_bytes_ok (seq 0 4096) = true) by (vm_compute; reflexivity).
  rewrite forallb_forall in T. specialize (T n).
  assert (Hin : In n (seq 0 4096)) by (apply in_seq; lia).
  apply T in Hin. unfold ff_bytes_ok in Hin.
  apply andb_prop in Hin as [H1 H2].
  apply Z.eqb_eq in H1, H2. split; assumption.
Qed.

Lemma cf_byte (k : nat) :
  b2z (z2b (Z.lor 0x20 ((Z.of_nat k + 1) mod 16)))
  = 0x20 + (Z.of_nat k + 1) mod 16.
Proof.
  assert (T : forallb cf_byte_ok (seq 0 16) = true) by reflexivity.
  rewrite forallb_forall in T.
  pose proof (Z.mod_pos_bound (Z.of_nat k + 1) 16 ltac:(lia)) as Hb.
  specialize (T (Z.to_nat ((Z.of_nat k + 1) mod 16))).
  assert (Hin : In (Z.to_nat ((Z.of_nat k + 1) mod 16)) (seq 0 16))
    by (apply in_seq; lia).
  apply T in Hin. unfold cf_byte_ok in Hin. apply Z.eqb_eq in Hin.
  rewrite Z2Nat.id in Hin by lia. exact Hin.
Qed.

Lemma length_zeros (n : nat) : length (zeros n) = n.
Proof. apply length_replicate. Qed.

Lemma cf_count_ceiling (p : list byte) :
  (6 <= length p)%nat ->
  7 * (Z.of_nat (cf_count p) - 1) < Z.of_nat (length p) - 6
  <= 7 * Z.of_nat (cf_count p).
Proof.
  intros Hp. unfold cf_count.
  pose proof (Nat.div_mod_eq (length p - 6 + 6) 7).
  pose proof (Nat.mod_upper_bound (length p - 6 + 6) 7). lia.
Qed.

(** C4. ISO-TP frame count.  A payload of at most 7 bytes is sent as exactly
    one frame, a Single frame holding the length, the payload and 0x00
    padding up to 8 bytes.  A payload of 8 to 4095 bytes is sent as one
    First frame, carrying the 12-bit length and the first 6 bytes, followed
    by ceil((|P|-6)/7) Consecutive frames whose sequence numbers start at 1
    and wrap modulo 16; this holds for every send that completes, and the
    send completes when the peer answers the First frame with a FlowControl
    frame of block size 0. *)
Theorem _send_frame_count (tp : IsoTp) (p : list byte) :
  ((length p <= 7)%nat ->
   forall w : World, exists f : Frame,
     _send tp p w
       = (Ok tt, mkWorld (rx_queue w) (tx_log w ++ [f]) (slept w) (files w))
     /\ arbitration_id f = tx_id tp
     /\ data f = z2b (Z.of_nat (length p)) :: p ++ zeros (7 - length p)
     /\ length (data f) = 8%nat)
  /\
  ((7 < length p <= 4095)%nat ->
   exists (ff : Frame) (cfs : list Frame),
     (forall w w' : World,
        _send tp p w = (Ok tt, w') -> tx_log w' = tx_log w ++ ff :: cfs)
     /\ (forall (w : World) (f0 st : byte) (rest : list byte)
                (q : list (option Frame)),
           Z.shiftr (b2z f0) 4 = 3 ->
           rx_queue w
             = Some (mkFrame (rx_id tp) (f0 :: Byte.x00 :: st :: rest)) :: q ->
           exists w', _send tp p w = (Ok tt, w') /\ rx_queue w' = q)
     /\ (exists b0 b1 : byte,
           data ff = [b0; b1] ++ take 6 p
           /\ b2z b0 = 0x10 + Z.of_nat (length p) / 256
           /\ b2z b1 = Z.of_nat (length p) mod 256)
     /\ 7 * (Z.of_nat (length cfs) - 1) < Z.of_nat (length p) - 6
        <= 7 * Z.of_nat (length cfs)
     /\ (forall (k : nat) (cf : Frame),
           cfs !! k = Some cf ->
           exists (c : byte),
             data cf = c :: slice p (6 + 7 * k) (6 + 7 * k + 7)
                         ++ zeros (7 - length (slice p (6 + 7 * k) (6 + 7 * k + 7)))
             /\ b2z c = 0x20 + (Z.of_nat k + 1) mod 16
             /\ length (data cf) = 8%nat
             /\ arbitration_id cf = tx_id tp)).
Proof.
  split.
  - intros Hp w. exists (single_frame tp p).
    split; [apply _send_single, Hp|].
    split; [reflexivity|]. split; [reflexivity|].
    unfold single_frame. cbn [data app length].
    rewrite length_app, length_zeros. lia.
  - intros [Hlo Hhi].
    exists (first_frame tp p), (consecutive_frames tp p 0 (cf_count p)).
    split; [|split; [|split; [|split]]].
    + intros w w' Hrun. apply _send_frames in Hrun.
      unfold segments in Hrun.
      destruct (Nat.leb_spec (length p) 7); [lia | exact Hrun].
    + intros w f0 st rest q Hf0 Hq. eexists. split.
      * eapply _send_multi; eassumption.
      * reflexivity.
    + destruct (ff_bytes (length p) Hhi) as [H1 H2].
      eexists _, _. unfold first_frame. cbn [data app].
      split; [|split; [exact H1 | exact H2]].
      unfold slice. rewrite drop_0. reflexivity.
    + unfold consecutive_frames. rewrite length_map, length_seq.
      apply cf_count_ceiling. lia.
    + intros k cf Hk. unfold consecutive_frames in Hk.
      rewrite list_lookup_fmap in Hk.
      destruct (seq 0 (cf_count p) !! k) as [k'|] eqn:Hs; [|discriminate].
      apply lookup_seq in Hs as [-> Hlt]. cbn in Hk. injection Hk as <-.
      eexists. unfold consecutive_frame. cbn [data arbitration_id app].
      split; [reflexivity|]. split; [apply cf_byte|]. split; [|reflexivity].
      cbn [length]. rewrite length_app, length_zeros, length_slice.
      pose proof (cf_count_ceiling p ltac:(lia)). lia.
Qed.

Lemma _send_frame_count_witness :
  let p1 := [Byte.x10; Byte.x85] in
  let p2 := replicate 20 Byte.xaa in
  let fc := mkFrame CAN_ID_RESP (Byte.x30 :: Byte.x00 :: Byte.x00 :: zeros 5) in
  let w := mkWorld [Some fc] [] [] [] in
  (length p1 <= 7)%nat /\ (7 < length p2 <= 4095)%nat
  /\ (exists f, _send flasher_tp p1 w = (Ok tt, mkWorld [Some fc] [f] [] [])
                /\ data f = [Byte.x02; Byte.x10; Byte.x85] ++ zeros 5)
  /\ (exists w', _send flasher_tp p2 w = (Ok tt, w')
                 /\ length (tx_log w') = 3%nat).
Proof.
  intros p1 p2 fc w.
  assert (H1 : (length p1 <= 7)%nat) by (cbn; lia).
  assert (H2 : (7 < length p2 <= 4095)%nat) by (cbn; lia).
  split; [exact H1|]. split; [exact H2|]. split.
  - destruct (proj1 (_send_frame_count flasher_tp p1) H1 w)
      as (f & Hrun & _ & Hdata & _).
    exists f. split; [exact Hrun | exact Hdata].
  - destruct (proj2 (_send_frame_count flasher_tp p2) H2)
      as (ff & cfs & Hframes & Hok & _ & Hcount & _).
    destruct (Hok w Byte.x30 Byte.x00 (zeros 5) [] eq_refl eq_refl)
      as (w' & Hrun & _).
    exists w'. split; [exact Hrun|].
    rewrite (Hframes w w' Hrun). unfold w. cbn [tx_log app length].
    change (Z.of_nat (length p2)) with 20 in Hcount. lia.
Defined.

(** ** Round trip *)

(** C1. ISO-TP round-trip identity: for every payload of 1 to 4095 bytes,
    segmenting it with [_send] and reassembling the frames so produced
    with the peer's [_recv] yields exactly the payload.  The sender reads
    one frame only, the FlowControl frame with which the receiver answers
    a First frame; the receiver emits exactly that frame, and both sides
    use up what they are given. *)
Theorem iso_tp_roundtrip_identity (a b : IsoTp) (p : list byte) :
  tx_id a = rx_id b -> tx_id b = rx_id a ->
  (1 <= length p <= 4095)%nat ->
  iso_tp_roundtrip a b p = Ok (Some p)
  /\ exists w1 w2 : World,
       _send a p (mkWorld [Some (flow_control_frame b)] [] [] []) = (Ok tt, w1)
       /\ _recv b false (mkWorld (map Some (tx_log w1)) [] [] [])
          = (Ok (Some p), w2)
       /\ rx_queue w2 = []
       /\ ((7 < length p)%nat ->
           rx_queue w1 = [] /\ tx_log w2 = [flow_control_frame b]).
Proof.
  intros Hab Hba [Hlo Hhi].
  set (w0 := mkWorld [Some (flow_control_frame b)] [] [] []).
  assert (H : exists w1 w2 : World,
             _send a p w0 = (Ok tt, w1)
             /\ _recv b false (mkWorld (map Some (tx_log w1)) [] [] [])
                = (Ok (Some p), w2)
             /\ rx_queue w2 = []
             /\ ((7 < length p)%nat ->
                 rx_queue w1 = [] /\ tx_log w2 = [flow_control_frame b])).
  { destruct (Nat.le_gt_cases (length p) 7) as [Hs|Hm].
    - eexists _, _. split; [apply _send_single, Hs|].
      cbn [tx_log rx_queue map app].
      split.
      { apply (_recv_single b a Hab p
                 (mkWorld [Some (single_frame a p)] [] [] []) [] Hs eq_refl). }
      split; [reflexivity | lia].
    - eexists _, _. split.
      + eapply (_send_multi a p w0 (z2b 0x30) (z2b 0) (zeros 5) []);
          [exact Hm | reflexivity |].
        unfold w0, flow_control_frame. cbn [rx_queue]. rewrite Hba. reflexivity.
      + cbn [tx_log rx_queue app].
        split.
        { apply (_recv_multi b a Hab p
                   (mkWorld (map Some (segments a p)) [] [] []) []
                   (conj Hm Hhi)).
          cbn [rx_queue]. rewrite app_nil_r. reflexivity. }
        split; [reflexivity | intros _; split; reflexivity]. }
  split; [|exact H].
  destruct H as (w1 & w2 & Hs & Hr & _).
  unfold iso_tp_roundtrip. fold w0. rewrite Hs, Hr. reflexivity.
Qed.

Lemma iso_tp_roundtrip_identity_witness :
  let tester := flasher_tp in
  let ecu := mkIsoTp CAN_ID_RESP CAN_ID_REQ in
  let p := replicate 20 Byte.xaa in
  tx_id tester = rx_id ecu /\ tx_id ecu = rx_id tester
  /\ (1 <= length p <= 4095)%nat
  /\ iso_tp_roundtrip tester ecu p = Ok (Some p).
Proof.
  intros tester ecu p.
  assert (H1 : tx_id tester = rx_id ecu) by reflexivity.
  assert (H2 : tx_id ecu = rx_id tester) by reflexivity.
  assert (H3 : (1 <= length p <= 4095)%nat) by (cbn; lia).
  split; [exact H1|]. split; [exact H2|]. split; [exact H3|].
  exact (proj1 (iso_tp_roundtrip_identity tester ecu p H1 H2 H3)).
Defined.

(** ** Frames on another identifier *)

Section WrongIdentifier.
Variable tp : IsoTp.

Lemma _recv_wrong_id (raw : bool) (w : World) (f : Frame)
    (q : list (option Frame)) :
  arbitration_id f <> rx_id tp ->
  rx_queue w = Some f :: q ->
  _recv tp raw w = (Ok None, mkWorld q (tx_log w) (slept w) (files w)).
Proof.
  intros Hid Hq. unfold _recv, bind, bus_recv. rewrite Hq.
  apply Z.eqb_neq in Hid. rewrite Hid. reflexivity.
Qed.

Lemma _recv_timeout (raw : bool) (w : World) (q : list (option Frame)) :
  rx_queue w = None :: q ->
  _recv tp raw w = (Ok None, mkWorld q (tx_log w) (slept w) (files w)).
Proof.
  intros Hq. unfold _recv, bind, bus_recv. rewrite Hq. reflexivity.
Qed.

Lemma recv_loop_wrong_id (f : Frame) (q2 : list (option Frame)) :
  arbitration_id f <> rx_id tp ->
  forall (q1 : list (option Frame)) (fuel : nat) (buf : list byte)
         (total : nat) (tx : list Frame) (sl : list Z)
         (fs : list (string * list byte)),
    let bad := recv_loop tp fuel buf total
                 (mkWorld (q1 ++ Some f :: q2) tx sl fs) in
    let quiet := recv_loop tp fuel buf total
                   (mkWorld (q1 ++ None :: q2) tx sl fs) in
    fst bad = fst quiet /\ tx_log (snd bad) = tx_log (snd quiet).
Proof.
  intros Hid. apply Z.eqb_neq in Hid.
  induction q1 as [|m q1 IH]; intros fuel buf total tx sl fs;
    destruct fuel as [|fuel]; cbn [recv_loop];
    destruct (length buf <? total)%nat; try (split; reflexivity).
  - unfold bind, bus_recv. cbn [rx_queue app]. rewrite Hid.
    split; reflexivity.
  - unfold bind, bus_recv. cbn [rx_queue app tx_log slept files].
    destruct m as [m|]; [|split; reflexivity].
    destruct (negb (arbitration_id m =? rx_id tp)); [split; reflexivity|].
    apply IH.
Qed.

Lemma _recv_same_as_timeout (f : Frame) (q2 : list (option Frame)) :
  arbitration_id f <> rx_id tp ->
  forall (raw : bool) (q1 : list (option Frame)) (tx : list Frame)
         (sl : list Z) (fs : list (string * list byte)),
  exists (r : result (option (list byte))) (wb wq : World),
    _recv tp raw (mkWorld (q1 ++ Some f :: q2) tx sl fs) = (r, wb)
    /\ _recv tp raw (mkWorld (q1 ++ None :: q2) tx sl fs) = (r, wq)
    /\ tx_log wb = tx_log wq.
Proof.
  intros Hid raw q1 tx sl fs. destruct q1 as [|m q1].
  - cbn [app].
    rewrite (_recv_wrong_id raw (mkWorld (Some f :: q2) tx sl fs)
               f q2 Hid eq_refl).
    rewrite (_recv_timeout raw (mkWorld (None :: q2) tx sl fs) q2 eq_refl).
    eexists _, _, _. repeat split.
  - cbn [app]. unfold _recv, bind, bus_recv, bus_send, pending, ret, raise.
    cbn [rx_queue tx_log slept files].
    destruct m as [m|]; [|eexists _, _, _; repeat split].
    destruct (negb (arbitration_id m =? rx_id tp));
      [eexists _, _, _; repeat split|].
    destruct raw; [eexists _, _, _; repeat split|].
    destruct (data m) as [|d0 d]; [eexists _, _, _; repeat split|].
    destruct (Z.land (b2z d0) 240 =? 0); [eexists _, _, _; repeat split|].
    destruct (Z.land (b2z d0) 240 =? 16); [|eexists _, _, _; repeat split].
    destruct ((d0 :: d) !! 1%nat); [|eexists _, _, _; repeat split].
    cbn [rx_queue tx_log slept files]. rewrite !length_app. cbn [length].
    match goal with
    | |- context [recv_loop tp ?n ?b ?t (mkWorld (q1 ++ Some f :: q2) ?x sl fs)] =>
        destruct (recv_loop_wrong_id f q2 Hid q1 n b t x sl fs) as [H1 H2];
        destruct (recv_loop tp n b t (mkWorld (q1 ++ Some f :: q2) x sl fs))
          as [[r|e] wb];
        destruct (recv_loop tp n b t (mkWorld (q1 ++ None :: q2) x sl fs))
          as [[r'|e'] wq]
    end; cbn in H1, H2; try discriminate H1; injection H1 as ->;
      eexists _, _, _; repeat split; exact H2.
Qed.
End WrongIdentifier.

(** C7 (as the code has it).  A received frame whose arbitration
    identifier differs from the expected one contributes no data, but it is
    not skipped: it ends the receive exactly as an expired timeout at the
    same place of the bus script would.  At the start of a receive the
    result is [None], with the frames behind it left unread; in the middle
    of a reassembly the receive fails with "Consecutive frame timeout". *)
Theorem _recv_wrong_id_is_timeout (tp : IsoTp) (raw : bool) (f : Frame)
    (q1 q2 : list (option Frame)) (tx : list Frame) (sl : list Z)
    (fs : list (string * list byte)) :
  arbitration_id f <> rx_id tp ->
  (let bad := _recv tp raw (mkWorld (q1 ++ Some f :: q2) tx sl fs) in
   let quiet := _recv tp raw (mkWorld (q1 ++ None :: q2) tx sl fs) in
   fst bad = fst quiet /\ tx_log (snd bad) = tx_log (snd quiet))
  /\ _recv tp raw (mkWorld (Some f :: q2) tx sl fs)
     = (Ok None, mkWorld q2 tx sl fs)
  /\ (forall (ff : Frame) (d0 d1 : byte) (rest : list byte),
        arbitration_id ff = rx_id tp ->
        data ff = d0 :: d1 :: rest ->
        Z.land (b2z d0) 0xF0 = 0x10 ->
        (length (take 6 rest)
         < Z.to_nat (Z.lor (Z.shiftl (Z.land (b2z d0) 0x0F) 8) (b2z d1)))%nat ->
        _recv tp false (mkWorld (Some ff :: Some f :: q2) tx sl fs)
        = (Raise (RuntimeError "Consecutive frame timeout"),
           mkWorld q2 (tx ++ [flow_control_frame tp]) sl fs)).
Proof.
  intros Hid. split; [|split].
  - destruct (_recv_same_as_timeout tp f q2 Hid raw q1 tx sl fs)
      as (r & wb & wq & Hb & Hq & Htx).
    cbv zeta. rewrite Hb, Hq. split; [reflexivity | exact Htx].
  - apply (_recv_wrong_id tp raw (mkWorld (Some f :: q2) tx sl fs)
             f q2 Hid eq_refl).
  - intros ff d0 d1 rest Hff Hd Hp Hlen.
    unfold _recv. unfold bind at 1. unfold bus_recv.
    cbn [rx_queue tx_log slept files]. rewrite Hff, Z.eqb_refl, Hd.
    cbn [negb]. rewrite Hp. change (16 =? 0) with false.
    change (16 =? 16) with true. cbn iota. cbn [lookup list_lookup].
    unfold bind at 1. unfold bus_send. unfold bind at 1. unfold pending.
    cbn [rx_queue tx_log slept files length]. unfold bind at 1.
    cbn [recv_loop].
    replace (slice (d0 :: d1 :: rest) 2 8) with (take 6 rest)
      by (unfold slice; reflexivity).
    apply Nat.ltb_lt in Hlen. rewrite Hlen.
    unfold bind, bus_recv. cbn [rx_queue tx_log slept files].
    apply Z.eqb_neq in Hid. rewrite Hid. reflexivity.
Qed.

Lemma _recv_wrong_id_is_timeout_witness :
  let bad := mkFrame 0x123 (Byte.x02 :: Byte.x50 :: Byte.x85 :: zeros 5) in
  let good := mkFrame CAN_ID_RESP (Byte.x02 :: Byte.x50 :: Byte.x85 :: zeros 5) in
  arbitration_id bad <> rx_id flasher_tp
  /\ _recv flasher_tp false (mkWorld [Some bad; Some good] [] [] [])
     = (Ok None, mkWorld [Some good] [] [] []).
Proof.
  intros bad good.
  assert (H : arbitration_id bad <> rx_id flasher_tp) by (vm_compute; discriminate).
  split; [exact H|].
  exact (proj1 (proj2 (_recv_wrong_id_is_timeout flasher_tp false bad []
                         [Some good] [] [] [] H))).
Defined.

(** C7 as stated does not hold: a frame on another identifier is not
    passed over while the client goes on waiting.  With the positive
    answer [50 85] waiting behind a frame on identifier 0x123, the receive
    returns nothing and leaves the answer unread; without the stray frame
    it returns [50 85]. *)
Lemma _recv_wrong_id_not_ignored :
  let bad := mkFrame 0x123 (Byte.x02 :: Byte.x50 :: Byte.x85 :: zeros 5) in
  let good := mkFrame CAN_ID_RESP (Byte.x02 :: Byte.x50 :: Byte.x85 :: zeros 5) in
  arbitration_id bad <> CAN_ID_RESP
  /\ _recv flasher_tp false (mkWorld [Some good] [] [] [])
     = (Ok (Some [Byte.x50; Byte.x85]), mkWorld [] [] [] [])
  /\ _recv flasher_tp false (mkWorld [Some bad; Some good] [] [] [])
     = (Ok None, mkWorld [Some good] [] [] [])
  /\ fst (_recv flasher_tp false (mkWorld [Some bad; Some good] [] [] []))
     <> fst (_recv flasher_tp false (mkWorld [Some good] [] [] [])).
Proof.
  cbv zeta. split; [vm_compute; discriminate|].
  split; [reflexivity|]. split; [reflexivity|].
  vm_compute. discriminate.
Qed.

(** ** KWP exchanges with a cooperative ECU *)

Lemma _kwp_exchange (sid : Z) `{Hsid : ByteRange sid}
    (payload rs : list byte) (w : World) (q : list (option Frame)) :
  let rq := z2b sid :: payload in
  (length rq <= 4095)%nat -> (1 <= length rs <= 4095)%nat ->
  rx_queue w = kwp_script rq rs ++ q ->
  _kwp sid payload w =
    (Ok rs, mkWorld q (tx_log w ++ kwp_sent rq rs)
              (slept w ++ kwp_slept rq) (files w)).
Proof.
  intros rq Hrq [Hlo Hhi] Hq.
  unfold _kwp. rewrite (Hsid : _ = true).
  unfold bind at 1. unfold request. unfold bind at 1.
  change ([z2b sid] ++ payload) with rq.
  unfold kwp_script, kwp_sent, kwp_slept in *.
  assert (Hrecv : forall w1 : World,
            rx_queue w1 = map Some (segments ecu_tp rs) ++ q ->
            _recv flasher_tp false w1 =
              (Ok (Some rs),
               mkWorld q
                 (tx_log w1 ++ (if (length rs <=? 7)%nat then []
                                else [flow_control_frame flasher_tp]))
                 (slept w1) (files w1))).
  { intros w1 H1. unfold segments in H1.
    destruct (Nat.leb_spec (length rs) 7) as [Hs|Hm].
    - rewrite (_recv_single flasher_tp ecu_tp eq_refl rs w1 q Hs H1).
      rewrite app_nil_r. reflexivity.
    - apply (_recv_multi flasher_tp ecu_tp eq_refl rs w1 q (conj Hm Hhi)).
      unfold segments. destruct (Nat.leb_spec (length rs) 7); [lia | exact H1]. }
  destruct (Nat.leb_spec (length rq) 7) as [Hs|Hm].
  - rewrite (_send_single flasher_tp rq w Hs).
    rewrite Hrecv by exact Hq. unfold ret. cbn [tx_log slept files].
    rewrite app_nil_r, <- app_assoc. unfold segments.
    destruct (Nat.leb_spec (length rq) 7); [reflexivity | lia].
  - cbn [app] in Hq.
    rewrite (_send_multi flasher_tp rq w Byte.x30 Byte.x00 (zeros 5) _ Hm
               eq_refl Hq).
    rewrite Hrecv by reflexivity. unfold ret. cbn [tx_log slept files].
    rewrite <- app_assoc. reflexivity.
Qed.

(** An unanswered or negatively answered request. *)
Lemma _kwp_fuel (sid : Z) (payload : list byte) (w : World) :
  fst (_kwp sid payload w) <> Raise FuelExhausted.
Proof.
  unfold _kwp. destruct ((0 <=? sid) && (sid <? 256)); [|discriminate].
  unfold bind.
  pose proof (request_fuel flasher_tp ([z2b sid] ++ payload) true w) as H.
  destruct (request _ _ _ w) as [[r|e] w1]; [discriminate | raise_ne H].
Qed.

Lemma int_from_bytes_big_2 (hi lo : byte) :
  int_from_bytes_big [hi; lo] = b2z hi * 256 + b2z lo.
Proof. reflexivity. Qed.

Lemma calc_key_msd80_mod (s : Z) :
  calc_key_msd80 s = (Z.lxor s 0x5A3C + 0x7F1B) mod 2 ^ 16.
Proof.
  unfold calc_key_msd80. change 0xFFFF with (Z.ones 16).
  apply Z.land_ones. lia.
Qed.

Lemma split_16 (k : Z) :
  0 <= k <= 0xFFFF ->
  b2z (z2b (Z.shiftr k 8)) = k / 256 /\ b2z (z2b (Z.land k 0xFF)) = k mod 256.
Proof.
  intros Hk.
  rewrite Z.shiftr_div_pow2 by lia. change (2 ^ 8) with 256.
  change 0xFF with (Z.ones 8). rewrite Z.land_ones by lia.
  change (2 ^ 8) with 256.
  pose proof (Z.mod_pos_bound k 256 ltac:(lia)).
  assert (0 <= k / 256 < 256)
    by (split; [apply Z.div_pos; lia | apply Z.div_lt_upper_bound; lia]).
  rewrite !b2z_z2b by lia. split; reflexivity.
Qed.

(** C2. Seed-to-key function: for every seed in [0, 0xFFFF] the key is
    ((seed XOR 0x5A3C) + 0x7F1B) mod 2^16, in particular 0xC723 for the seed
    0x1234; and [security_unlock], given the seed in the two seed bytes of
    the ECU's answer, sends the key as two bytes, high byte first, in its
    SecurityAccess sub-function 0x02 request. *)
Theorem security_unlock_key :
  (forall s : Z, 0 <= s <= 0xFFFF ->
     calc_key_msd80 s = (Z.lxor s 0x5A3C + 0x7F1B) mod 2 ^ 16)
  /\ calc_key_msd80 0x1234 = 0xC723
  /\ (forall (s : Z) (w : World) (q : list (option Frame)),
        0 <= s <= 0xFFFF ->
        let k := calc_key_msd80 s in
        let seed_answer :=
          [Byte.x67; Byte.x01; z2b (s / 256); z2b (s mod 256)] in
        let key_answer := [Byte.x67; Byte.x02] in
        rx_queue w = Some (single_frame ecu_tp seed_answer)
                     :: Some (single_frame ecu_tp key_answer) :: q ->
        exists hi lo : byte,
          security_unlock w =
            (Ok tt,
             mkWorld q
               (tx_log w
                ++ [mkFrame CAN_ID_REQ
                      ([Byte.x02; Byte.x27; Byte.x01] ++ zeros 5);
                    mkFrame CAN_ID_REQ
                      ([Byte.x04; Byte.x27; Byte.x02; hi; lo] ++ zeros 3)])
               (slept w) (files w))
          /\ b2z hi = k / 256 /\ b2z lo = k mod 256
          /\ b2z hi * 256 + b2z lo = k).
Proof.
  split; [intros s _; apply calc_key_msd80_mod|].
  split; [reflexivity|].
  intros s w q Hs k seed_answer key_answer Hq.
  assert (Hk : 0 <= k <= 0xFFFF).
  { unfold k. rewrite calc_key_msd80_mod.
    pose proof (Z.mod_pos_bound (Z.lxor s 0x5A3C + 0x7F1B) (2 ^ 16) ltac:(lia)).
    change (2 ^ 16) with 65536 in *. lia. }
  destruct (split_16 k Hk) as [Hhi Hlo].
  exists (z2b (Z.shiftr k 8)), (z2b (Z.land k 0xFF)).
  split; [|split; [exact Hhi | split; [exact Hlo|]]].
  2:{ rewrite Hhi, Hlo. pose proof (Z.div_mod k 256 ltac:(lia)). lia. }
  unfold security_unlock. unfold bind at 1.
  rewrite (_kwp_exchange SID_SECURITY_ACCESS [z2b 1] seed_answer w
             (Some (single_frame ecu_tp key_answer) :: q));
    [| cbn; lia | cbn; lia | exact Hq].
  cbn [rejected seed_answer]. change (b2z Byte.x67 =? pos SID_SECURITY_ACCESS) with true.
  cbn [negb]. unfold bind at 1.
  assert (Hseed : int_from_bytes_big (slice seed_answer 2 4) = s).
  { unfold seed_answer, slice. cbn [take drop].
    rewrite int_from_bytes_big_2.
    pose proof (Z.mod_pos_bound s 256 ltac:(lia)).
    assert (0 <= s / 256 < 256)
      by (split; [apply Z.div_pos; lia | apply Z.div_lt_upper_bound; lia]).
    rewrite !b2z_z2b by lia. pose proof (Z.div_mod s 256 ltac:(lia)). lia. }
  rewrite Hseed. fold k.
  rewrite (_kwp_exchange SID_SECURITY_ACCESS
             [z2b 2; z2b (Z.shiftr k 8); z2b (Z.land k 255)] key_answer _ q);
    [| cbn; lia | cbn; lia | reflexivity].
  cbn [rejected key_answer]. change (b2z Byte.x67 =? pos SID_SECURITY_ACCESS) with true.
  cbn [negb]. unfold ret. cbn [tx_log slept files].
  rewrite !app_nil_r, <- app_assoc. reflexivity.
Qed.

Lemma security_unlock_key_witness :
  let w := mkWorld
             [Some (mkFrame CAN_ID_RESP
                      ([Byte.x04; Byte.x67; Byte.x01; Byte.x12; Byte.x34]
                       ++ zeros 3));
              Some (mkFrame CAN_ID_RESP
                      ([Byte.x02; Byte.x67; Byte.x02] ++ zeros 5))]
             [] [] [] in
  0 <= 0x1234 <= 0xFFFF
  /\ calc_key_msd80 0x1234 = 0xC723
  /\ security_unlock w =
       (Ok tt,
        mkWorld []
          [mkFrame CAN_ID_REQ ([Byte.x02; Byte.x27; Byte.x01] ++ zeros 5);
           mkFrame CAN_ID_REQ
             ([Byte.x04; Byte.x27; Byte.x02; Byte.xc7; Byte.x23] ++ zeros 3)]
          [] []).
Proof.
  intros w.
  assert (Hs : 0 <= 0x1234 <= 0xFFFF) by lia.
  split; [exact Hs|].
  destruct security_unlock_key as (_ & Hk & Hrun).
  split; [exact Hk|].
  destruct (Hrun 0x1234 w [] Hs eq_refl) as (hi & lo & Hu & Hhi & Hlo & _).
  rewrite Hu. rewrite <- (z2b_b2z hi), <- (z2b_b2z lo), Hhi, Hlo.
  reflexivity.
Defined.

(** ** Reading memory from a cooperative ECU *)

Lemma to_bytes_big_4 (z : Z) :
  0 <= z < 2 ^ 32 -> to_bytes_big 4 z = Some (be4 z) /\ length (be4 z) = 4%nat.
Proof.
  intros Hz. unfold be4, to_bytes_big.
  destruct (Z.leb_spec 0 z); [|lia].
  change (256 ^ Z.of_nat 4) with (2 ^ 32).
  destruct (Z.ltb_spec z (2 ^ 32)); [|lia].
  split; reflexivity.
Qed.

Lemma slice_lookup {A} (l : list A) (a b k : nat) :
  (a + k < b)%nat -> slice l a b !! k = l !! (a + k)%nat.
Proof.
  intros H. unfold slice. rewrite lookup_drop, lookup_take_lt by lia.
  reflexivity.
Qed.

Lemma read_block_exchange (mem : list byte) (addr len : Z) (w : World)
    (q : list (option Frame)) :
  0 <= addr < 2 ^ 32 -> 0 < len <= 4094 ->
  rx_queue w
    = kwp_script (read_request addr len) (read_answer mem addr len) ++ q ->
  exists w',
    read_block addr len w
      = (Ok (slice mem (Z.to_nat addr) (Z.to_nat (addr + len))), w')
    /\ rx_queue w' = q /\ files w' = files w.
Proof.
  intros Ha Hl Hq. unfold read_block.
  destruct (Z.leb_spec len 0); [lia|].
  destruct (Z.ltb_spec 0xFFFF len); [lia|]. cbn [orb].
  destruct (to_bytes_big_4 addr Ha) as [Ea La].
  destruct (to_bytes_big_4 len ltac:(lia)) as [El Ll].
  rewrite Ea, El. unfold bind.
  rewrite (_kwp_exchange SID_READ_MEMORY_BY_ADDR
             ([z2b 0x24] ++ be4 addr ++ [z2b 0x24] ++ be4 len)
             (read_answer mem addr len) w q).
  - unfold read_answer. cbn [rejected].
    change (b2z (z2b (pos SID_READ_MEMORY_BY_ADDR)) =? pos SID_READ_MEMORY_BY_ADDR)
      with true.
    cbn [negb drop]. rewrite drop_0. eexists. split; [reflexivity|].
    split; reflexivity.
  - cbn [length app]. rewrite length_app. cbn [length app].
    rewrite La, Ll. lia.
  - unfold read_answer. cbn [length]. rewrite length_slice. lia.
  - exact Hq.
Qed.

(** [read_block] on any answer of the ECU: a refusal is an error, a
    positive answer is handed back without its first byte. *)
Lemma read_block_run (addr len : Z) (rs : list byte) (w : World)
    (q : list (option Frame)) :
  0 <= addr < 2 ^ 32 -> 0 < len <= 0xFFFF -> (1 <= length rs <= 4095)%nat ->
  rx_queue w = kwp_script (read_request addr len) rs ++ q ->
  read_block addr len w
  = ((if rejected rs SID_READ_MEMORY_BY_ADDR
      then Raise (RuntimeError "ReadMemoryByAddress failed")
      else Ok (drop 1 rs)),
     mkWorld q (tx_log w ++ kwp_sent (read_request addr len) rs)
       (slept w ++ kwp_slept (read_request addr len)) (files w)).
Proof.
  intros Ha Hl Hrs Hq. unfold read_block.
  destruct (Z.leb_spec len 0); [lia|].
  destruct (Z.ltb_spec 0xFFFF len); [lia|]. cbn [orb].
  destruct (to_bytes_big_4 addr Ha) as [Ea La].
  destruct (to_bytes_big_4 len ltac:(lia)) as [El Ll].
  rewrite Ea, El. unfold bind.
  rewrite (_kwp_exchange SID_READ_MEMORY_BY_ADDR
             ([z2b 0x24] ++ be4 addr ++ [z2b 0x24] ++ be4 len) rs w q);
    [ | cbn [length app]; rewrite length_app; cbn [length app];
        rewrite La, Ll; lia
      | exact Hrs | exact Hq ].
  destruct (rejected rs SID_READ_MEMORY_BY_ADDR); reflexivity.
Qed.

Section VerifyLoop.
Variables (image mem : list byte) (chunk : Z).
Hypothesis chunk_range : 0 < chunk <= 4094.
Hypothesis same_length : length mem = length image.
Hypothesis image_size : Z.of_nat (length image) < 2 ^ 32.

Local Abbreviation addr_of := (stride_addr chunk).
Local Abbreviation agrees := (stride_agrees image mem chunk).
Local Abbreviation body := (verify_body image chunk).

Lemma stride_step (k : nat) (w : World) (q : list (option Frame)) :
  addr_of k < Z.of_nat (length image) ->
  rx_queue w
    = kwp_script
        (read_request (addr_of k)
           (Z.min chunk (Z.of_nat (length image) - addr_of k)))
        (read_answer mem (addr_of k)
           (Z.min chunk (Z.of_nat (length image) - addr_of k))) ++ q ->
  exists w' d,
    read_block (addr_of k)
      (Z.min chunk (Z.of_nat (length image) - addr_of k)) w = (Ok d, w')
    /\ rx_queue w' = q /\ files w' = files w
    /\ d = slice mem (Z.to_nat (addr_of k))
             (Z.to_nat (addr_of k) + length d)
    /\ (d = slice image (Z.to_nat (addr_of k))
              (Z.to_nat (addr_of k) + length d)
        <-> agrees k).
Proof.
  intros Hlt Hq. unfold stride_addr in *.
  set (addr := Z.of_nat k * chunk) in *.
  set (len := Z.min chunk (Z.of_nat (length image) - addr)) in *.
  assert (Ha : 0 <= addr) by (unfold addr; lia).
  destruct (read_block_exchange mem addr len w q) as (w' & Hrun & Hq' & Hf);
    [lia | lia | exact Hq |].
  exists w', (slice mem (Z.to_nat addr) (Z.to_nat (addr + len))).
  split; [exact Hrun|]. split; [exact Hq'|]. split; [exact Hf|].
  assert (Hlen : length (slice mem (Z.to_nat addr) (Z.to_nat (addr + len)))
                 = Z.to_nat len).
  { rewrite length_slice. lia. }
  rewrite Hlen.
  replace (Z.to_nat addr + Z.to_nat len)%nat with (Z.to_nat (addr + len)) by lia.
  split; [reflexivity|].
  assert (Hnext : (Z.to_nat (addr + len)
                   = Nat.min (Z.to_nat (Z.of_nat (S k) * chunk)) (length image))).
  { unfold len, addr. lia. }
  unfold stride_agrees, stride_addr. fold addr.
  split.
  - intros E j Hj.
    destruct (Nat.lt_ge_cases j (length image)) as [Hin|Hout].
    + pose proof (slice_lookup mem (Z.to_nat addr) (Z.to_nat (addr + len))
                    (j - Z.to_nat addr)) as H1.
      pose proof (slice_lookup image (Z.to_nat addr) (Z.to_nat (addr + len))
                    (j - Z.to_nat addr)) as H2.
      replace (Z.to_nat addr + (j - Z.to_nat addr))%nat with j in H1, H2 by lia.
      rewrite <- H1, <- H2 by lia. rewrite E. reflexivity.
    + rewrite !lookup_ge_None_2 by lia. reflexivity.
  - intros Hag. apply list_eq. intros j.
    destruct (Nat.lt_ge_cases j (Z.to_nat len)) as [Hin|Hout].
    + rewrite !slice_lookup by lia. apply Hag. lia.
    + rewrite !lookup_ge_None_2; [reflexivity | |]; rewrite length_slice; lia.
Qed.

(** Strides that agree are passed over; the first one that does not ends
    the loop with its start address. *)
Lemma verify_loop_agree :
  forall (m s : nat) (w : World) (q : list (option Frame)),
    (forall k, (s <= k < s + m)%nat ->
               addr_of k < Z.of_nat (length image) /\ agrees k) ->
    rx_queue w
      = memory_script mem (Z.of_nat (length image)) chunk
          (map addr_of (seq s m)) ++ q ->
    exists w', for_each (map addr_of (seq s m)) body w = (Ok tt, w')
               /\ rx_queue w' = q /\ files w' = files w.
Proof.
  induction m as [|m IH]; intros s w q Hall Hq.
  - cbn in *. exists w. repeat split. exact Hq.
  - cbn [seq map for_each]. cbn [seq map memory_script flat_map] in Hq.
    rewrite <- app_assoc in Hq.
    destruct (Hall s ltac:(lia)) as [Hlt Hag].
    edestruct (stride_step s w) as (w1 & d & Hrun & Hq1 & Hf1 & _ & Hiff);
      [exact Hlt | exact Hq |].
    unfold bind at 1. unfold verify_body at 1. unfold bind at 1.
    rewrite Hrun. apply Hiff in Hag.
    rewrite bool_decide_eq_true_2 by exact Hag. cbn [negb]. unfold ret at 1.
    destruct (IH (S s) w1 q) as (w' & Hrun' & Hq' & Hf').
    + intros k Hk. apply Hall. lia.
    + exact Hq1.
    + exists w'. split; [exact Hrun'|]. split; [exact Hq'|]. congruence.
Qed.

Lemma verify_loop_mismatch :
  forall (m s j : nat) (w : World) (q : list (option Frame)),
    (s <= j < s + m)%nat ->
    (forall k, (s <= k <= j)%nat -> addr_of k < Z.of_nat (length image)) ->
    (forall k, (s <= k < j)%nat -> agrees k) ->
    ~ agrees j ->
    rx_queue w
      = memory_script mem (Z.of_nat (length image)) chunk
          (map addr_of (seq s m)) ++ q ->
    exists w',
      for_each (map addr_of (seq s m)) body w
      = (Raise (RuntimeError
                  ("Verification mismatch at 0x" ++ hex06X (addr_of j))),
         w').
Proof.
  induction m as [|m IH]; intros s j w q Hj Hlt Hag Hbad Hq; [lia|].
  cbn [seq map for_each]. cbn [seq map memory_script flat_map] in Hq.
  rewrite <- app_assoc in Hq.
  edestruct (stride_step s w) as (w1 & d & Hrun & Hq1 & Hf1 & _ & Hiff);
    [apply Hlt; lia | exact Hq |].
  unfold bind at 1. unfold verify_body at 1. unfold bind at 1.
  rewrite Hrun.
  destruct (Nat.eq_dec s j) as [->|Hne].
  - rewrite bool_decide_eq_false_2 by (rewrite Hiff; exact Hbad).
    cbn [negb]. unfold raise. eexists. reflexivity.
  - rewrite bool_decide_eq_true_2 by (apply Hiff, Hag; lia).
    cbn [negb]. unfold ret at 1.
    apply (IH (S s) j w1 q); try assumption; try lia.
    + intros k Hk. apply Hlt. lia.
    + intros k Hk. apply Hag. lia.
Qed.
End VerifyLoop.

Lemma range0_strides (n chunk : Z) :
  0 < chunk -> 0 <= n ->
  range0 n chunk
  = Some (map (stride_addr chunk) (seq 0 (Z.to_nat ((n + chunk - 1) / chunk)))).
Proof.
  intros Hc Hn. unfold range0.
  destruct (Z.eqb_spec chunk 0); [lia|].
  destruct (Z.ltb_spec chunk 0); [lia|]. cbn [orb].
  destruct (Z.leb_spec n 0); [|reflexivity].
  replace n with 0 by lia. rewrite Z.div_small by lia. reflexivity.
Qed.

Lemma stride_count (n chunk : Z) (k : nat) :
  0 < chunk -> 0 <= n ->
  (k < Z.to_nat ((n + chunk - 1) / chunk))%nat <-> Z.of_nat k * chunk < n.
Proof.
  intros Hc Hn.
  pose proof (Z.div_mod (n + chunk - 1) chunk ltac:(lia)) as E.
  pose proof (Z.mod_pos_bound (n + chunk - 1) chunk Hc) as B.
  assert (0 <= (n + chunk - 1) / chunk) by (apply Z.div_pos; lia).
  split; intros H1; nia.
Qed.

(** A cooperative ECU whose memory equals the image: [verify] succeeds. *)
Lemma verify_same (image : list byte) (chunk : Z) (w : World)
    (q : list (option Frame)) :
  0 < chunk <= 4094 -> Z.of_nat (length image) < 2 ^ 32 ->
  rx_queue w = verify_script image chunk ++ q ->
  exists w', verify image chunk w = (Ok tt, w') /\ rx_queue w' = q.
Proof.
  intros Hc Hn Hq. unfold verify, verify_script in *.
  rewrite range0_strides in * by lia.
  edestruct (verify_loop_agree image image chunk Hc eq_refl Hn)
    as (w' & Hrun & Hq' & _); [ | exact Hq | ].
  - intros k Hk. split.
    + apply stride_count; [lia | lia | lia].
    + intros j _. reflexivity.
  - exists w'. split; assumption.
Qed.

(** A cooperative ECU whose memory first departs from the image in stride
    [j]: [verify] fails with the start address of that stride. *)
Lemma verify_first_mismatch (image mem : list byte) (chunk : Z) (j : nat)
    (w : World) (q : list (option Frame)) :
  0 < chunk <= 4094 -> length mem = length image ->
  Z.of_nat (length image) < 2 ^ 32 ->
  stride_addr chunk j < Z.of_nat (length image) ->
  (forall k, (k < j)%nat -> stride_agrees image mem chunk k) ->
  ~ stride_agrees image mem chunk j ->
  rx_queue w = verify_script mem chunk ++ q ->
  exists w',
    verify image chunk w
    = (Raise (RuntimeError
                ("Verification mismatch at 0x" ++ hex06X (stride_addr chunk j))),
       w').
Proof.
  intros Hc Hlen Hn Hj Hag Hbad Hq. unfold verify, verify_script in *.
  rewrite Hlen in Hq. rewrite range0_strides in * by lia.
  eapply (verify_loop_mismatch image mem chunk Hc Hlen Hn) with (j := j);
    [ | | | exact Hbad | exact Hq ].
  - split; [lia|]. apply stride_count; [lia | lia | exact Hj].
  - intros k Hk. unfold stride_addr in *. nia.
  - intros k Hk. apply Hag. lia.
Qed.

(** The same for a memory that differs from the image in one byte. *)
Lemma verify_flipped_byte (image : list byte) (i : nat) (b0 b : byte)
    (chunk : Z) (w : World) (q : list (option Frame)) :
  0 < chunk <= 4094 -> Z.of_nat (length image) < 2 ^ 32 ->
  image !! i = Some b0 -> b <> b0 ->
  rx_queue w = verify_script (<[i := b]> image) chunk ++ q ->
  exists w',
    verify image chunk w
    = (Raise (RuntimeError
                ("Verification mismatch at 0x"
                 ++ hex06X (chunk * (Z.of_nat i / chunk)))),
       w').
Proof.
  intros Hc Hn Hi Hb Hq.
  pose proof (lookup_lt_Some _ _ _ Hi) as Hlt.
  pose proof (Z.div_mod (Z.of_nat i) chunk ltac:(lia)) as E.
  pose proof (Z.mod_pos_bound (Z.of_nat i) chunk ltac:(lia)) as B.
  assert (0 <= Z.of_nat i / chunk) by (apply Z.div_pos; lia).
  set (j := Z.to_nat (Z.of_nat i / chunk)).
  assert (Hj : stride_addr chunk j = chunk * (Z.of_nat i / chunk))
    by (unfold stride_addr, j; lia).
  rewrite <- Hj.
  apply (verify_first_mismatch image (<[i := b]> image) chunk j w q);
    try assumption.
  - apply length_insert.
  - lia.
  - intros k Hk jj Hjj. apply list_lookup_insert_ne.
    unfold stride_addr in *. nia.
  - intros Hag. specialize (Hag i).
    rewrite list_lookup_insert_eq in Hag by exact Hlt. rewrite Hi in Hag.
    assert (Some b = Some b0) as Heq; [|congruence].
    apply Hag. unfold stride_addr in *. nia.
Qed.

(** C6 (as the code has it).  [verify] reads the flash back in strides
    ([chunk] bytes, 0x0400 by default) and compares each stride with the
    image: against an ECU whose memory equals the image it succeeds, and
    against one whose memory differs in a single byte at index [i] it fails
    with "Verification mismatch at 0x..." carrying the start address of the
    stride that holds the byte, [chunk * (i / chunk)], not the address [i]
    of the byte. *)
Theorem verify_reports_stride_start (image : list byte) (i : nat)
    (b0 b : byte) (chunk : Z) (q : list (option Frame)) (tx : list Frame)
    (sl : list Z) (fs : list (string * list byte)) :
  0 < chunk <= 4094 -> Z.of_nat (length image) < 2 ^ 32 ->
  image !! i = Some b0 -> b <> b0 ->
  (exists w',
     verify image chunk (mkWorld (verify_script image chunk ++ q) tx sl fs)
     = (Ok tt, w')
     /\ rx_queue w' = q)
  /\ (exists w',
        verify image chunk
          (mkWorld (verify_script (<[i := b]> image) chunk ++ q) tx sl fs)
        = (Raise (RuntimeError
                    ("Verification mismatch at 0x"
                     ++ hex06X (chunk * (Z.of_nat i / chunk)))),
           w')).
Proof.
  intros Hc Hn Hi Hb. split.
  - apply verify_same; [exact Hc | exact Hn | reflexivity].
  - apply (verify_flipped_byte image i b0 b chunk _ q Hc Hn Hi Hb).
    reflexivity.
Qed.

Lemma verify_reports_stride_start_witness :
  let image := replicate (Z.to_nat FLASH_SIZE) Byte.x00 in
  let i := Z.to_nat 0x12345 in
  0 < 0x0400 <= 4094 /\ Z.of_nat (length image) < 2 ^ 32
  /\ image !! i = Some Byte.x00 /\ Byte.xff <> Byte.x00
  /\ exists w',
       verify image 0x0400
         (mkWorld (verify_script (<[i := Byte.xff]> image) 0x0400 ++ [])
            [] [] [])
       = (Raise (RuntimeError "Verification mismatch at 0x012000"), w').
Proof.
  intros image i.
  assert (H1 : 0 < 0x0400 <= 4094) by lia.
  assert (H2 : Z.of_nat (length image) < 2 ^ 32) by (vm_compute; reflexivity).
  assert (H3 : image !! i = Some Byte.x00) by (vm_compute; reflexivity).
  assert (H4 : Byte.xff <> Byte.x00) by discriminate.
  split; [exact H1|]. split; [exact H2|]. split; [exact H3|].
  split; [exact H4|].
  destruct (proj2 (verify_reports_stride_start image i Byte.x00 Byte.xff
                     0x0400 [] [] [] [] H1 H2 H3 H4)) as [w' Hrun].
  exists w'. exact Hrun.
Defined.

(** C6 as stated does not hold: with a 1 MiB image and an ECU whose
    memory differs from it in the single byte at 0x12345, [verify] fails
    with the address 0x012000 of the stride, not with 0x012345. *)
Lemma verify_mismatch_not_byte_address :
  let image := replicate (Z.to_nat FLASH_SIZE) Byte.x00 in
  let flash := <[Z.to_nat 0x12345 := Byte.xff]> image in
  exists w',
    verify image 0x0400 (mkWorld (verify_script flash 0x0400) [] [] [])
    = (Raise (RuntimeError "Verification mismatch at 0x012000"), w')
    /\ RuntimeError "Verification mismatch at 0x012000"
       <> RuntimeError ("Verification mismatch at 0x" ++ hex06X 0x12345).
Proof.
  intros image flash.
  destruct (verify_flipped_byte image (Z.to_nat 0x12345) Byte.x00 Byte.xff
              0x0400 (mkWorld (verify_script flash 0x0400) [] [] []) [])
    as [w' Hrun].
  - lia.
  - vm_compute. reflexivity.
  - vm_compute. reflexivity.
  - discriminate.
  - cbn [rx_queue]. rewrite app_nil_r. reflexivity.
  - exists w'. split; [exact Hrun|]. vm_compute. discriminate.
Qed.

(** ** Transmitted frames are never taken back *)

Create HintDb appends.

Lemma appends_ret {A} (a : A) : appends (ret a).
Proof. intros w. reflexivity. Qed.

Lemma appends_raise {A} (e : exn) : appends (@raise World A e).
Proof. intros w. reflexivity. Qed.

Lemma appends_bind {A B} (c : M A) (k : A -> M B) :
  appends c -> (forall a, appends (k a)) -> appends (bind c k).
Proof.
  intros Hc Hk w. unfold bind. specialize (Hc w).
  destruct (c w) as [[a|e] w1]; cbn [snd] in *; [|exact Hc].
  etransitivity; [exact Hc | apply Hk].
Qed.

Lemma appends_bus_send (f : Frame) : appends (bus_send f).
Proof. intros w. cbn. apply prefix_app_r. reflexivity. Qed.

Lemma appends_bus_recv : appends bus_recv.
Proof. intros w. unfold bus_recv. destruct (rx_queue w); reflexivity. Qed.

Lemma appends_sleep_ms (ms : Z) : appends (sleep_ms ms).
Proof. intros w. reflexivity. Qed.

Lemma appends_pending : appends pending.
Proof. intros w. reflexivity. Qed.

Lemma appends_open_wb (path : string) : appends (open_wb path).
Proof. intros w. reflexivity. Qed.

Lemma appends_handle_write (path : string) (d : list byte) :
  appends (handle_write path d).
Proof. intros w. reflexivity. Qed.

#[local] Hint Resolve appends_ret appends_raise appends_bus_send
  appends_bus_recv appends_sleep_ms appends_pending appends_open_wb
  appends_handle_write : appends.

(** Break a computation down along its binds and case distinctions. *)
Ltac appends_step :=
  match goal with
  | |- appends (bind _ _) => apply appends_bind; [|intros ?]
  | |- appends (match ?x with _ => _ end) => destruct x
  | |- appends (let '(_, _) := ?x in _) => destruct x
  | |- appends _ => solve [auto with appends]
  end.

Ltac appends_tac := repeat appends_step.

Lemma appends_recv_loop (tp : IsoTp) (fuel : nat) :
  forall (buf : list byte) (total : nat), appends (recv_loop tp fuel buf total).
Proof.
  induction fuel as [|fuel IH]; intros buf total; cbn [recv_loop];
    appends_tac.
Qed.

Lemma appends__recv (tp : IsoTp) (raw : bool) : appends (_recv tp raw).
Proof.
  unfold _recv. pose proof (appends_recv_loop tp). appends_tac.
Qed.

Lemma appends_flow_control (fc : option (list byte)) (msg : string) :
  appends (flow_control fc msg).
Proof. unfold flow_control. appends_tac. Qed.

#[local] Hint Resolve appends_recv_loop appends__recv appends_flow_control
  : appends.

Lemma appends_send_loop (tp : IsoTp) (p : list byte) (fuel : nat) :
  forall (ptr : nat) (sn bs_cnt st bs : Z),
    appends (send_loop tp fuel p ptr sn bs_cnt st bs).
Proof.
  induction fuel as [|fuel IH]; intros ptr sn bs_cnt st bs; cbn [send_loop];
    appends_tac.
Qed.

Lemma appends__send (tp : IsoTp) (p : list byte) : appends (_send tp p).
Proof.
  unfold _send. pose proof (appends_send_loop tp p). appends_tac.
Qed.

#[local] Hint Resolve appends_send_loop appends__send : appends.

Lemma appends_request (tp : IsoTp) (p : list byte) (e : bool) :
  appends (request tp p e).
Proof. unfold request. appends_tac. Qed.

#[local] Hint Resolve appends_request : appends.

Lemma appends__kwp (sid : Z) (p : list byte) : appends (_kwp sid p).
Proof.
  unfold _kwp. destruct ((0 <=? sid) && (sid <? 256)); appends_tac.
Qed.

#[local] Hint Resolve appends__kwp : appends.

Lemma appends_read_block (addr len : Z) : appends (read_block addr len).
Proof. unfold read_block. appends_tac. Qed.

#[local] Hint Resolve appends_read_block : appends.

Lemma appends_for_each {A} (xs : list A) (body : A -> M unit) :
  (forall x, appends (body x)) -> appends (for_each xs body).
Proof.
  intros Hb. induction xs as [|x xs IH]; cbn [for_each]; appends_tac.
Qed.

Lemma sends_first_send {A} (f : Frame) (k : M A) :
  appends k -> sends_first f (bus_send f ;;; k).
Proof. intros Hk w. unfold bind, bus_send. apply (Hk (mkWorld _ _ _ _)). Qed.

Lemma sends_first_bind {A B} (f : Frame) (c : M A) (k : A -> M B) :
  sends_first f c -> (forall a, appends (k a)) -> sends_first f (bind c k).
Proof.
  intros Hc Hk w. unfold bind. specialize (Hc w).
  destruct (c w) as [[a|e] w1]; cbn [snd] in *; [|exact Hc].
  etransitivity; [exact Hc | apply Hk].
Qed.

Lemma sends_first__send (p : list byte) :
  (7 < length p)%nat ->
  sends_first (first_frame flasher_tp p) (_send flasher_tp p).
Proof.
  intros Hp. unfold _send.
  destruct (Nat.leb_spec (length p) 7); [lia|].
  apply sends_first_send. appends_tac.
Qed.

Lemma sends_first_read_block (addr len : Z) :
  0 <= addr < 2 ^ 32 -> 0 < len <= 0xFFFF ->
  sends_first (first_frame flasher_tp (read_request addr len))
    (read_block addr len).
Proof.
  intros Ha Hl. unfold read_block.
  destruct (Z.leb_spec len 0); [lia|].
  destruct (Z.ltb_spec 0xFFFF len); [lia|]. cbn [orb].
  destruct (to_bytes_big_4 addr Ha) as [Ea La].
  destruct (to_bytes_big_4 len ltac:(lia)) as [El Ll].
  rewrite Ea, El.
  apply sends_first_bind; [|intros resp; appends_tac].
  unfold _kwp.
  change ((0 <=? SID_READ_MEMORY_BY_ADDR) && (SID_READ_MEMORY_BY_ADDR <? 256))
    with true. cbn iota.
  apply sends_first_bind; [|intros resp; appends_tac].
  unfold request. apply sends_first_bind; [|intros resp; appends_tac].
  apply sends_first__send.
  cbn [app length]. rewrite length_app. cbn [length]. lia.
Qed.

(** What [backup] does first, in any state of the world. *)
Lemma backup_first_frame (output : string) :
  sends_first (first_frame flasher_tp (read_request 0 0x0400))
    (backup output 0x0400).
Proof.
  unfold backup. intros w. unfold bind at 1. unfold open_wb at 1.
  set (w1 := mkWorld _ _ _ _).
  change (tx_log w) with (tx_log w1). generalize w1. clear w w1.
  change (range0 FLASH_SIZE 0x0400)
    with (Some (0 :: map (stride_addr 0x0400)
                  (seq 1 (Z.to_nat ((FLASH_SIZE + 0x0400 - 1) / 0x0400) - 1)))).
  cbn [for_each].
  apply sends_first_bind.
  - apply sends_first_bind; [|intros d; appends_tac].
    apply sends_first_read_block; vm_compute; split; congruence.
  - intros []. apply appends_for_each. intros addr. appends_tac.
Qed.

(** C9 (as the code has it).  A [Flasher] records no session state and
    [backup] tests none: started in any state of the world, it truncates
    the output file and transmits the First frame of the ReadMemoryByAddress
    request for address 0 and length 0x0400 before anything else.  Whether
    it then fails is decided by the ECU's answers alone: left without any
    answer it fails with the transport's "No FlowControl", and refused with
    a negative response, or any answer that does not start with 0x63, it
    fails with "ReadMemoryByAddress failed" once the whole request has been
    transmitted. *)
Theorem backup_checks_no_session (output : string) (w : World) :
  (exists rest : list Frame,
     tx_log (snd (backup output 0x0400 w))
     = tx_log w ++ first_frame flasher_tp (read_request 0 0x0400) :: rest)
  /\ first_frame flasher_tp (read_request 0 0x0400)
     = mkFrame CAN_ID_REQ
         [Byte.x10; Byte.x0b; Byte.x23; Byte.x24;
          Byte.x00; Byte.x00; Byte.x00; Byte.x00]
  /\ (rx_queue w = [] ->
      backup output 0x0400 w
      = (Raise (RuntimeError "No FlowControl"),
         mkWorld []
           (tx_log w ++ [first_frame flasher_tp (read_request 0 0x0400)])
           (slept w) (file_truncate output (files w))))
  /\ (forall (rs : list byte) (q : list (option Frame)),
        (1 <= length rs <= 4095)%nat ->
        rejected rs SID_READ_MEMORY_BY_ADDR = true ->
        rx_queue w = kwp_script (read_request 0 0x0400) rs ++ q ->
        backup output 0x0400 w
        = (Raise (RuntimeError "ReadMemoryByAddress failed"),
           mkWorld q (tx_log w ++ kwp_sent (read_request 0 0x0400) rs)
             (slept w ++ kwp_slept (read_request 0 0x0400))
             (file_truncate output (files w)))).
Proof.
  split; [|split; [|split]].
  - destruct (backup_first_frame output w) as [rest Hrest].
    exists rest. rewrite Hrest, <- app_assoc. reflexivity.
  - reflexivity.
  - intros Hq. unfold backup. unfold bind at 1. unfold open_wb at 1.
    change (range0 FLASH_SIZE 0x0400)
      with (Some (0 :: map (stride_addr 0x0400)
                    (seq 1 (Z.to_nat ((FLASH_SIZE + 0x0400 - 1) / 0x0400) - 1)))).
    cbn [for_each]. unfold bind at 1. unfold bind at 1.
    change (Z.min 0x0400 (FLASH_SIZE - 0)) with 0x0400.
    unfold read_block.
    change ((0x0400 <=? 0) || (0xFFFF <? 0x0400)) with false. cbn iota.
    change (to_bytes_big 4 0) with (Some (be4 0)).
    change (to_bytes_big 4 0x0400) with (Some (be4 0x0400)).
    cbn iota. unfold bind at 1. unfold _kwp.
    change ((0 <=? SID_READ_MEMORY_BY_ADDR)
            && (SID_READ_MEMORY_BY_ADDR <? 256)) with true.
    cbn iota. unfold bind at 1.
    unfold request. unfold bind at 1.
    change ([z2b SID_READ_MEMORY_BY_ADDR] ++ [z2b 36] ++ be4 0 ++ [z2b 36] ++ be4 1024)
      with (read_request 0 0x0400).
    unfold _send. change (length (read_request 0 0x0400) <=? 7)%nat with false.
    cbn iota. unfold bind at 1. unfold bus_send. unfold bind at 1.
    unfold _recv. unfold bind at 1. unfold bus_recv.
    cbn [rx_queue tx_log slept files]. rewrite Hq. reflexivity.
  - intros rs q Hrs Hrej Hq. unfold backup. unfold bind at 1.
    unfold open_wb at 1.
    change (range0 FLASH_SIZE 0x0400)
      with (Some (0 :: map (stride_addr 0x0400)
                    (seq 1 (Z.to_nat ((FLASH_SIZE + 0x0400 - 1) / 0x0400) - 1)))).
    cbn [for_each]. unfold bind at 1. unfold bind at 1.
    change (Z.min 0x0400 (FLASH_SIZE - 0)) with 0x0400.
    erewrite (read_block_run 0 0x0400 rs);
      [ | lia | lia | exact Hrs | cbn [rx_queue]; exact Hq ].
    rewrite Hrej. reflexivity.
Qed.

Lemma backup_checks_no_session_witness :
  let w := mkWorld [] [] [] [] in
  let refusal := [Byte.x7f; Byte.x23; Byte.x33] in
  rx_queue w = []
  /\ backup "backup.bin" 0x0400 w
     = (Raise (RuntimeError "No FlowControl"),
        mkWorld []
          [mkFrame CAN_ID_REQ
             [Byte.x10; Byte.x0b; Byte.x23; Byte.x24;
              Byte.x00; Byte.x00; Byte.x00; Byte.x00]]
          [] [("backup.bin"%string, [])])
  /\ backup "backup.bin" 0x0400
       (mkWorld (kwp_script (read_request 0 0x0400) refusal) [] [] [])
     = (Raise (RuntimeError "ReadMemoryByAddress failed"),
        mkWorld [] (kwp_sent (read_request 0 0x0400) refusal) [0]
          [("backup.bin"%string, [])]).
Proof.
  intros w refusal. split; [reflexivity|]. split.
  - destruct (backup_checks_no_session "backup.bin" w) as (_ & Hff & Hrun & _).
    rewrite (Hrun eq_refl), Hff. reflexivity.
  - destruct (backup_checks_no_session "backup.bin"
                (mkWorld (kwp_script (read_request 0 0x0400) refusal)
                   [] [] []))
      as (_ & _ & _ & Href).
    exact (Href refusal [] ltac:(cbn; lia) eq_refl eq_refl).
Defined.

(** C9 as stated does not hold: on a [Flasher] fresh from its constructor,
    with neither [enter_session] nor [security_unlock] called, [backup]
    sends the complete ReadMemoryByAddress request (First frame and
    Consecutive frame); an ECU that refuses it with the negative response
    [7F 23 33] makes it fail with "ReadMemoryByAddress failed" from
    [read_block], not with a session error. *)
Lemma backup_before_unlock_sends_request :
  let fc := mkFrame CAN_ID_RESP (Byte.x30 :: Byte.x00 :: Byte.x00 :: zeros 5) in
  let refusal :=
    mkFrame CAN_ID_RESP
      ([Byte.x03; Byte.x7f; Byte.x23; Byte.x33] ++ zeros 4) in
  backup "backup.bin" 0x0400 (mkWorld [Some fc; Some refusal] [] [] [])
  = (Raise (RuntimeError "ReadMemoryByAddress failed"),
     mkWorld []
       [mkFrame CAN_ID_REQ
          [Byte.x10; Byte.x0b; Byte.x23; Byte.x24;
           Byte.x00; Byte.x00; Byte.x00; Byte.x00];
        mkFrame CAN_ID_REQ
          [Byte.x21; Byte.x24; Byte.x00; Byte.x00;
           Byte.x04; Byte.x00; Byte.x00; Byte.x00]]
       [0] [("backup.bin"%string, [])]).
Proof. vm_compute. reflexivity. Qed.

(** ** The flash workflow against a cooperative ECU *)

Lemma block_counter_range (k : nat) : 0 <= block_counter k < 256.
Proof. unfold block_counter. apply Z.mod_pos_bound. lia. Qed.

Lemma block_counter_land (k : nat) :
  Z.land (block_counter k) 0xFF = block_counter k.
Proof.
  change 0xFF with (Z.ones 8). rewrite Z.land_ones by lia.
  apply Z.mod_small. apply block_counter_range.
Qed.

Lemma block_counter_succ (k : nat) :
  Z.land (block_counter k + 1) 0xFF = block_counter (S k).
Proof.
  unfold block_counter. change 0xFF with (Z.ones 8).
  rewrite Z.land_ones by lia. change (2 ^ 8) with 256.
  rewrite Z.add_mod_idemp_l by lia. f_equal. lia.
Qed.

Lemma block_count_lt (d : list byte) (block k : nat) :
  (0 < block)%nat ->
  (k < block_count d block)%nat <-> (k * block < length d)%nat.
Proof.
  intros Hb. unfold block_count.
  pose proof (Nat.div_mod_eq (length d + block - 1) block) as E.
  pose proof (Nat.mod_upper_bound (length d + block - 1) block ltac:(lia)) as B.
  split; intros H; nia.
Qed.

Lemma kwp_script_nonempty (rq rs : list byte) :
  (1 <= length (kwp_script rq rs))%nat.
Proof.
  unfold kwp_script. rewrite length_app, length_map. unfold segments.
  destruct (length rs <=? 7)%nat; cbn [length]; lia.
Qed.

Lemma transfer_script_length (d : list byte) (block : nat) :
  forall m k, (m <= length (transfer_script d block k m))%nat.
Proof.
  unfold transfer_script.
  induction m as [|m IH]; intros k; [cbn; lia|].
  cbn [seq flat_map]. rewrite length_app.
  pose proof (kwp_script_nonempty (transfer_request d block k)
                (transfer_answer k)).
  specialize (IH (S k)). lia.
Qed.

Lemma transfer_loop_cooperative (d : list byte) (block : nat) :
  (0 < block <= 4093)%nat ->
  forall (m k fuel : nat) (w : World) (q : list (option Frame)),
    (m + k = block_count d block)%nat -> (m <= fuel)%nat ->
    rx_queue w = transfer_script d block k m ++ q ->
    exists w',
      transfer_loop fuel d (Z.of_nat block) (block_counter k)
        (Nat.min (k * block) (length d)) w = (Ok tt, w')
      /\ rx_queue w' = q
      /\ tx_log w' = tx_log w ++ transfer_sent d block k m
      /\ files w' = files w.
Proof.
  intros Hb.
  induction m as [|m IH]; intros k fuel w q Hk Hfuel Hq.
  - assert (length d <= k * block)%nat.
    { destruct (Nat.le_gt_cases (length d) (k * block)) as [|H]; [assumption|].
      apply block_count_lt in H; lia. }
    rewrite Nat.min_r by lia. exists w.
    split; [|split; [exact Hq | split; [cbn; rewrite app_nil_r|]; reflexivity]].
    destruct fuel; cbn [transfer_loop]; rewrite Nat.ltb_irrefl; reflexivity.
  - assert (Hlt : (k * block < length d)%nat) by (apply block_count_lt; lia).
    rewrite Nat.min_l by lia.
    destruct fuel as [|fuel]; [lia|]. cbn [transfer_loop].
    destruct (Nat.ltb_spec (k * block) (length d)) as [_|]; [|lia].
    unfold chunk_at.
    destruct (Z.leb_spec 0 (Z.of_nat (k * block) + Z.of_nat block)); [|lia].
    replace (Z.to_nat (Z.of_nat (k * block) + Z.of_nat block))
      with (k * block + block)%nat by lia.
    rewrite block_counter_land, block_counter_succ.
    cbn [transfer_script seq flat_map] in Hq. rewrite <- app_assoc in Hq.
    unfold bind at 1.
    erewrite (_kwp_exchange SID_TRANSFER_DATA
               ([z2b (block_counter k)] ++ slice d (k * block) (k * block + block))
               (transfer_answer k) w);
      [ | cbn [length app]; rewrite length_slice; lia | cbn; lia | exact Hq ].
    cbn [rejected transfer_answer].
    change (b2z (z2b (pos SID_TRANSFER_DATA)) =? pos SID_TRANSFER_DATA) with true.
    cbn [negb].
    replace (k * block + length (slice d (k * block) (k * block + block)))%nat
      with (Nat.min (S k * block) (length d))
      by (rewrite length_slice; lia).
    set (w1 := mkWorld _ _ _ _).
    destruct (IH (S k) fuel w1 q) as (w' & Hrun & Hq' & Htx & Hf);
      [ lia | lia | reflexivity | ].
    exists w'. split; [exact Hrun|]. split; [exact Hq'|].
    split; [|exact Hf].
    rewrite Htx. unfold w1. cbn [tx_log transfer_sent seq flat_map].
    rewrite <- !app_assoc. reflexivity.
Qed.

Lemma transfer_data_cooperative (d : list byte) (block : nat) (w : World)
    (q : list (option Frame)) :
  (0 < block <= 4093)%nat ->
  rx_queue w = transfer_script d block 0 (block_count d block) ++ q ->
  exists w',
    transfer_data d (Z.of_nat block) w = (Ok tt, w')
    /\ rx_queue w' = q
    /\ tx_log w' = tx_log w ++ transfer_sent d block 0 (block_count d block)
    /\ files w' = files w.
Proof.
  intros Hb Hq. unfold transfer_data, bind, pending.
  pose proof (transfer_loop_cooperative d block Hb (block_count d block) 0
                (S (length (rx_queue w))) w q) as H.
  change (block_counter 0) with 1 in H.
  change (Nat.min (0 * block) (length d)) with 0%nat in H.
  apply H; [lia | | exact Hq].
  rewrite Hq, length_app.
  pose proof (transfer_script_length d block (block_count d block) 0). lia.
Qed.

Lemma erase_all_cooperative (w : World) (q : list (option Frame)) :
  let answer := [z2b (pos SID_ROUTINE_CONTROL); z2b 0x01] in
  rx_queue w = kwp_script erase_request answer ++ q ->
  erase_all w
  = (Ok tt, mkWorld q (tx_log w ++ kwp_sent erase_request answer)
              (slept w ++ kwp_slept erase_request) (files w)).
Proof.
  intros answer Hq. unfold erase_all, bind.
  rewrite (_kwp_exchange SID_ROUTINE_CONTROL
             [z2b 0x01; z2b (Z.shiftr ROUTINE_ERASE_ALL 8);
              z2b (Z.land ROUTINE_ERASE_ALL 0xFF)] answer w q);
    [reflexivity | cbn; lia | cbn; lia | exact Hq].
Qed.

Lemma transfer_exit_cooperative (w : World) (q : list (option Frame)) :
  let answer := [z2b (pos SID_REQUEST_TRANSFER_EXIT)] in
  rx_queue w = kwp_script exit_request answer ++ q ->
  transfer_exit w
  = (Ok tt, mkWorld q (tx_log w ++ kwp_sent exit_request answer)
              (slept w ++ kwp_slept exit_request) (files w)).
Proof.
  intros answer Hq. unfold transfer_exit, bind.
  rewrite (_kwp_exchange SID_REQUEST_TRANSFER_EXIT [] answer w q);
    [reflexivity | cbn; lia | cbn; lia | exact Hq].
Qed.

(** [request_download] on a positive answer [74 n ml...]: the length byte
    [n] says how many of the bytes after it make up the block size. *)
Lemma request_download_parse (addr len : Z) (n : byte) (ml : list byte)
    (w : World) (q : list (option Frame)) :
  let answer := z2b (pos SID_REQUEST_DOWNLOAD) :: n :: ml in
  0 <= addr < 2 ^ 32 -> 0 <= len < 2 ^ 32 -> (length ml <= 4093)%nat ->
  rx_queue w = kwp_script (download_request addr len) answer ++ q ->
  request_download addr len w
  = (Ok (if b2z n =? 0 then TRANSFER_SIZE_DEFAULT
         else int_from_bytes_big (take (Z.to_nat (b2z n)) ml)),
     mkWorld q (tx_log w ++ kwp_sent (download_request addr len) answer)
       (slept w ++ kwp_slept (download_request addr len)) (files w)).
Proof.
  intros answer Ha Hl Hml Hq. unfold request_download.
  destruct (to_bytes_big_4 addr Ha) as [Ea La].
  destruct (to_bytes_big_4 len Hl) as [El Ll].
  rewrite Ea, El. unfold bind.
  rewrite (_kwp_exchange SID_REQUEST_DOWNLOAD
             ([z2b 0x00; z2b 0x44] ++ be4 addr ++ be4 len) answer w q);
    [ | cbn [length app]; rewrite length_app, La, Ll; lia
      | cbn [length answer]; lia | exact Hq ].
  cbn [rejected answer].
  change (b2z (z2b (pos SID_REQUEST_DOWNLOAD)) =? pos SID_REQUEST_DOWNLOAD)
    with true.
  cbn [negb]. reflexivity.
Qed.



(** ** The transfer loop never runs out of fuel *)

Create HintDb consumes.

Lemma consumes_ret {A} (a : A) : consumes (ret a).
Proof. intros w. reflexivity. Qed.

Lemma consumes_raise {A} (e : exn) : consumes (@raise World A e).
Proof. intros w. reflexivity. Qed.

Lemma consumes_bind {A B} (c : M A) (k : A -> M B) :
  consumes c -> (forall a, consumes (k a)) -> consumes (bind c k).
Proof.
  intros Hc Hk w. unfold bind. specialize (Hc w).
  destruct (c w) as [[a|e] w1]; cbn [snd] in *; [|exact Hc].
  etransitivity; [apply Hk | exact Hc].
Qed.

Lemma consumes_bus_send (f : Frame) : consumes (bus_send f).
Proof. intros w. reflexivity. Qed.

Lemma consumes_bus_recv : consumes bus_recv.
Proof.
  intros w. unfold bus_recv.
  destruct (rx_queue w) eqn:E; cbn [snd rx_queue]; rewrite ?E; cbn [length]; lia.
Qed.

Lemma consumes_sleep_ms (ms : Z) : consumes (sleep_ms ms).
Proof. intros w. reflexivity. Qed.

Lemma consumes_pending : consumes pending.
Proof. intros w. reflexivity. Qed.

#[local] Hint Resolve consumes_ret consumes_raise consumes_bus_send
  consumes_bus_recv consumes_sleep_ms consumes_pending : consumes.

Ltac consumes_step :=
  match goal with
  | |- consumes (bind _ _) => apply consumes_bind; [|intros ?]
  | |- consumes (match ?x with _ => _ end) => destruct x
  | |- consumes _ => solve [auto with consumes]
  end.

Ltac consumes_tac := repeat consumes_step.

Lemma consumes_recv_loop (tp : IsoTp) (fuel : nat) :
  forall (buf : list byte) (total : nat), consumes (recv_loop tp fuel buf total).
Proof.
  induction fuel as [|fuel IH]; intros buf total; cbn [recv_loop];
    consumes_tac.
Qed.

Lemma consumes__recv (tp : IsoTp) (raw : bool) : consumes (_recv tp raw).
Proof.
  unfold _recv. pose proof (consumes_recv_loop tp). consumes_tac.
Qed.

Lemma consumes_flow_control (fc : option (list byte)) (msg : string) :
  consumes (flow_control fc msg).
Proof. unfold flow_control. consumes_tac. Qed.

#[local] Hint Resolve consumes_recv_loop consumes__recv consumes_flow_control
  : consumes.

Lemma consumes_send_loop (tp : IsoTp) (p : list byte) (fuel : nat) :
  forall (ptr : nat) (sn bs_cnt st bs : Z),
    consumes (send_loop tp fuel p ptr sn bs_cnt st bs).
Proof.
  induction fuel as [|fuel IH]; intros ptr sn bs_cnt st bs; cbn [send_loop];
    consumes_tac.
Qed.

Lemma consumes__send (tp : IsoTp) (p : list byte) : consumes (_send tp p).
Proof.
  unfold _send. pose proof (consumes_send_loop tp p). consumes_tac.
Qed.

(** A receive that delivers a payload has taken at least one event. *)
Lemma _recv_takes (tp : IsoTp) (raw : bool) (w w' : World) (r : list byte) :
  _recv tp raw w = (Ok (Some r), w') ->
  (length (rx_queue w') < length (rx_queue w))%nat.
Proof.
  unfold _recv.
  match goal with
  | |- bind bus_recv ?k w = _ -> _ =>
      set (K := k);
      assert (HK : forall m, consumes (K m))
        by (intros m; subst K; cbv beta; pose proof (consumes_recv_loop tp);
            consumes_tac)
  end.
  unfold bind, bus_recv.
  destruct (rx_queue w) as [|m q] eqn:E.
  - subst K. cbv beta. discriminate.
  - intros Hrun. specialize (HK m (mkWorld q (tx_log w) (slept w) (files w))).
    rewrite Hrun in HK. cbn [snd rx_queue length] in *. lia.
Qed.

Lemma _kwp_takes (sid : Z) (p : list byte) (w w' : World) (r0 : byte)
    (r : list byte) :
  _kwp sid p w = (Ok (r0 :: r), w') ->
  (length (rx_queue w') < length (rx_queue w))%nat.
Proof.
  unfold _kwp. destruct ((0 <=? sid) && (sid <? 256)); [|discriminate].
  unfold request. unfold bind at 1. unfold bind at 1.
  pose proof (consumes__send flasher_tp ([z2b sid] ++ p) w) as Hs.
  destruct (_send flasher_tp ([z2b sid] ++ p) w) as [[[]|e] w1];
    [|discriminate].
  destruct (_recv flasher_tp false w1) as [[[resp|]|e] w2] eqn:Hr;
    try discriminate.
  unfold ret. intros [= -> <-].
  apply _recv_takes in Hr. cbn [snd] in Hs. lia.
Qed.

Lemma transfer_loop_fuel (d : list byte) (chunk_size : Z) :
  forall (fuel : nat) (counter : Z) (offset : nat) (w : World),
    (length (rx_queue w) < fuel)%nat ->
    fst (transfer_loop fuel d chunk_size counter offset w)
    <> Raise FuelExhausted.
Proof.
  induction fuel as [|fuel IH]; intros counter offset w Hq; [lia|].
  cbn [transfer_loop]. destruct (offset <? length d)%nat; [|discriminate].
  unfold bind.
  pose proof (_kwp_fuel SID_TRANSFER_DATA
                ([z2b (Z.land counter 255)] ++ chunk_at d offset chunk_size) w)
    as Hk.
  destruct (_kwp SID_TRANSFER_DATA _ w) as [[resp|e] w1] eqn:Hrun;
    [|raise_ne Hk].
  destruct resp as [|r0 r]; [discriminate|].
  cbn [rejected]. destruct (negb (b2z r0 =? pos SID_TRANSFER_DATA));
    [discriminate|].
  apply IH. apply _kwp_takes in Hrun. lia.
Qed.

(** [transfer_data] is total. *)
Lemma transfer_data_fuel (d : list byte) (chunk_size : Z) (w : World) :
  fst (transfer_data d chunk_size w) <> Raise FuelExhausted.
Proof.
  unfold transfer_data, bind, pending. apply transfer_loop_fuel. lia.
Qed.

(** Nor does [flash], up to the point it hands over to the transfer. *)
Lemma flash_fuel (image : list byte) (chunk_size : Z) (w : World) :
  fst (flash image chunk_size w) <> Raise FuelExhausted.
Proof.
  unfold flash. destruct (negb _); [discriminate|].
  unfold bind at 1. unfold erase_all. unfold bind at 1.
  pose proof (_kwp_fuel SID_ROUTINE_CONTROL
                [z2b 1; z2b (Z.shiftr ROUTINE_ERASE_ALL 8);
                 z2b (Z.land ROUTINE_ERASE_ALL 255)] w) as H1.
  destruct (_kwp SID_ROUTINE_CONTROL _ w) as [[r1|e] w1]; [|raise_ne H1].
  destruct (rejected r1 SID_ROUTINE_CONTROL); [discriminate|].
  unfold ret at 1. unfold bind at 1. unfold request_download.
  destruct (to_bytes_big 4 0); [|discriminate].
  destruct (to_bytes_big 4 _); [|discriminate].
  unfold bind at 1.
  match goal with
  | |- context [_kwp ?s ?p w1] =>
      pose proof (_kwp_fuel s p w1) as H2;
      destruct (_kwp s p w1) as [[r2|e] w2]; [|raise_ne H2]
  end.
  destruct (rejected r2 SID_REQUEST_DOWNLOAD); [discriminate|].
  destruct (r2 !! 1%nat); discriminate.
Qed.

(** ** Searching and the checksum words *)

Lemma starts_with_spec (l sub : list byte) :
  starts_with l sub = true <-> take (length sub) l = sub.
Proof.
  revert l. induction sub as [|s sub IH]; intros l.
  - destruct l; split; reflexivity.
  - destruct l as [|x l]; cbn [starts_with length take].
    + split; discriminate.
    + rewrite andb_true_iff, bool_decide_eq_true, IH.
      split; [intros [-> ->]; reflexivity | intros E; injection E; auto].
Qed.

Lemma find_Some (l sub : list byte) (i : nat) :
  find l sub = Some i ->
  occurs_at l sub i /\ forall j, (j < i)%nat -> ~ occurs_at l sub j.
Proof.
  unfold occurs_at. revert i.
  induction l as [|x l IH]; intros i; cbn [find].
  - destruct (starts_with [] sub) eqn:E; [|discriminate].
    intros [= <-]. split; [apply starts_with_spec, E | lia].
  - destruct (starts_with (x :: l) sub) eqn:E.
    + intros [= <-]. split; [apply starts_with_spec, E | lia].
    + destruct (find l sub) as [i'|]; [|discriminate].
      cbn [option_map]. intros [= <-].
      destruct (IH i' eq_refl) as [H1 H2]. split; [exact H1|].
      intros [|j] Hj.
      * rewrite drop_0. intros H. apply starts_with_spec in H. congruence.
      * apply H2. lia.
Qed.

Lemma find_None (l sub : list byte) :
  find l sub = None <-> forall i, ~ occurs_at l sub i.
Proof.
  unfold occurs_at. split.
  - induction l as [|x l IH]; cbn [find].
    + destruct (starts_with [] sub) eqn:E; [discriminate|].
      intros _ i H. rewrite drop_nil in H.
      apply starts_with_spec in H. congruence.
    + destruct (starts_with (x :: l) sub) eqn:E; [discriminate|].
      destruct (find l sub) as [i'|]; [discriminate|].
      intros _ [|i] H.
      * rewrite drop_0 in H. apply starts_with_spec in H. congruence.
      * exact (IH eq_refl i H).
  - intros H. destruct (find l sub) as [i|] eqn:E; [|reflexivity].
    apply find_Some in E as [E _]. exfalso. exact (H i E).
Qed.

Lemma iter_unpack_H_even (n : nat) :
  forall b : list byte,
    length b = (2 * n)%nat ->
    exists ws, iter_unpack_H b = Some ws /\ length ws = n.
Proof.
  induction n as [|n IH]; intros b Hb.
  - destruct b; [|discriminate]. exists []. split; reflexivity.
  - destruct b as [|hi [|lo b]]; cbn in Hb; try lia.
    destruct (IH b ltac:(lia)) as (ws & E & L).
    cbn [iter_unpack_H]. rewrite E. eexists. split; [reflexivity|].
    cbn. lia.
Qed.

Lemma iter_unpack_H_app (b1 b2 : list byte) (ws1 ws2 : list Z) :
  iter_unpack_H b1 = Some ws1 -> iter_unpack_H b2 = Some ws2 ->
  iter_unpack_H (b1 ++ b2) = Some (ws1 ++ ws2).
Proof.
  intros H1 H2.
  assert (G : forall n b ws, length b = n -> iter_unpack_H b = Some ws ->
                             iter_unpack_H (b ++ b2) = Some (ws ++ ws2)).
  { induction n as [n IH] using lt_wf_ind. intros b ws Hn Hb.
    destruct b as [|hi [|lo b]]; cbn [iter_unpack_H] in Hb.
    - injection Hb as <-. exact H2.
    - discriminate.
    - destruct (iter_unpack_H b) as [ws'|] eqn:E; [|discriminate].
      injection Hb as <-. cbn [app iter_unpack_H].
      rewrite (IH (length b) ltac:(cbn in Hn; lia) b ws' eq_refl E).
      reflexivity. }
  exact (G _ b1 ws1 eq_refl H1).
Qed.

Lemma py_sum_app (ws : list Z) (z : Z) : py_sum (ws ++ [z]) = py_sum ws + z.
Proof. unfold py_sum. rewrite fold_left_app. reflexivity. Qed.

Lemma to_bytes_big_2 (c : Z) :
  0 <= c < 2 ^ 16 ->
  exists hi lo : byte,
    to_bytes_big 2 c = Some [hi; lo] /\ b2z hi * 256 + b2z lo = c.
Proof.
  intros Hc. unfold to_bytes_big.
  destruct (Z.leb_spec 0 c); [|lia].
  change (256 ^ Z.of_nat 2) with (2 ^ 16).
  destruct (Z.ltb_spec c (2 ^ 16)); [|lia].
  cbn [andb rev seq map app]. eexists _, _. split; [reflexivity|].
  change (8 * Z.of_nat 1) with 8. change (8 * Z.of_nat 0) with 0.
  rewrite Z.shiftr_0_r.
  change 255 with (Z.ones 8). rewrite !Z.land_ones by lia.
  rewrite Z.shiftr_div_pow2 by lia. change (2 ^ 8) with 256.
  assert (0 <= c / 256 < 256)
    by (split; [apply Z.div_pos; lia | apply Z.div_lt_upper_bound; lia]).
  rewrite (Z.mod_small (c / 256)) by lia.
  pose proof (Z.mod_pos_bound c 256 ltac:(lia)).
  rewrite !b2z_z2b by lia.
  pose proof (Z.div_mod c 256 ltac:(lia)). lia.
Qed.

(** The checksum word the code writes makes the 16-bit sum vanish. *)
Lemma corrected_sum (s : Z) :
  let checksum := Z.land s 0xFFFF in
  let corrected := Z.land (- checksum) 0xFFFF in
  0 <= corrected < 2 ^ 16
  /\ corrected = (- s) mod 2 ^ 16
  /\ (s + corrected) mod 2 ^ 16 = 0.
Proof.
  cbv zeta. change 0xFFFF with (Z.ones 16). rewrite !Z.land_ones by lia.
  pose proof (Z.mod_pos_bound (- (s mod 2 ^ 16)) (2 ^ 16) ltac:(lia)) as B.
  split; [exact B|].
  assert (E : (- (s mod 2 ^ 16)) mod 2 ^ 16 = (- s) mod 2 ^ 16).
  { rewrite <- (Z.sub_0_l (s mod 2 ^ 16)), <- (Z.sub_0_l s).
    rewrite Zminus_mod_idemp_r. reflexivity. }
  split; [exact E|].
  rewrite E, Zplus_mod_idemp_r. replace (s + - s) with 0 by lia. reflexivity.
Qed.

(** ** The VIN patcher on the store *)


Lemma cal_layout :
  Z.of_nat nCAL_START = 0x10000 /\ Z.of_nat nCAL_END = 0x50000.
Proof.
  unfold nCAL_START, nCAL_END. rewrite !Z2Nat.id; [split; reflexivity | | ];
    discriminate.
Qed.

(** From here on the region bounds are used through [cal_layout] only. *)
#[local] Opaque nCAL_START nCAL_END.

Lemma encode_ascii_length (s : str) (vb : list byte) :
  encode_ascii s = Some vb -> length vb = length s.
Proof.
  unfold encode_ascii. destruct (forallb _ s); [|discriminate].
  intros [= <-]. apply length_map.
Qed.

Lemma set_slice_same (l sub : list byte) (a : nat) :
  take (length sub) (drop a l) = sub ->
  set_slice l a (a + length sub) sub = l.
Proof.
  intros H. unfold set_slice. rewrite <- H at 1.
  rewrite <- drop_drop, (take_drop (length sub) (drop a l)).
  apply take_drop.
Qed.

Lemma occurs_in_cal (b vb : list byte) (idx : nat) :
  (nCAL_END <= length b)%nat -> (0 < length vb)%nat ->
  occurs_at (cal_of b) vb idx ->
  take (length vb) (drop (nCAL_START + idx) b) = vb
  /\ (nCAL_START + idx + length vb <= nCAL_END)%nat.
Proof.
  unfold occurs_at, cal_of, slice. intros Hb Hvb H.
  pose proof cal_layout as [HS HE].
  assert (Hfit : (nCAL_START + idx + length vb <= nCAL_END)%nat).
  { apply (f_equal length) in H.
    rewrite length_take, !length_drop, length_take in H. lia. }
  split; [|exact Hfit].
  rewrite <- H at 2. apply list_eq. intros i.
  destruct (Nat.lt_ge_cases i (length vb)) as [Hi|Hi].
  - rewrite !lookup_take_lt, !lookup_drop, lookup_take_lt by lia.
    rewrite Nat.add_assoc. reflexivity.
  - rewrite !lookup_take_ge by lia. reflexivity.
Qed.

Section FixChecksum.
Variables (h : list (list byte)) (buf : ref) (b : list byte).
Hypothesis buf_holds : h !! buf = Some b.
Hypothesis spans_cal : (nCAL_END <= length b)%nat.

Lemma cal_words_exist :
  exists ws : list Z,
    iter_unpack_H (take (length (cal_of b) - 2) (cal_of b)) = Some ws.
Proof.
  pose proof cal_layout as [HS HE].
  destruct (iter_unpack_H_even (Z.to_nat 0x1FFFF)
              (take (length (cal_of b) - 2) (cal_of b))) as (ws & E & _).
  - rewrite length_take. unfold cal_of. rewrite length_slice. lia.
  - exists ws. exact E.
Qed.

Lemma _fix_cal_checksum_run :
  exists (ws : list Z) (hi lo : byte),
    iter_unpack_H (take (length (cal_of b) - 2) (cal_of b)) = Some ws
    /\ b2z hi * 256 + b2z lo = (- py_sum ws) mod 2 ^ 16
    /\ _fix_cal_checksum buf h
       = (Ok tt, <[buf := set_slice b (nCAL_END - 2) nCAL_END [hi; lo]]> h).
Proof.
  destruct cal_words_exist as [ws Hws].
  destruct (corrected_sum (py_sum ws)) as (Hr & Hc & _).
  destruct (to_bytes_big_2 _ Hr) as (hi & lo & Hb & Hw).
  exists ws, hi, lo. split; [exact Hws|]. split; [rewrite Hw; exact Hc|].
  unfold _fix_cal_checksum. unfold bind at 1. unfold load at 1.
  rewrite buf_holds. fold (cal_of b). rewrite Hws, Hb.
  unfold bind, load. rewrite buf_holds. reflexivity.
Qed.
End FixChecksum.

(** The buffer after the checksum word has been rewritten. *)
Section Rewritten.
Variables (b : list byte) (hi lo : byte) (ws : list Z).
Hypothesis spans_cal : (nCAL_END <= length b)%nat.
Hypothesis words : iter_unpack_H (take (length (cal_of b) - 2) (cal_of b)) = Some ws.
Hypothesis word : b2z hi * 256 + b2z lo = (- py_sum ws) mod 2 ^ 16.

Local Abbreviation out := (set_slice b (nCAL_END - 2) nCAL_END [hi; lo]).

Lemma rewritten_length : length out = length b.
Proof.
  pose proof cal_layout as [HS HE].
  unfold set_slice. rewrite !length_app, length_take, length_drop.
  cbn [length]. lia.
Qed.

Lemma rewritten_lookup (i : nat) :
  (i < nCAL_END - 2 \/ nCAL_END <= i)%nat -> out !! i = b !! i.
Proof.
  pose proof cal_layout as [HS HE]. intros Hi. unfold set_slice.
  destruct Hi as [Hi|Hi].
  - rewrite lookup_app_l by (rewrite length_take; lia).
    apply lookup_take_lt. lia.
  - rewrite lookup_app_r by (rewrite length_take; lia).
    rewrite length_take.
    rewrite lookup_app_r by (cbn [length]; lia).
    cbn [length]. rewrite lookup_drop. f_equal. lia.
Qed.

Lemma rewritten_cal :
  cal_of out = take (length (cal_of b) - 2) (cal_of b) ++ [hi; lo].
Proof.
  pose proof cal_layout as [HS HE].
  apply list_eq. intros i. unfold cal_of.
  destruct (Nat.lt_ge_cases i (nCAL_END - nCAL_START)) as [Hi|Hi].
  - rewrite slice_lookup by lia.
    destruct (Nat.lt_ge_cases i (nCAL_END - nCAL_START - 2)) as [Hj|Hj].
    + rewrite rewritten_lookup by lia.
      rewrite lookup_app_l by (rewrite length_take, length_slice; lia).
      rewrite lookup_take_lt by (rewrite length_slice; lia).
      rewrite slice_lookup by lia. reflexivity.
    + rewrite lookup_app_r by (rewrite length_take, length_slice; lia).
      rewrite length_take, length_slice.
      unfold set_slice.
      rewrite lookup_app_r by (rewrite length_take; lia).
      rewrite length_take.
      rewrite lookup_app_l by (cbn [length]; lia).
      f_equal. lia.
  - rewrite !lookup_ge_None_2; [reflexivity | | ].
    + rewrite length_app, length_take, length_slice. cbn [length]. lia.
    + rewrite length_slice, rewritten_length. lia.
Qed.

Lemma rewritten_sum :
  exists ws', iter_unpack_H (cal_of out) = Some ws'
              /\ py_sum ws' mod 2 ^ 16 = 0
              /\ ws' = ws ++ [(- py_sum ws) mod 2 ^ 16].
Proof.
  exists (ws ++ [b2z hi * 256 + b2z lo]).
  split; [|split].
  - rewrite rewritten_cal. apply iter_unpack_H_app; [exact words | reflexivity].
  - rewrite py_sum_app, word.
    rewrite Zplus_mod_idemp_r. replace (py_sum ws + - py_sum ws) with 0 by lia.
    reflexivity.
  - rewrite word. reflexivity.
Qed.
End Rewritten.

Lemma insert_last {A} (h : list A) (x y : A) :
  <[length h := x]> (h ++ [y]) = h ++ [x].
Proof.
  replace (length h) with (length h + 0)%nat by lia.
  rewrite insert_app_r. reflexivity.
Qed.

Lemma lookup_last {A} (h : list A) (y : A) : (h ++ [y]) !! length h = Some y.
Proof. apply list_lookup_middle. reflexivity. Qed.

Lemma lookup_second_last {A} (h : list A) (x y : A) :
  ((h ++ [x]) ++ [y]) !! S (length h) = Some y.
Proof.
  replace (S (length h)) with (length (h ++ [x]))
    by (rewrite length_app; cbn [length]; lia).
  apply lookup_last.
Qed.

(** A run of [patch_vin] that finds the VIN: the bytes written over the
    occurrence are the ones already there, so the buffer changes in its
    checksum word only. *)
Lemma patch_vin_run (h : list (list byte)) (image : ref) (img : list byte)
    (vin : str) (vb : list byte) (idx : nat) :
  h !! image = Some img -> length vin = 17%nat ->
  encode_ascii vin = Some vb -> find (cal_of img) vb = Some idx ->
  (nCAL_END <= length img)%nat ->
  exists (ws : list Z) (hi lo : byte),
    iter_unpack_H (take (length (cal_of img) - 2) (cal_of img)) = Some ws
    /\ b2z hi * 256 + b2z lo = (- py_sum ws) mod 2 ^ 16
    /\ let out := set_slice img (nCAL_END - 2) nCAL_END [hi; lo] in
       patch_vin image vin h = (Ok (S (length h)), (h ++ [out]) ++ [out]).
Proof.
  intros Himg Hlen Henc Hfind Hspan.
  pose proof (encode_ascii_length vin vb Henc) as Hvb. rewrite Hlen in Hvb.
  pose proof (find_Some _ _ _ Hfind) as [Hocc _].
  destruct (occurs_in_cal img vb idx Hspan ltac:(lia) Hocc) as [Hat _].
  assert (Hsame : set_slice img (nCAL_START + idx) (nCAL_START + idx + 17) vb
                  = img).
  { rewrite <- Hvb. apply set_slice_same. exact Hat. }
  destruct (_fix_cal_checksum_run (h ++ [img]) (length h) img
              (lookup_last h img) Hspan) as (ws & hi & lo & Hws & Hw & Hfix).
  exists ws, hi, lo. split; [exact Hws|]. split; [exact Hw|]. cbv zeta.
  unfold patch_vin. rewrite Hlen. cbn [Nat.eqb negb].
  unfold bind at 1. unfold load at 1. rewrite Himg.
  unfold bind at 1. unfold alloc at 1. rewrite Henc.
  unfold bind at 1. unfold load at 1. rewrite lookup_last.
  fold (cal_of img).
  rewrite Hfind.
  unfold bind at 1. unfold load at 1. rewrite lookup_last.
  unfold bind at 1. unfold store at 1. rewrite Hsame, insert_last.
  unfold bind at 1. rewrite Hfix, insert_last.
  unfold bind at 1. unfold load at 1. rewrite lookup_last.
  unfold alloc. rewrite length_app. cbn [length].
  rewrite Nat.add_1_r. reflexivity.
Qed.

Lemma flash_spans_cal (img : list byte) :
  Z.of_nat (length img) = FLASH_SIZE -> (nCAL_END <= length img)%nat.
Proof.
  intros H. pose proof cal_layout as [_ HE]. unfold FLASH_SIZE in H. lia.
Qed.

Lemma occurs_find (l sub : list byte) (i : nat) :
  occurs_at l sub i -> exists idx, find l sub = Some idx /\ (idx <= i)%nat.
Proof.
  intros Hocc. destruct (find l sub) as [idx|] eqn:E.
  - exists idx. split; [reflexivity|].
    apply find_Some in E as [_ Hleast].
    destruct (Nat.le_gt_cases idx i) as [|Hgt]; [assumption|].
    exfalso. exact (Hleast i Hgt Hocc).
  - exfalso. exact (proj1 (find_None l sub) E i Hocc).
Qed.

(** C3. Checksum restoration: for every 1 MiB image that contains the
    17-character VIN inside the CAL region, [patch_vin] returns a buffer
    whose CAL region [0x10000, 0x50000), read as 16-bit big-endian words,
    sums to 0 modulo 2^16; its last word is (-S) mod 2^16 for the sum S of
    the words before it. *)
Theorem patch_vin_checksum (h : list (list byte)) (image : ref)
    (img : list byte) (vin : str) (vb : list byte) (i : nat) :
  h !! image = Some img ->
  Z.of_nat (length img) = FLASH_SIZE ->
  length vin = 17%nat -> encode_ascii vin = Some vb ->
  occurs_at (cal_of img) vb i ->
  exists (out : ref) (h' : list (list byte)) (res : list byte)
         (ws : list Z) (last : Z),
    patch_vin image vin h = (Ok out, h')
    /\ h' !! out = Some res
    /\ iter_unpack_H (cal_of res)
       = Some (ws ++ [last])
    /\ py_sum (ws ++ [last]) mod 2 ^ 16 = 0
    /\ last = (- py_sum ws) mod 2 ^ 16.
Proof.
  intros Himg Hsize Hlen Henc Hocc.
  pose proof (flash_spans_cal img Hsize) as Hspan.
  destruct (occurs_find _ _ _ Hocc) as (idx & Hfind & _).
  destruct (patch_vin_run h image img vin vb idx Himg Hlen Henc Hfind Hspan)
    as (ws & hi & lo & Hws & Hw & Hrun).
  cbv zeta in Hrun.
  destruct (rewritten_sum img hi lo ws Hspan Hws Hw) as (ws' & Hun & Hsum & ->).
  eexists _, _, _, ws, _. split; [exact Hrun|].
  split; [apply lookup_second_last|].
  split; [exact Hun|]. split; [exact Hsum | reflexivity].
Qed.

(** C10. Frame condition of VIN patching: for every 1 MiB image and every
    17-character VIN found in the CAL region, [patch_vin] returns a new
    buffer of the length of the input; its bytes outside the CAL region
    are those of the input, and inside the CAL region it can differ from
    the input only in the 17 bytes at the first occurrence of the VIN and
    in the final two bytes; the input object, and every other object of
    the store, is left as it was. *)
Theorem patch_vin_frame (h : list (list byte)) (image : ref)
    (img : list byte) (vin : str) (vb : list byte) (i : nat) :
  h !! image = Some img ->
  Z.of_nat (length img) = FLASH_SIZE ->
  length vin = 17%nat -> encode_ascii vin = Some vb ->
  occurs_at (cal_of img) vb i ->
  exists (out : ref) (h' : list (list byte)) (res : list byte) (idx : nat),
    patch_vin image vin h = (Ok out, h')
    /\ h' !! out = Some res
    /\ find (cal_of img) vb = Some idx
    /\ length res = length img
    /\ (forall j : nat,
          (j < nCAL_START \/ nCAL_END <= j)%nat ->
          res !! j = img !! j)
    /\ (forall j : nat,
          (nCAL_START <= j < nCAL_END)%nat ->
          ~ (nCAL_START + idx <= j < nCAL_START + idx + 17)%nat ->
          ~ (nCAL_END - 2 <= j < nCAL_END)%nat ->
          res !! j = img !! j)
    /\ out <> image
    /\ h !! out = None
    /\ h' !! image = Some img
    /\ (forall r : ref, (r < length h)%nat -> h' !! r = h !! r).
Proof.
  intros Himg Hsize Hlen Henc Hocc.
  pose proof cal_layout as [HS HE].
  pose proof (flash_spans_cal img Hsize) as Hspan.
  destruct (occurs_find _ _ _ Hocc) as (idx & Hfind & _).
  destruct (patch_vin_run h image img vin vb idx Himg Hlen Henc Hfind Hspan)
    as (ws & hi & lo & Hws & Hw & Hrun).
  cbv zeta in Hrun.
  pose proof (lookup_lt_Some _ _ _ Himg) as Hin.
  eexists _, _, _, idx. split; [exact Hrun|].
  split; [apply lookup_second_last|]. split; [exact Hfind|].
  split; [apply rewritten_length, Hspan|].
  split; [intros j Hj; apply rewritten_lookup; lia|].
  split; [intros j Hj _ Hn; apply rewritten_lookup; lia|].
  split; [lia|].
  split; [apply lookup_ge_None_2; lia|].
  split.
  - rewrite lookup_app_l by (rewrite length_app; cbn [length]; lia).
    rewrite lookup_app_l by lia. exact Himg.
  - intros r Hr.
    rewrite lookup_app_l by (rewrite length_app; cbn [length]; lia).
    rewrite lookup_app_l by lia. reflexivity.
Qed.

Lemma patch_vin_checksum_witness :
  let vin : str :=
    [87; 66; 65; 80; 77; 55; 51; 53; 48; 57; 69; 49; 50; 51; 52; 53; 54]%N in
  let vb := map (fun c => z2b (Z.of_N c)) vin in
  let img := replicate (Z.to_nat 0x10000) Byte.xff ++ replicate 100 Byte.x01
             ++ vb ++ replicate (Z.to_nat 0x3FF8B) Byte.x01
             ++ replicate (Z.to_nat 0xB0000) Byte.xff in
  [img] !! 0%nat = Some img
  /\ Z.of_nat (length img) = FLASH_SIZE
  /\ length vin = 17%nat /\ encode_ascii vin = Some vb
  /\ occurs_at (cal_of img) vb 100
  /\ exists (out : ref) (h' : list (list byte)) (res : list byte)
            (ws : list Z) (last : Z),
       patch_vin 0 vin [img] = (Ok out, h')
       /\ h' !! out = Some res
       /\ iter_unpack_H (cal_of res) = Some (ws ++ [last])
       /\ py_sum (ws ++ [last]) mod 2 ^ 16 = 0
       /\ last = (- py_sum ws) mod 2 ^ 16.
Proof.
  intros vin vb img.
  assert (H1 : [img] !! 0%nat = Some img) by reflexivity.
  assert (H2 : Z.of_nat (length img) = FLASH_SIZE) by (vm_compute; reflexivity).
  assert (H3 : length vin = 17%nat) by reflexivity.
  assert (H4 : encode_ascii vin = Some vb) by reflexivity.
  assert (H5 : occurs_at (cal_of img) vb 100) by (vm_compute; reflexivity).
  split; [exact H1|]. split; [exact H2|]. split; [exact H3|].
  split; [exact H4|]. split; [exact H5|].
  exact (patch_vin_checksum [img] 0 img vin vb 100 H1 H2 H3 H4 H5).
Defined.

Lemma patch_vin_frame_witness :
  let vin : str :=
    [87; 66; 65; 80; 77; 55; 51; 53; 48; 57; 69; 49; 50; 51; 52; 53; 54]%N in
  let vb := map (fun c => z2b (Z.of_N c)) vin in
  let img := replicate (Z.to_nat 0x10000) Byte.xff ++ replicate 100 Byte.x01
             ++ vb ++ replicate (Z.to_nat 0x3FF8B) Byte.x01
             ++ replicate (Z.to_nat 0xB0000) Byte.xff in
  [img] !! 0%nat = Some img
  /\ Z.of_nat (length img) = FLASH_SIZE
  /\ length vin = 17%nat /\ encode_ascii vin = Some vb
  /\ occurs_at (cal_of img) vb 100
  /\ exists (out : ref) (h' : list (list byte)) (res : list byte),
       patch_vin 0 vin [img] = (Ok out, h')
       /\ h' !! out = Some res
       /\ length res = length img
       /\ out <> 0%nat
       /\ h' !! 0%nat = Some img.
Proof.
  intros vin vb img.
  assert (H1 : [img] !! 0%nat = Some img) by reflexivity.
  assert (H2 : Z.of_nat (length img) = FLASH_SIZE) by (vm_compute; reflexivity).
  assert (H3 : length vin = 17%nat) by reflexivity.
  assert (H4 : encode_ascii vin = Some vb) by reflexivity.
  assert (H5 : occurs_at (cal_of img) vb 100) by (vm_compute; reflexivity).
  split; [exact H1|]. split; [exact H2|]. split; [exact H3|].
  split; [exact H4|]. split; [exact H5|].
  destruct (patch_vin_frame [img] 0 img vin vb 100 H1 H2 H3 H4 H5)
    as (out & h' & res & idx & Hrun & Hout & _ & Hlen & _ & _ & Hne & _ & Hin & _).
  exists out, h', res.
  split; [exact Hrun|]. split; [exact Hout|]. split; [exact Hlen|].
  split; [exact Hne | exact Hin].
Defined.

(** [patch_vin] on a VIN of 17 characters never reports [InvalidVin]. *)
Lemma patch_vin_17_not_invalid (h : list (list byte)) (image : ref)
    (vin : str) :
  length vin = 17%nat -> fst (patch_vin image vin h) <> Raise InvalidVin.
Proof.
  intros Hlen. unfold patch_vin. rewrite Hlen. cbn [Nat.eqb negb].
  unfold bind at 1. unfold load at 1.
  destruct (h !! image) as [img|]; [|discriminate].
  unfold bind at 1. unfold alloc at 1.
  destruct (encode_ascii vin) as [vb|]; [|discriminate].
  unfold bind at 1. unfold load at 1. rewrite lookup_last.
  destruct (find _ vb) as [idx|]; [|discriminate].
  unfold bind at 1. unfold load at 1. rewrite lookup_last.
  unfold bind at 1. unfold store at 1. rewrite insert_last.
  unfold bind at 1. unfold _fix_cal_checksum.
  unfold bind at 1. unfold load at 1. rewrite lookup_last.
  destruct (iter_unpack_H _) as [ws|]; [|discriminate].
  destruct (to_bytes_big 2 _) as [cb|]; [|discriminate].
  unfold bind at 1. unfold load at 1. rewrite lookup_last.
  unfold store at 1. rewrite insert_last.
  unfold bind at 1. unfold load at 1. rewrite lookup_last.
  discriminate.
Qed.

(** C8 (as the code has it).  [patch_vin] fails with [InvalidVin] if and
    only if the VIN does not have exactly 17 characters.  Given a VIN of 17
    ASCII characters, it fails with [VinNotFound] if and only if the VIN's
    bytes do not occur in the CAL region of the image; otherwise, on an
    image that contains the whole CAL region (every 1 MiB image does), it
    succeeds: the 17 bytes at the first occurrence are overwritten with the
    VIN and the checksum word is rewritten.  A VIN of 17 characters that
    are not all ASCII fails with [UnicodeEncodeError] instead. *)
Theorem patch_vin_failures (h : list (list byte)) (image : ref)
    (img : list byte) (vin : str) :
  h !! image = Some img ->
  (fst (patch_vin image vin h) = Raise InvalidVin <-> length vin <> 17%nat)
  /\ (length vin = 17%nat -> encode_ascii vin = None ->
      fst (patch_vin image vin h) = Raise UnicodeEncodeError)
  /\ (forall vb : list byte,
        length vin = 17%nat -> encode_ascii vin = Some vb ->
        (fst (patch_vin image vin h) = Raise VinNotFound
         <-> forall i : nat, ~ occurs_at (cal_of img) vb i)
        /\ (forall i : nat,
              occurs_at (cal_of img) vb i -> (nCAL_END <= length img)%nat ->
              exists (out : ref) (h' : list (list byte)) (res : list byte)
                     (idx : nat),
                patch_vin image vin h = (Ok out, h')
                /\ h' !! out = Some res
                /\ occurs_at (cal_of img) vb idx
                /\ (forall j : nat, (j < idx)%nat ->
                                    ~ occurs_at (cal_of img) vb j)
                /\ (forall k : nat,
                      (k < 17)%nat ->
                      (nCAL_START + idx + k < nCAL_END - 2)%nat ->
                      res !! (nCAL_START + idx + k)%nat = vb !! k)
                /\ exists ws : list Z,
                     iter_unpack_H (cal_of res) = Some ws
                     /\ py_sum ws mod 2 ^ 16 = 0)).
Proof.
  intros Himg. split; [|split].
  - split.
    + intros Hres Hlen. exact (patch_vin_17_not_invalid h image vin Hlen Hres).
    + intros Hlen. unfold patch_vin.
      destruct (Nat.eqb_spec (length vin) 17) as [|_]; [contradiction|].
      reflexivity.
  - intros Hlen Henc. unfold patch_vin. rewrite Hlen. cbn [Nat.eqb negb].
    unfold bind at 1. unfold load at 1. rewrite Himg.
    unfold bind at 1. unfold alloc at 1. rewrite Henc. reflexivity.
  - intros vb Hlen Henc. split.
    + unfold patch_vin. rewrite Hlen. cbn [Nat.eqb negb].
      unfold bind at 1. unfold load at 1. rewrite Himg.
      unfold bind at 1. unfold alloc at 1. rewrite Henc.
      unfold bind at 1. unfold load at 1. rewrite lookup_last.
      fold (cal_of img). split.
      * intros Hres. apply find_None.
        destruct (find (cal_of img) vb) as [idx|] eqn:Hf; [|reflexivity].
        exfalso. revert Hres.
        unfold bind at 1. unfold load at 1. rewrite lookup_last.
        unfold bind at 1. unfold store at 1. rewrite insert_last.
        unfold bind at 1. unfold _fix_cal_checksum.
        unfold bind at 1. unfold load at 1. rewrite lookup_last.
        destruct (iter_unpack_H _) as [ws|]; [|discriminate].
        destruct (to_bytes_big 2 _) as [cb|]; [|discriminate].
        unfold bind at 1. unfold load at 1. rewrite lookup_last.
        unfold store at 1. rewrite insert_last.
        unfold bind at 1. unfold load at 1. rewrite lookup_last.
        discriminate.
      * intros Hno. apply find_None in Hno. rewrite Hno. reflexivity.
    + intros i Hocc Hspan.
      destruct (occurs_find _ _ _ Hocc) as (idx & Hfind & _).
      destruct (patch_vin_run h image img vin vb idx Himg Hlen Henc Hfind Hspan)
        as (ws & hi & lo & Hws & Hw & Hrun).
      cbv zeta in Hrun.
      destruct (find_Some _ _ _ Hfind) as [Hat Hleast].
      pose proof (encode_ascii_length vin vb Henc) as Hvb. rewrite Hlen in Hvb.
      destruct (occurs_in_cal img vb idx Hspan ltac:(lia) Hat) as [Hin Hfit].
      destruct (rewritten_sum img hi lo ws Hspan Hws Hw) as (ws' & Hun & Hsum & _).
      eexists _, _, _, idx. split; [exact Hrun|].
      split; [apply lookup_second_last|]. split; [exact Hat|].
      split; [exact Hleast|]. split; [|exists ws'; split; assumption].
      intros k Hk Hbelow. rewrite rewritten_lookup by lia.
      rewrite <- Hin, lookup_take_lt by lia.
      rewrite lookup_drop. reflexivity.
Qed.

Lemma patch_vin_failures_witness :
  let vin : str :=
    [87; 66; 65; 80; 77; 55; 51; 53; 48; 57; 69; 49; 50; 51; 52; 53; 54]%N in
  let vb := map (fun c => z2b (Z.of_N c)) vin in
  let img := replicate (Z.to_nat 0x10000) Byte.xff ++ replicate 100 Byte.x01
             ++ vb ++ replicate (Z.to_nat 0x3FF8B) Byte.x01
             ++ replicate (Z.to_nat 0xB0000) Byte.xff in
  [img] !! 0%nat = Some img
  /\ length vin = 17%nat /\ encode_ascii vin = Some vb
  /\ occurs_at (cal_of img) vb 100
  /\ (nCAL_END <= length img)%nat
  /\ exists (out : ref) (h' : list (list byte)) (res : list byte),
       patch_vin 0 vin [img] = (Ok out, h') /\ h' !! out = Some res.
Proof.
  intros vin vb img.
  assert (H1 : [img] !! 0%nat = Some img) by reflexivity.
  assert (H3 : length vin = 17%nat) by reflexivity.
  assert (H4 : encode_ascii vin = Some vb) by reflexivity.
  assert (H5 : occurs_at (cal_of img) vb 100) by (vm_compute; reflexivity).
  assert (H6 : (nCAL_END <= length img)%nat)
    by (apply flash_spans_cal; vm_compute; reflexivity).
  split; [exact H1|]. split; [exact H3|]. split; [exact H4|].
  split; [exact H5|]. split; [exact H6|].
  destruct (proj2 (proj2 (proj2 (patch_vin_failures [img] 0 img vin H1))
                     vb H3 H4) 100%nat H5 H6)
    as (out & h' & res & idx & Hrun & Hout & _).
  exists out, h', res. split; assumption.
Defined.

(** C8 as stated does not hold: a VIN of exactly 17 characters, one of
    them the non-ASCII letter U+00E9, makes [patch_vin] fail in
    [new_vin.encode("ascii")] with [UnicodeEncodeError], which is neither
    of the two failures the claim allows nor success. *)
Lemma patch_vin_non_ascii_vin :
  let vin : str :=
    [233; 66; 65; 80; 77; 55; 51; 53; 48; 57; 69; 49; 50; 51; 52; 53; 54]%N in
  let img := replicate (Z.to_nat FLASH_SIZE) Byte.x00 in
  let outcome := fst (patch_vin 0 vin [img]) in
  length vin = 17%nat
  /\ Z.of_nat (length img) = FLASH_SIZE
  /\ outcome = Raise UnicodeEncodeError
  /\ outcome <> Raise InvalidVin
  /\ outcome <> Raise VinNotFound
  /\ (forall out : ref, outcome <> Ok out).
Proof.
  intros vin img outcome.
  assert (H : outcome = Raise UnicodeEncodeError) by (vm_compute; reflexivity).
  split; [reflexivity|]. split; [vm_compute; reflexivity|].
  split; [exact H|]. rewrite H. repeat split; discriminate.
Qed.

(** * Further properties of the transport *)


(** ** The sender without a usable FlowControl *)

Lemma _recv_raw_not_fc (tp : IsoTp) (w : World) :
  is_flow_control tp (next_event (rx_queue w)) = false ->
  forall msg : string,
    (let! fc := _recv tp true in flow_control fc msg) w
    = (Raise (RuntimeError msg),
       mkWorld (drop 1 (rx_queue w)) (tx_log w) (slept w) (files w)).
Proof.
  intros Hfc msg. unfold bind, _recv, bind, bus_recv.
  destruct (rx_queue w) as [|[f|] q] eqn:E; cbn [next_event] in Hfc.
  - cbn. destruct w; cbn in E; subst; reflexivity.
  - cbn [is_flow_control] in Hfc. cbn [drop].
    destruct (arbitration_id f =? rx_id tp); cbn [negb andb] in *;
      [|reflexivity].
    unfold ret, flow_control.
    destruct (data f) as [|f0 d]; [reflexivity|].
    rewrite Hfc. reflexivity.
  - reflexivity.
Qed.

(** X1. A payload of more than 7 bytes whose First frame is not answered
    by a FlowControl frame (timeout, frame on another identifier, empty
    frame, or a first byte whose high nibble is not 3): [_send] fails with
    "No FlowControl"; the First frame is all it has transmitted, and the
    event it read is gone. *)
Theorem _send_no_flow_control (tp : IsoTp) (p : list byte) (w : World) :
  (7 < length p)%nat ->
  is_flow_control tp (next_event (rx_queue w)) = false ->
  _send tp p w
  = (Raise (RuntimeError "No FlowControl"),
     mkWorld (drop 1 (rx_queue w)) (tx_log w ++ [first_frame tp p])
       (slept w) (files w)).
Proof.
  intros Hp Hfc. unfold _send.
  destruct (Nat.leb_spec (length p) 7) as [|_]; [lia|].
  unfold bind at 1. unfold bus_send at 1.
  set (w1 := mkWorld _ _ _ _).
  pose proof (_recv_raw_not_fc tp w1 Hfc "No FlowControl") as H.
  unfold bind in H |- *.
  destruct (_recv tp true w1) as [[fc|e] w2];
    [|injection H as -> ->; reflexivity].
  destruct (flow_control fc "No FlowControl" w2) as [[[s b]|e] w3];
    [discriminate H|].
  injection H as -> ->. reflexivity.
Qed.

Lemma _send_no_flow_control_witness :
  let p := replicate 20 Byte.xaa in
  let stray := mkFrame CAN_ID_RESP (Byte.x21 :: zeros 7) in
  let w := mkWorld [Some stray] [] [] [] in
  (7 < length p)%nat
  /\ is_flow_control flasher_tp (next_event (rx_queue w)) = false
  /\ _send flasher_tp p w
     = (Raise (RuntimeError "No FlowControl"),
        mkWorld [] [first_frame flasher_tp p] [] []).
Proof.
  intros p stray w.
  assert (H1 : (7 < length p)%nat) by (cbn; lia).
  assert (H2 : is_flow_control flasher_tp (next_event (rx_queue w)) = false)
    by reflexivity.
  split; [exact H1|]. split; [exact H2|].
  exact (_send_no_flow_control flasher_tp p w H1 H2).
Defined.

(** ** The sender under a block size *)

Section BlockSize.
Variable tp : IsoTp.
Variables (f0 bsb stb : byte) (rest : list byte).
Hypothesis Hf0 : Z.shiftr (b2z f0) 4 = 3.
Variable b : nat.
Hypothesis Hb : b2z bsb = Z.of_nat b.
Hypothesis Hpos : (0 < b)%nat.

Local Abbreviation fc := (mkFrame (rx_id tp) (f0 :: bsb :: stb :: rest)).
Local Abbreviation st := (b2z stb).

Lemma _recv_raw_fc (msg : string) (w : World) (q : list (option Frame)) :
  rx_queue w = Some fc :: q ->
  (let! r := _recv tp true in flow_control r msg) w
  = (Ok (st, Z.of_nat b), mkWorld q (tx_log w) (slept w) (files w)).
Proof.
  intros Hq. unfold bind, _recv, bind, bus_recv. rewrite Hq.
  cbn [arbitration_id data]. rewrite Z.eqb_refl. cbn [negb].
  unfold ret, flow_control. rewrite Hf0. change (3 =? 3) with true.
  cbn [negb lookup list_lookup]. rewrite Hb. reflexivity.
Qed.

Lemma sleep_step (s : Z) (w : World) :
  (if s <=? 127 then sleep_ms s else ret tt) w
  = (Ok tt, mkWorld (rx_queue w) (tx_log w) (slept w ++ st_sleeps s 1)
              (files w)).
Proof.
  unfold st_sleeps. destruct (s <=? 127); unfold sleep_ms, ret; cbn;
    [reflexivity | rewrite app_nil_r; destruct w; reflexivity].
Qed.

Lemma st_sleeps_S (s : Z) (m : nat) :
  st_sleeps s 1 ++ st_sleeps s m = st_sleeps s (S m).
Proof. unfold st_sleeps; destruct (s <=? 127); reflexivity. Qed.

Lemma cf_ptr (p : list byte) (k : nat) :
  (6 + 7 * k <= length p)%nat ->
  (6 + 7 * k + length (slice p (6 + 7 * k) (6 + 7 * k + 7)))%nat
  = Nat.min (6 + 7 * S k) (length p).
Proof. rewrite length_slice. lia. Qed.

Lemma cf_count_more (p : list byte) (m k : nat) :
  (S m + k = cf_count p)%nat -> (6 + 7 * k < length p)%nat.
Proof.
  unfold cf_count. intros H.
  pose proof (Nat.div_mod_eq (length p - 6 + 6) 7).
  pose proof (Nat.mod_upper_bound (length p - 6 + 6) 7). lia.
Qed.

Lemma cf_count_done (p : list byte) (k : nat) :
  (k = cf_count p)%nat -> (length p <= 6 + 7 * k)%nat.
Proof.
  unfold cf_count. intros H.
  pose proof (Nat.div_mod_eq (length p - 6 + 6) 7).
  pose proof (Nat.mod_upper_bound (length p - 6 + 6) 7). lia.
Qed.

(** One round of the Consecutive-frame loop under block size [b], with
    the counter at [c < b]. *)
Lemma send_loop_step (p : list byte) (fuel k c : nat) (w : World) :
  (6 + 7 * k < length p)%nat -> (c < b)%nat ->
  send_loop tp (S fuel) p (Nat.min (6 + 7 * k) (length p))
    ((Z.of_nat k + 1) mod 16) (Z.of_nat c) st (Z.of_nat b) w
  = let w1 := mkWorld (rx_queue w) (tx_log w ++ [consecutive_frame tp p k])
                (slept w) (files w) in
    if (S c =? b)%nat then
      (let! x := (let! r := _recv tp true in
                  flow_control r "Missing FC mid-transfer") in
       (if fst x <=? 127 then sleep_ms (fst x) else ret tt) ;;;
       send_loop tp fuel p (Nat.min (6 + 7 * S k) (length p))
         ((Z.of_nat (S k) + 1) mod 16) 0 (fst x) (snd x)) w1
    else
      ((if st <=? 127 then sleep_ms st else ret tt) ;;;
       send_loop tp fuel p (Nat.min (6 + 7 * S k) (length p))
         ((Z.of_nat (S k) + 1) mod 16) (Z.of_nat (S c)) st (Z.of_nat b)) w1.
Proof.
  intros Hk Hc. rewrite Nat.min_l by lia. cbn [send_loop].
  destruct (Nat.ltb_spec (6 + 7 * k) (length p)) as [_|]; [|lia].
  unfold bind at 1. unfold bus_send at 1.
  rewrite cf_ptr by lia. rewrite land_succ_mod16, land_mod16.
  replace (Z.of_nat k + 1 + 1) with (Z.of_nat (S k) + 1) by lia.
  replace (Z.of_nat c + 1) with (Z.of_nat (S c)) by lia.
  unfold consecutive_frame. cbv zeta.
  destruct (Z.eqb_spec (Z.of_nat b) 0) as [|_]; [lia|]. cbn [negb andb].
  destruct (Nat.eqb_spec (S c) b) as [E|E].
  - destruct (Z.leb_spec (Z.of_nat b) (Z.of_nat (S c))) as [_|]; [|lia].
    unfold bind.
    destruct (_recv tp true _) as [[r|e] w2]; [|reflexivity].
    destruct (flow_control r _ w2) as [[[s' b']|e] w3]; reflexivity.
  - destruct (Z.leb_spec (Z.of_nat b) (Z.of_nat (S c))) as [|_]; [lia|].
    reflexivity.
Qed.

Lemma consecutive_frames_S (p : list byte) (k j : nat) :
  consecutive_frames tp p k (S j)
  = consecutive_frame tp p k :: consecutive_frames tp p (S k) j.
Proof. reflexivity. Qed.

(** With [(c + m) / b] FlowControl frames at hand the loop sends its
    remaining [m] frames. *)
Lemma send_loop_blocks (p : list byte) :
  forall (m k fuel c : nat) (w : World) (q : list (option Frame)),
    (m + k = cf_count p)%nat -> (6 <= length p)%nat -> (m <= fuel)%nat ->
    (c < b)%nat ->
    rx_queue w = replicate ((c + m) / b) (Some fc) ++ q ->
    send_loop tp fuel p (Nat.min (6 + 7 * k) (length p))
      ((Z.of_nat k + 1) mod 16) (Z.of_nat c) st (Z.of_nat b) w
    = (Ok tt, mkWorld q (tx_log w ++ consecutive_frames tp p k m)
                (slept w ++ st_sleeps st m) (files w)).
Proof.
  induction m as [|m IH]; intros k fuel c w q Hk Hlen Hfuel Hc Hq.
  - apply cf_count_done in Hk. rewrite Nat.min_r by lia.
    rewrite Nat.add_0_r, Nat.div_small in Hq by lia. cbn in Hq.
    destruct fuel; cbn [send_loop]; rewrite Nat.ltb_irrefl; unfold ret, st_sleeps;
      destruct (st <=? 127); cbn; rewrite !app_nil_r; destruct w; cbn in Hq;
      subst; reflexivity.
  - pose proof (cf_count_more p m k Hk) as Hlt.
    destruct fuel as [|fuel]; [lia|].
    rewrite send_loop_step by assumption. cbv zeta.
    destruct (Nat.eqb_spec (S c) b) as [E|E].
    + replace (c + S m)%nat with (m + 1 * b)%nat in Hq by lia.
      rewrite Nat.div_add in Hq by lia.
      replace (m / b + 1)%nat with (S (m / b)) in Hq by lia.
      cbn [replicate app] in Hq.
      unfold bind at 1.
      rewrite (_recv_raw_fc _ _ (replicate (m / b) (Some fc) ++ q))
        by exact Hq.
      cbn [fst snd]. unfold bind at 1. rewrite sleep_step.
      rewrite (IH (S k) fuel 0%nat _ q);
        [| lia | lia | lia | lia | reflexivity].
      cbn [rx_queue tx_log slept files]. rewrite <- !app_assoc.
      rewrite st_sleeps_S. reflexivity.
    + unfold bind at 1. rewrite sleep_step.
      rewrite (IH (S k) fuel (S c) _ q);
        [| lia | lia | lia | lia
         | cbn [rx_queue]; rewrite Hq; f_equal; f_equal; f_equal; lia].
      cbn [rx_queue tx_log slept files]. rewrite <- !app_assoc.
      rewrite st_sleeps_S. reflexivity.
Qed.

(** With only [n] FlowControl frames at hand where the remaining [m]
    frames need more, the loop stops at the frame after which the missing
    one was due. *)
Lemma send_loop_starved (p : list byte) :
  forall (m n k fuel c : nat) (w : World) (q : list (option Frame)),
    (m + k = cf_count p)%nat -> (6 <= length p)%nat -> (m <= fuel)%nat ->
    (c < b)%nat -> (S n * b <= c + m)%nat ->
    rx_queue w = replicate n (Some fc) ++ q ->
    is_flow_control tp (next_event q) = false ->
    send_loop tp fuel p (Nat.min (6 + 7 * k) (length p))
      ((Z.of_nat k + 1) mod 16) (Z.of_nat c) st (Z.of_nat b) w
    = (Raise (RuntimeError "Missing FC mid-transfer"),
       mkWorld (drop 1 q)
         (tx_log w ++ consecutive_frames tp p k (S n * b - c))
         (slept w ++ st_sleeps st (S n * b - c - 1)) (files w)).
Proof.
  induction m as [|m IH]; intros n k fuel c w q Hk Hlen Hfuel Hc Hn Hq Hfc.
  - nia.
  - pose proof (cf_count_more p m k Hk) as Hlt.
    destruct fuel as [|fuel]; [lia|].
    rewrite send_loop_step by assumption. cbv zeta.
    destruct (Nat.eqb_spec (S c) b) as [E|E].
    + destruct n as [|n].
      * cbn [replicate app] in Hq. unfold bind at 1.
        rewrite _recv_raw_not_fc by (cbn [rx_queue]; rewrite Hq; exact Hfc).
        cbn [rx_queue tx_log slept files]. rewrite Hq.
        replace (1 * b - c)%nat with 1%nat by lia.
        cbn [Nat.sub]. unfold st_sleeps.
        destruct (st <=? 127); cbn [replicate]; rewrite app_nil_r;
          reflexivity.
      * cbn [replicate app] in Hq. unfold bind at 1.
        rewrite (_recv_raw_fc _ _ (replicate n (Some fc) ++ q)) by exact Hq.
        cbn [fst snd]. unfold bind at 1. rewrite sleep_step.
        rewrite (IH n (S k) fuel 0%nat _ q);
          [| lia | lia | lia | lia | nia | reflexivity | exact Hfc].
        cbn [rx_queue tx_log slept files]. rewrite <- !app_assoc.
        rewrite st_sleeps_S.
        replace (S (S n) * b - c)%nat with (S (S n * b - 0)) by nia.
        replace (S (S n * b - 0) - 1)%nat with (S (S n * b - 0 - 1)) by nia.
        reflexivity.
    + unfold bind at 1. rewrite sleep_step.
      rewrite (IH n (S k) fuel (S c) _ q);
        [| lia | lia | lia | lia | nia | exact Hq | exact Hfc].
      cbn [rx_queue tx_log slept files]. rewrite <- !app_assoc.
      rewrite st_sleeps_S.
      replace (S n * b - c)%nat with (S (S n * b - S c)) by nia.
      replace (S (S n * b - S c) - 1)%nat with (S (S n * b - S c - 1)) by nia.
      reflexivity.
Qed.
End BlockSize.

(** After a FlowControl answer to the First frame, [_send] runs the
    Consecutive-frame loop with the separation time and block size of that
    answer. *)
Lemma _send_first_fc (tp : IsoTp) (p : list byte) (w : World)
    (f0 bsb stb : byte) (rest : list byte) (q : list (option Frame)) :
  (7 < length p)%nat ->
  Z.shiftr (b2z f0) 4 = 3 ->
  rx_queue w = Some (mkFrame (rx_id tp) (f0 :: bsb :: stb :: rest)) :: q ->
  _send tp p w
  = send_loop tp (length p) p (Nat.min (6 + 7 * 0) (length p))
      ((Z.of_nat 0 + 1) mod 16) (Z.of_nat 0) (b2z stb) (b2z bsb)
      (mkWorld q (tx_log w ++ [first_frame tp p]) (slept w) (files w)).
Proof.
  intros Hp Hf0 Hq. unfold _send.
  destruct (Nat.leb_spec (length p) 7) as [|_]; [lia|].
  unfold bind at 1. unfold bus_send at 1.
  unfold bind at 1. unfold _recv at 1. unfold bind at 1.
  unfold bus_recv at 1. cbn [rx_queue tx_log slept files]. rewrite Hq.
  cbn [arbitration_id data]. rewrite Z.eqb_refl. cbn [negb].
  unfold ret at 1. unfold bind at 1. unfold flow_control at 1.
  rewrite Hf0. change (3 =? 3) with true. cbn [negb].
  cbn [lookup list_lookup]. unfold ret at 1.
  rewrite Nat.min_l by lia. reflexivity.
Qed.

(** X2. Under a FlowControl block size [b >= 1] the sender waits for a
    further FlowControl frame after every [b] Consecutive frames: given
    [1 + cf_count p / b] FlowControl frames it transmits the whole
    segmented payload, consumes exactly those frames and sleeps the
    separation time once per Consecutive frame. *)
Theorem _send_block_size (tp : IsoTp) (p : list byte) (w : World)
    (f0 bsb stb : byte) (rest : list byte) (b : nat)
    (q : list (option Frame)) :
  (7 < length p)%nat ->
  Z.shiftr (b2z f0) 4 = 3 ->
  b2z bsb = Z.of_nat b -> (0 < b)%nat ->
  rx_queue w
  = replicate (1 + cf_count p / b)
      (Some (mkFrame (rx_id tp) (f0 :: bsb :: stb :: rest))) ++ q ->
  _send tp p w
  = (Ok tt, mkWorld q (tx_log w ++ segments tp p)
              (slept w ++ st_sleeps (b2z stb) (cf_count p)) (files w)).
Proof.
  intros Hp Hf0 Hb Hpos Hq. cbn [Nat.add replicate app] in Hq.
  rewrite (_send_first_fc tp p w f0 bsb stb rest _ Hp Hf0 Hq), Hb.
  rewrite (send_loop_blocks tp f0 bsb stb rest Hf0 b Hb Hpos p
             (cf_count p) 0 (length p) 0 _ q);
    [| lia | lia | apply cf_count_le | lia | reflexivity].
  cbn [rx_queue tx_log slept files]. unfold segments.
  destruct (Nat.leb_spec (length p) 7) as [|_]; [lia|].
  rewrite <- app_assoc. reflexivity.
Qed.

Lemma _send_block_size_witness :
  let p := map (fun k => z2b (Z.of_nat k)) (seq 0 27) in
  let fc := mkFrame CAN_ID_RESP
              [Byte.x30; Byte.x02; Byte.x05; Byte.x00] in
  let w := mkWorld [Some fc; Some fc; None] [] [] [] in
  _send flasher_tp p w
  = (Ok tt, mkWorld [None] (segments flasher_tp p) [5; 5; 5] []).
Proof.
  intros p fc w.
  exact (_send_block_size flasher_tp p w Byte.x30 Byte.x02 Byte.x05
           [Byte.x00] 2 [None] ltac:(cbn; lia) eq_refl eq_refl
           ltac:(lia) eq_refl).
Defined.

(** X3. When the FlowControl frames run out while Consecutive frames are
    still due, [_send] fails with "Missing FC mid-transfer" exactly at the
    block boundary: with [n] further FlowControl frames after the first it
    has transmitted the First frame and [(n + 1) * b] Consecutive frames,
    and has consumed the event it took for the missing FlowControl. *)
Theorem _send_missing_flow_control (tp : IsoTp) (p : list byte) (w : World)
    (f0 bsb stb : byte) (rest : list byte) (b n : nat)
    (q : list (option Frame)) :
  (7 < length p)%nat ->
  Z.shiftr (b2z f0) 4 = 3 ->
  b2z bsb = Z.of_nat b -> (0 < b)%nat ->
  (S n * b <= cf_count p)%nat ->
  rx_queue w
  = replicate (S n)
      (Some (mkFrame (rx_id tp) (f0 :: bsb :: stb :: rest))) ++ q ->
  is_flow_control tp (next_event q) = false ->
  _send tp p w
  = (Raise (RuntimeError "Missing FC mid-transfer"),
     mkWorld (drop 1 q)
       (tx_log w ++ first_frame tp p :: consecutive_frames tp p 0 (S n * b))
       (slept w ++ st_sleeps (b2z stb) (S n * b - 1)) (files w)).
Proof.
  intros Hp Hf0 Hb Hpos Hn Hq Hfc. cbn [replicate app] in Hq.
  rewrite (_send_first_fc tp p w f0 bsb stb rest _ Hp Hf0 Hq), Hb.
  rewrite (send_loop_starved tp f0 bsb stb rest Hf0 b Hb Hpos p
             (cf_count p) n 0 (length p) 0 _ q);
    [| lia | lia | apply cf_count_le | lia | lia | reflexivity | exact Hfc].
  cbn [rx_queue tx_log slept files].
  rewrite !Nat.sub_0_r, <- app_assoc. reflexivity.
Qed.

Lemma _send_missing_flow_control_witness :
  let p := map (fun k => z2b (Z.of_nat k)) (seq 0 27) in
  let fc := mkFrame CAN_ID_RESP
              [Byte.x30; Byte.x01; Byte.x00] in
  let w := mkWorld [Some fc; Some fc] [] [] [] in
  _send flasher_tp p w
  = (Raise (RuntimeError "Missing FC mid-transfer"),
     mkWorld []
       [first_frame flasher_tp p; consecutive_frame flasher_tp p 0;
        consecutive_frame flasher_tp p 1] [0] []).
Proof.
  intros p fc w.
  exact (_send_missing_flow_control flasher_tp p w Byte.x30 Byte.x01
           Byte.x00 [] 1 1 [] ltac:(cbn; lia) eq_refl eq_refl
           ltac:(lia) ltac:(cbn; lia) eq_refl eq_refl).
Defined.

(** X4. When the block size divides the number of Consecutive frames the
    sender asks for a FlowControl frame after the last of them as well.  A
    peer that acknowledges only the blocks followed by further frames
    therefore sees the complete message on the bus, while [_send] fails
    with "Missing FC mid-transfer" and has swallowed the event that
    followed, such as the first frame of the answer. *)
Theorem _send_block_size_exact (tp : IsoTp) (p : list byte) (w : World)
    (f0 bsb stb : byte) (rest : list byte) (b n : nat)
    (q : list (option Frame)) :
  (7 < length p)%nat ->
  Z.shiftr (b2z f0) 4 = 3 ->
  b2z bsb = Z.of_nat b -> (0 < b)%nat ->
  cf_count p = (S n * b)%nat ->
  rx_queue w
  = replicate (S n)
      (Some (mkFrame (rx_id tp) (f0 :: bsb :: stb :: rest))) ++ q ->
  is_flow_control tp (next_event q) = false ->
  let r := _send tp p w in
  fst r = Raise (RuntimeError "Missing FC mid-transfer")
  /\ tx_log (snd r) = tx_log w ++ segments tp p
  /\ rx_queue (snd r) = drop 1 q.
Proof.
  intros Hp Hf0 Hb Hpos Hn Hq Hfc. cbn [replicate app] in Hq.
  cbv zeta.
  rewrite (_send_first_fc tp p w f0 bsb stb rest _ Hp Hf0 Hq), Hb.
  rewrite (send_loop_starved tp f0 bsb stb rest Hf0 b Hb Hpos p
             (cf_count p) n 0 (length p) 0 _ q);
    [| lia | lia | apply cf_count_le | lia | lia | reflexivity | exact Hfc].
  cbn [fst snd rx_queue tx_log slept files].
  split; [reflexivity|]. split; [|reflexivity].
  unfold segments. destruct (Nat.leb_spec (length p) 7) as [|_]; [lia|].
  rewrite Nat.sub_0_r, <- Hn, <- app_assoc. reflexivity.
Qed.

Lemma _send_block_size_exact_witness :
  let p := map (fun k => z2b (Z.of_nat k)) (seq 0 20) in
  let fc := mkFrame CAN_ID_RESP [Byte.x30; Byte.x02; Byte.x00] in
  let answer := mkFrame CAN_ID_RESP (Byte.x02 :: Byte.x76 :: Byte.x01
                                       :: zeros 5) in
  let w := mkWorld [Some fc; Some answer] [] [] [] in
  let r := _send flasher_tp p w in
  fst r = Raise (RuntimeError "Missing FC mid-transfer")
  /\ tx_log (snd r) = segments flasher_tp p
  /\ rx_queue (snd r) = [].
Proof.
  intros p fc answer w.
  exact (_send_block_size_exact flasher_tp p w Byte.x30 Byte.x02
           Byte.x00 [] 2 0 [Some answer] ltac:(cbn; lia) eq_refl eq_refl
           ltac:(lia) eq_refl eq_refl eq_refl).
Defined.

(** ** The receiver's reassembly *)

Section Reassembly.
Variable tp : IsoTp.

Lemma recv_loop_completes (total : nat) :
  forall (fs : list Frame) (buf : list byte) (fuel : nat) (w : World)
         (q : list (option Frame)),
    Forall (fun f => arbitration_id f = rx_id tp) fs ->
    completes buf fs total -> (length fs <= fuel)%nat ->
    rx_queue w = map Some fs ++ q ->
    recv_loop tp fuel buf total w
    = (Ok (take total (buf ++ concat (map cf_payload fs))),
       mkWorld q (tx_log w) (slept w) (files w)).
Proof.
  induction fs as [|f fs IH]; intros buf fuel w q Hid Hc Hfuel Hq.
  - cbn in Hc, Hq. rewrite app_nil_r.
    destruct fuel; cbn [recv_loop];
      (destruct (Nat.ltb_spec (length buf) total) as [|_]; [lia|]);
      unfold ret; destruct w; cbn in Hq; subst; reflexivity.
  - destruct Hc as [Hlt Hc]. apply Forall_cons in Hid as [Hf Hid].
    destruct fuel as [|fuel]; [cbn in Hfuel; lia|].
    cbn [recv_loop].
    destruct (Nat.ltb_spec (length buf) total) as [_|]; [|lia].
    unfold bind at 1. unfold bus_recv at 1. rewrite Hq. cbn [map app].
    rewrite Hf, Z.eqb_refl. cbn [negb].
    rewrite (IH _ fuel _ q Hid Hc); [| cbn in Hfuel; lia | reflexivity].
    cbn [rx_queue tx_log slept files concat map].
    unfold cf_payload at 2. rewrite <- app_assoc. reflexivity.
Qed.

Lemma recv_loop_starved (total : nat) :
  forall (fs : list Frame) (buf : list byte) (fuel : nat) (w : World)
         (q : list (option Frame)),
    Forall (fun f => arbitration_id f = rx_id tp) fs ->
    (length (buf ++ concat (map cf_payload fs)) < total)%nat ->
    (length fs < fuel)%nat ->
    rx_queue w = map Some fs ++ q ->
    accepted tp (next_event q) = false ->
    recv_loop tp fuel buf total w
    = (Raise (RuntimeError "Consecutive frame timeout"),
       mkWorld (drop 1 q) (tx_log w) (slept w) (files w)).
Proof.
  induction fs as [|f fs IH]; intros buf fuel w q Hid Hlen Hfuel Hq Hacc;
    (destruct fuel as [|fuel]; [cbn in Hfuel; lia|]);
    cbn [recv_loop]; rewrite length_app in Hlen;
    (destruct (Nat.ltb_spec (length buf) total) as [_|]; [|lia]);
    unfold bind at 1; unfold bus_recv at 1; rewrite Hq; cbn [map app].
  - destruct q as [|[f|] q]; cbn [next_event accepted] in Hacc; cbn [drop].
    + destruct w; cbn in Hq; subst; reflexivity.
    + rewrite Hacc. reflexivity.
    + reflexivity.
  - apply Forall_cons in Hid as [Hf Hid].
    rewrite Hf, Z.eqb_refl. cbn [negb].
    rewrite (IH _ fuel _ q Hid); [reflexivity | | | reflexivity | exact Hacc].
    + cbn [map concat] in Hlen. rewrite !length_app in *.
      unfold cf_payload in *. lia.
    + cbn in Hfuel. lia.
Qed.

(** What [_recv] does with a First frame: the FlowControl answer, then
    the loop on the six data bytes the frame carries. *)
Lemma _recv_first_frame (ff : Frame) (d0 d1 : byte) (rest : list byte)
    (w : World) (q : list (option Frame)) :
  arbitration_id ff = rx_id tp ->
  data ff = d0 :: d1 :: rest ->
  Z.land (b2z d0) 0xF0 = 0x10 ->
  rx_queue w = Some ff :: q ->
  _recv tp false w
  = (let! buf := recv_loop tp (S (length q)) (take 6 rest) (ff_total d0 d1) in
     ret (Some buf))
      (mkWorld q (tx_log w ++ [flow_control_frame tp]) (slept w) (files w)).
Proof.
  intros Hff Hd Hp Hq.
  unfold _recv. unfold bind at 1. unfold bus_recv. rewrite Hq.
  rewrite Hff, Z.eqb_refl, Hd. cbn [negb]. rewrite Hp.
  change (16 =? 0) with false. change (16 =? 16) with true. cbn iota.
  cbn [lookup list_lookup].
  unfold bind at 1. unfold bus_send. unfold bind at 1. unfold pending.
  cbn [rx_queue tx_log slept files]. reflexivity.
Qed.
End Reassembly.

(** X5. After a First frame, [_recv] appends the data bytes of every
    further frame on its identifier in the order of arrival until the
    declared length is reached, and returns the first [total] bytes.  The
    sequence number and the frame type in the first byte of those frames
    play no part: frames out of order, repeated or of another type are
    taken as they come. *)
Theorem _recv_arrival_order (tp : IsoTp) (ff : Frame) (d0 d1 : byte)
    (rest : list byte) (fs : list Frame) (w : World)
    (q : list (option Frame)) :
  arbitration_id ff = rx_id tp ->
  data ff = d0 :: d1 :: rest ->
  Z.land (b2z d0) 0xF0 = 0x10 ->
  Forall (fun f => arbitration_id f = rx_id tp) fs ->
  completes (take 6 rest) fs (ff_total d0 d1) ->
  rx_queue w = Some ff :: map Some fs ++ q ->
  _recv tp false w
  = (Ok (Some (take (ff_total d0 d1)
                 (take 6 rest ++ concat (map cf_payload fs)))),
     mkWorld q (tx_log w ++ [flow_control_frame tp]) (slept w) (files w)).
Proof.
  intros Hff Hd Hp Hid Hc Hq.
  rewrite (_recv_first_frame tp ff d0 d1 rest w _ Hff Hd Hp Hq).
  unfold bind.
  rewrite (recv_loop_completes tp _ fs _ _ _ q Hid Hc);
    [reflexivity | | reflexivity].
  rewrite length_app, length_map. lia.
Qed.

Lemma _recv_arrival_order_witness :
  let ff := mkFrame CAN_ID_RESP
              [Byte.x10; Byte.x0a; Byte.x01; Byte.x02; Byte.x03; Byte.x04;
               Byte.x05; Byte.x06] in
  let cf2 := mkFrame CAN_ID_RESP [Byte.x22; Byte.x0a; Byte.x0b] in
  let sf := mkFrame CAN_ID_RESP [Byte.x01; Byte.x07; Byte.x08; Byte.x09] in
  let w := mkWorld [Some ff; Some cf2; Some sf; None] [] [] [] in
  _recv flasher_tp false w
  = (Ok (Some [Byte.x01; Byte.x02; Byte.x03; Byte.x04; Byte.x05; Byte.x06;
               Byte.x0a; Byte.x0b; Byte.x07; Byte.x08]),
     mkWorld [None] [flow_control_frame flasher_tp] [] []).
Proof.
  intros ff cf2 sf w.
  refine (_recv_arrival_order flasher_tp ff Byte.x10 Byte.x0a
            [Byte.x01; Byte.x02; Byte.x03; Byte.x04; Byte.x05; Byte.x06]
            [cf2; sf] w [None] eq_refl eq_refl eq_refl _ _ eq_refl).
  - repeat constructor.
  - vm_compute. lia.
Defined.

(** X6. A reassembly never yields a shortened payload: when the frames
    on its identifier carry fewer bytes than the First frame declared and
    the next event is a timeout or a frame on another identifier, [_recv]
    fails with "Consecutive frame timeout"; the bytes gathered so far are
    lost and the frames read are gone from the bus. *)
Theorem _recv_incomplete (tp : IsoTp) (ff : Frame) (d0 d1 : byte)
    (rest : list byte) (fs : list Frame) (w : World)
    (q : list (option Frame)) :
  arbitration_id ff = rx_id tp ->
  data ff = d0 :: d1 :: rest ->
  Z.land (b2z d0) 0xF0 = 0x10 ->
  Forall (fun f => arbitration_id f = rx_id tp) fs ->
  (length (take 6 rest ++ concat (map cf_payload fs)) < ff_total d0 d1)%nat ->
  rx_queue w = Some ff :: map Some fs ++ q ->
  accepted tp (next_event q) = false ->
  _recv tp false w
  = (Raise (RuntimeError "Consecutive frame timeout"),
     mkWorld (drop 1 q) (tx_log w ++ [flow_control_frame tp]) (slept w)
       (files w)).
Proof.
  intros Hff Hd Hp Hid Hlen Hq Hacc.
  rewrite (_recv_first_frame tp ff d0 d1 rest w _ Hff Hd Hp Hq).
  unfold bind.
  rewrite (recv_loop_starved tp _ fs _ _ _ q Hid Hlen);
    [reflexivity | | reflexivity | exact Hacc].
  rewrite length_app, length_map. lia.
Qed.

Lemma _recv_incomplete_witness :
  let ff := mkFrame CAN_ID_RESP
              [Byte.x10; Byte.x14; Byte.x01; Byte.x02; Byte.x03; Byte.x04;
               Byte.x05; Byte.x06] in
  let cf := mkFrame CAN_ID_RESP
              [Byte.x21; Byte.x07; Byte.x08; Byte.x09; Byte.x0a; Byte.x0b;
               Byte.x0c; Byte.x0d] in
  let w := mkWorld [Some ff; Some cf] [] [] [] in
  _recv flasher_tp false w
  = (Raise (RuntimeError "Consecutive frame timeout"),
     mkWorld [] [flow_control_frame flasher_tp] [] []).
Proof.
  intros ff cf w.
  refine (_recv_incomplete flasher_tp ff Byte.x10 Byte.x14
            [Byte.x01; Byte.x02; Byte.x03; Byte.x04; Byte.x05; Byte.x06]
            [cf] w [] eq_refl eq_refl eq_refl _ _ eq_refl eq_refl).
  - repeat constructor.
  - vm_compute. lia.
Defined.

(** * Further properties of the Flasher *)


(** ** The seed-to-key function as a permutation *)

Lemma lxor_16 (a b : Z) :
  0 <= a < 2 ^ 16 -> 0 <= b < 2 ^ 16 -> 0 <= Z.lxor a b < 2 ^ 16.
Proof.
  intros Ha Hb.
  assert (H0 : 0 <= Z.lxor a b) by (apply Z.lxor_nonneg; lia).
  split; [exact H0|].
  destruct (Z.eq_dec (Z.lxor a b) 0) as [->|Hne]; [lia|].
  apply Z.log2_lt_pow2; [lia|].
  pose proof (Z.log2_lxor a b ltac:(lia) ltac:(lia)) as Hl.
  assert (Z.log2 a < 16).
  { destruct (Z.eq_dec a 0) as [->|]; [cbn; lia|].
    apply Z.log2_lt_pow2; lia. }
  assert (Z.log2 b < 16).
  { destruct (Z.eq_dec b 0) as [->|]; [cbn; lia|].
    apply Z.log2_lt_pow2; lia. }
  lia.
Qed.

(** X7. On 16-bit seeds the seed-to-key function is a permutation: the
    key is again a 16-bit value, and the seed is recovered from it by
    subtracting 0x7F1B modulo 2^16 and undoing the XOR. *)
Theorem calc_key_msd80_inverse (s : Z) :
  0 <= s <= 0xFFFF ->
  0 <= calc_key_msd80 s <= 0xFFFF
  /\ Z.lxor ((calc_key_msd80 s - 0x7F1B) mod 2 ^ 16) 0x5A3C = s.
Proof.
  intros Hs. rewrite calc_key_msd80_mod.
  pose proof (lxor_16 s 0x5A3C ltac:(lia) ltac:(lia)) as Hx.
  pose proof (Z.mod_pos_bound (Z.lxor s 0x5A3C + 0x7F1B) (2 ^ 16) ltac:(lia)).
  split; [lia|].
  rewrite Zminus_mod_idemp_l.
  replace (Z.lxor s 23100 + 32539 - 32539) with (Z.lxor s 23100) by lia.
  rewrite Z.mod_small by lia.
  rewrite Z.lxor_assoc, Z.lxor_nilpotent, Z.lxor_0_r. reflexivity.
Qed.

Lemma calc_key_msd80_inverse_witness :
  0 <= calc_key_msd80 0xFFFF <= 0xFFFF
  /\ Z.lxor ((calc_key_msd80 0xFFFF - 0x7F1B) mod 2 ^ 16) 0x5A3C = 0xFFFF.
Proof. exact (calc_key_msd80_inverse 0xFFFF ltac:(lia)). Defined.

(** ** Answers and silence on the KWP level *)

(** A request that fits a Single frame and meets a timeout or a frame on
    another identifier. *)
Lemma _kwp_silence (sid : Z) `{Hsid : ByteRange sid} (payload : list byte)
    (w : World) :
  (length payload <= 6)%nat ->
  accepted flasher_tp (next_event (rx_queue w)) = false ->
  _kwp sid payload w
  = (Ok [], mkWorld (drop 1 (rx_queue w))
              (tx_log w ++ [single_frame flasher_tp (z2b sid :: payload)])
              (slept w) (files w)).
Proof.
  intros Hp Hacc. unfold _kwp. rewrite (Hsid : _ = true).
  unfold request. unfold bind at 1. unfold bind at 1.
  rewrite _send_single by (cbn [length app]; lia).
  unfold _recv, bind, bus_recv. cbn [rx_queue tx_log slept files].
  destruct (rx_queue w) as [|[f|] q]; cbn [next_event accepted] in Hacc;
    cbn [drop]; try reflexivity.
  rewrite Hacc. reflexivity.
Qed.

(** X8. One KWP exchange, for a service identifier that fits a byte.  A
    request of up to 4095 bytes met by an answer of 1 to 4095 bytes returns
    that answer unchanged, both sides segmenting as needed; a request
    fitting a Single frame that meets a timeout or a frame on another
    identifier returns the empty byte string instead of failing, which
    every service call then takes for a refusal.  A service identifier
    outside 0..255 is turned down by [bytes([sid])] with a ValueError
    before anything is sent. *)
Theorem _kwp_answer_or_silence (sid : Z) (payload : list byte) :
  (0 <= sid < 256 ->
   (forall (rs : list byte) (w : World) (q : list (option Frame)),
      (length (z2b sid :: payload) <= 4095)%nat ->
      (1 <= length rs <= 4095)%nat ->
      rx_queue w = kwp_script (z2b sid :: payload) rs ++ q ->
      _kwp sid payload w
      = (Ok rs, mkWorld q (tx_log w ++ kwp_sent (z2b sid :: payload) rs)
                  (slept w ++ kwp_slept (z2b sid :: payload)) (files w)))
   /\ (forall w : World,
         (length payload <= 6)%nat ->
         accepted flasher_tp (next_event (rx_queue w)) = false ->
         _kwp sid payload w
         = (Ok [], mkWorld (drop 1 (rx_queue w))
                     (tx_log w
                      ++ [single_frame flasher_tp (z2b sid :: payload)])
                     (slept w) (files w))
         /\ forall s : Z, rejected [] s = true))
  /\ (sid < 0 \/ 256 <= sid ->
      forall w : World,
        _kwp sid payload w
        = (Raise (ValueError "bytes must be in range(0, 256)"), w)).
Proof.
  split.
  - intros Hsid.
    assert (Hr : ByteRange sid).
    { unfold ByteRange. apply andb_true_intro. split; lia. }
    split.
    + intros rs w q Hrq Hrs Hq.
      exact (_kwp_exchange sid payload rs w q Hrq Hrs Hq).
    + intros w Hp Hacc.
      split; [exact (_kwp_silence sid payload w Hp Hacc)|].
      reflexivity.
  - intros Hsid w. unfold _kwp.
    destruct (Z.leb_spec 0 sid); [|reflexivity].
    destruct (Z.ltb_spec sid 256); [lia | reflexivity].
Qed.

Lemma _kwp_answer_or_silence_witness :
  let rq := map (fun k => z2b (Z.of_nat k)) (seq 0 9) in
  let rs := map (fun k => z2b (Z.of_nat k)) (seq 100 10) in
  _kwp 0x23 rq (mkWorld (kwp_script (z2b 0x23 :: rq) rs) [] [] [])
  = (Ok rs, mkWorld [] (kwp_sent (z2b 0x23 :: rq) rs) [0] [])
  /\ _kwp 0x3E [] (mkWorld [None] [] [] [])
     = (Ok [], mkWorld [] [single_frame flasher_tp [z2b 0x3E]] [] [])
  /\ _kwp 0x13E [] (mkWorld [None] [] [] [])
     = (Raise (ValueError "bytes must be in range(0, 256)"),
        mkWorld [None] [] [] []).
Proof.
  intros rq rs. split; [|split].
  - exact (proj1 (proj1 (_kwp_answer_or_silence 0x23 rq) ltac:(lia)) rs
             (mkWorld (kwp_script (z2b 0x23 :: rq) rs) [] [] []) []
             ltac:(cbn; lia) ltac:(cbn; lia) eq_refl).
  - exact (proj1 (proj2 (proj1 (_kwp_answer_or_silence 0x3E []) ltac:(lia))
                    (mkWorld [None] [] [] []) ltac:(cbn; lia) eq_refl)).
  - exact (proj2 (_kwp_answer_or_silence 0x13E []) ltac:(lia)
             (mkWorld [None] [] [] [])).
Defined.

(** ** Session and security access *)

Lemma enter_session_run (rs : list byte) (w : World)
    (q : list (option Frame)) :
  (1 <= length rs <= 4095)%nat ->
  rx_queue w = kwp_script session_request rs ++ q ->
  enter_session w
  = ((if rejected rs SID_START_SESSION
      then Raise (RuntimeError "Cannot enter programming session")
      else Ok tt),
     mkWorld q (tx_log w ++ kwp_sent session_request rs) (slept w) (files w)).
Proof.
  intros Hrs Hq. unfold enter_session, bind.
  rewrite (_kwp_exchange SID_START_SESSION [z2b 0x85] rs w q);
    [| cbn; lia | exact Hrs | exact Hq].
  cbn [kwp_slept length Nat.leb]. rewrite app_nil_r.
  destruct (rejected rs SID_START_SESSION); reflexivity.
Qed.

Lemma security_unlock_seed (rs : list byte) (w : World)
    (q : list (option Frame)) :
  (1 <= length rs <= 4095)%nat ->
  rejected rs SID_SECURITY_ACCESS = true ->
  rx_queue w = kwp_script seed_request rs ++ q ->
  security_unlock w
  = (Raise (RuntimeError "Seed request failed"),
     mkWorld q (tx_log w ++ kwp_sent seed_request rs) (slept w) (files w)).
Proof.
  intros Hrs Hrej Hq. unfold security_unlock. unfold bind at 1.
  rewrite (_kwp_exchange SID_SECURITY_ACCESS [z2b 0x01] rs w q);
    [| cbn; lia | exact Hrs | exact Hq].
  rewrite Hrej. cbn [kwp_slept length Nat.leb]. rewrite app_nil_r.
  reflexivity.
Qed.

Lemma security_unlock_run (rs0 rs1 : list byte) (w : World)
    (q : list (option Frame)) :
  (1 <= length rs0 <= 4095)%nat -> (1 <= length rs1 <= 4095)%nat ->
  rejected rs0 SID_SECURITY_ACCESS = false ->
  rx_queue w
  = kwp_script seed_request rs0 ++ kwp_script (key_request rs0) rs1 ++ q ->
  security_unlock w
  = ((if rejected rs1 SID_SECURITY_ACCESS
      then Raise (RuntimeError "Security key rejected")
      else Ok tt),
     mkWorld q
       (tx_log w ++ kwp_sent seed_request rs0
        ++ kwp_sent (key_request rs0) rs1)
       (slept w) (files w)).
Proof.
  intros Hrs0 Hrs1 Hacc Hq. unfold security_unlock. unfold bind at 1.
  rewrite (_kwp_exchange SID_SECURITY_ACCESS [z2b 0x01] rs0 w _ ltac:(cbn; lia)
             Hrs0 Hq).
  rewrite Hacc. unfold bind at 1.
  rewrite (_kwp_exchange SID_SECURITY_ACCESS _ rs1 _ q);
    [| cbn; lia | exact Hrs1 | reflexivity].
  cbn [tx_log slept files kwp_slept length Nat.leb].
  rewrite !app_nil_r, <- app_assoc.
  destruct (rejected rs1 SID_SECURITY_ACCESS); reflexivity.
Qed.

(** X9. [enter_session] looks at the first byte of the answer only: it
    succeeds exactly when that byte is 0x50, whatever follows it, and fails
    with "Cannot enter programming session" on every other answer, having
    transmitted its request and nothing else. *)
Theorem enter_session_first_byte (r0 : byte) (rs : list byte) (w : World)
    (q : list (option Frame)) :
  (length rs <= 4094)%nat ->
  rx_queue w = kwp_script session_request (r0 :: rs) ++ q ->
  enter_session w
  = ((if b2z r0 =? 0x50 then Ok tt
      else Raise (RuntimeError "Cannot enter programming session")),
     mkWorld q (tx_log w ++ kwp_sent session_request (r0 :: rs)) (slept w)
       (files w)).
Proof.
  intros Hrs Hq.
  rewrite (enter_session_run (r0 :: rs) w q ltac:(cbn [length]; lia) Hq).
  cbn [rejected]. change (pos SID_START_SESSION) with 0x50.
  destruct (b2z r0 =? 0x50); reflexivity.
Qed.

Lemma enter_session_first_byte_witness :
  let refusal := [Byte.x7f; Byte.x10; Byte.x22] in
  enter_session (mkWorld (kwp_script session_request refusal) [] [] [])
  = (Raise (RuntimeError "Cannot enter programming session"),
     mkWorld [] [single_frame flasher_tp session_request] [] []).
Proof.
  intros refusal.
  exact (enter_session_first_byte Byte.x7f [Byte.x10; Byte.x22]
           (mkWorld (kwp_script session_request refusal) [] [] []) []
           ltac:(cbn; lia) eq_refl).
Defined.

(** X10. The two refusals of [security_unlock].  When the answer to the
    seed request does not start with 0x67 the call fails with "Seed request
    failed" and no key request is transmitted.  When it does, the key
    request built from that answer goes out, and an answer to it that does
    not start with 0x67 makes the call fail with "Security key rejected";
    any answer that does start with 0x67 makes it succeed. *)
Theorem security_unlock_refusals (rs0 : list byte) (w : World)
    (q : list (option Frame)) :
  (1 <= length rs0 <= 4095)%nat ->
  (rejected rs0 SID_SECURITY_ACCESS = true ->
   rx_queue w = kwp_script seed_request rs0 ++ q ->
   security_unlock w
   = (Raise (RuntimeError "Seed request failed"),
      mkWorld q (tx_log w ++ kwp_sent seed_request rs0) (slept w) (files w)))
  /\ (forall rs1 : list byte,
        (1 <= length rs1 <= 4095)%nat ->
        rejected rs0 SID_SECURITY_ACCESS = false ->
        rx_queue w
        = kwp_script seed_request rs0 ++ kwp_script (key_request rs0) rs1
          ++ q ->
        security_unlock w
        = ((if rejected rs1 SID_SECURITY_ACCESS
            then Raise (RuntimeError "Security key rejected")
            else Ok tt),
           mkWorld q
             (tx_log w ++ kwp_sent seed_request rs0
              ++ kwp_sent (key_request rs0) rs1)
             (slept w) (files w))).
Proof.
  intros Hrs0. split.
  - intros Hrej Hq. exact (security_unlock_seed rs0 w q Hrs0 Hrej Hq).
  - intros rs1 Hrs1 Hacc Hq.
    exact (security_unlock_run rs0 rs1 w q Hrs0 Hrs1 Hacc Hq).
Qed.

Lemma security_unlock_refusals_witness :
  let seed_answer := [Byte.x67; Byte.x01; Byte.x12; Byte.x34] in
  let refusal := [Byte.x7f; Byte.x27; Byte.x35] in
  security_unlock
    (mkWorld (kwp_script seed_request refusal) [] [] [])
  = (Raise (RuntimeError "Seed request failed"),
     mkWorld [] [single_frame flasher_tp seed_request] [] [])
  /\ security_unlock
       (mkWorld (kwp_script seed_request seed_answer
                 ++ kwp_script (key_request seed_answer) refusal) [] [] [])
     = (Raise (RuntimeError "Security key rejected"),
        mkWorld []
          [single_frame flasher_tp seed_request;
           single_frame flasher_tp (key_request seed_answer)] [] []).
Proof.
  intros seed_answer refusal. split.
  - exact (proj1 (security_unlock_refusals refusal
                    (mkWorld (kwp_script seed_request refusal) [] [] []) []
                    ltac:(cbn; lia)) eq_refl eq_refl).
  - exact (proj2 (security_unlock_refusals seed_answer
                    (mkWorld (kwp_script seed_request seed_answer
                              ++ kwp_script (key_request seed_answer) refusal)
                       [] [] []) []
                    ltac:(cbn; lia)) refusal ltac:(cbn; lia) eq_refl eq_refl).
Defined.

(** X11. [security_unlock] does not check that the answer to the seed
    request carries a seed.  A positive answer of one or two bytes, as an
    already unlocked ECU may give, is read as the seed 0: the key request
    sent is [27 02 D9 57]. *)
Theorem security_unlock_missing_seed (rs0 rs1 : list byte) (w : World)
    (q : list (option Frame)) :
  (1 <= length rs0 <= 2)%nat -> (1 <= length rs1 <= 4095)%nat ->
  rejected rs0 SID_SECURITY_ACCESS = false ->
  rejected rs1 SID_SECURITY_ACCESS = false ->
  rx_queue w
  = kwp_script seed_request rs0
    ++ kwp_script [Byte.x27; Byte.x02; Byte.xd9; Byte.x57] rs1 ++ q ->
  security_unlock w
  = (Ok tt,
     mkWorld q
       (tx_log w ++ kwp_sent seed_request rs0
        ++ kwp_sent [Byte.x27; Byte.x02; Byte.xd9; Byte.x57] rs1)
       (slept w) (files w)).
Proof.
  intros Hrs0 Hrs1 Hacc0 Hacc1 Hq.
  assert (Hk : key_request rs0 = [Byte.x27; Byte.x02; Byte.xd9; Byte.x57]).
  { destruct rs0 as [|a [|b [|c rs0]]]; cbn [length] in Hrs0; try lia;
      reflexivity. }
  rewrite <- Hk in Hq |- *.
  rewrite (security_unlock_run rs0 rs1 w q ltac:(lia) Hrs1 Hacc0 Hq), Hacc1.
  reflexivity.
Qed.

Lemma security_unlock_missing_seed_witness :
  let rs0 := [Byte.x67; Byte.x01] in
  let rs1 := [Byte.x67; Byte.x02] in
  security_unlock
    (mkWorld (kwp_script seed_request rs0
              ++ kwp_script [Byte.x27; Byte.x02; Byte.xd9; Byte.x57] rs1)
       [] [] [])
  = (Ok tt,
     mkWorld []
       [single_frame flasher_tp seed_request;
        single_frame flasher_tp [Byte.x27; Byte.x02; Byte.xd9; Byte.x57]]
       [] []).
Proof.
  intros rs0 rs1.
  exact (security_unlock_missing_seed rs0 rs1
           (mkWorld (kwp_script seed_request rs0
                     ++ kwp_script [Byte.x27; Byte.x02; Byte.xd9; Byte.x57] rs1)
              [] [] []) []
           ltac:(cbn; lia) ltac:(cbn; lia) eq_refl eq_refl eq_refl).
Defined.

(** ** Reading memory: bounds and answers *)

(** X12. [read_block] checks its arguments before anything is sent: a
    length outside 1..65535 gives the ValueError "Length must be 1..65535
    bytes", and with an admissible length an address that does not fit in
    four bytes gives OverflowError; in both cases the bus has seen
    nothing. *)
Theorem read_block_bounds (addr len : Z) (w : World) :
  (len <= 0 \/ 0xFFFF < len ->
   read_block addr len w
   = (Raise (ValueError "Length must be 1..65535 bytes"), w))
  /\ (0 < len <= 0xFFFF -> addr < 0 \/ 2 ^ 32 <= addr ->
      read_block addr len w = (Raise OverflowError, w)).
Proof.
  unfold read_block. split.
  - intros H.
    destruct (Z.leb_spec len 0); [reflexivity|].
    destruct (Z.ltb_spec 0xFFFF len); [reflexivity | lia].
  - intros Hl Ha.
    destruct (Z.leb_spec len 0); [lia|].
    destruct (Z.ltb_spec 0xFFFF len); [lia|]. cbn [orb].
    unfold to_bytes_big at 1.
    change (256 ^ Z.of_nat 4) with (2 ^ 32).
    destruct (Z.leb_spec 0 addr); [|reflexivity].
    destruct (Z.ltb_spec addr (2 ^ 32)); [lia | reflexivity].
Qed.

Lemma read_block_bounds_witness :
  read_block 0 0x10000 (mkWorld [] [] [] [])
  = (Raise (ValueError "Length must be 1..65535 bytes"), mkWorld [] [] [] [])
  /\ read_block (2 ^ 32) 0x400 (mkWorld [] [] [] [])
     = (Raise OverflowError, mkWorld [] [] [] []).
Proof.
  split.
  - exact (proj1 (read_block_bounds 0 0x10000 (mkWorld [] [] [] []))
             ltac:(lia)).
  - exact (proj2 (read_block_bounds (2 ^ 32) 0x400 (mkWorld [] [] [] []))
             ltac:(lia) ltac:(lia)).
Defined.

(** [read_block] hands back the data of a positive answer as it is,
    whatever length was asked for. *)
Lemma read_block_answer (addr len : Z) (d : list byte) (w : World)
    (q : list (option Frame)) :
  0 <= addr < 2 ^ 32 -> 0 < len <= 0xFFFF -> (length d <= 4094)%nat ->
  rx_queue w
  = kwp_script (read_request addr len)
      (z2b (pos SID_READ_MEMORY_BY_ADDR) :: d) ++ q ->
  read_block addr len w
  = (Ok d,
     mkWorld q
       (tx_log w ++ kwp_sent (read_request addr len)
                      (z2b (pos SID_READ_MEMORY_BY_ADDR) :: d))
       (slept w ++ kwp_slept (read_request addr len)) (files w)).
Proof.
  intros Ha Hl Hd Hq. unfold read_block.
  destruct (Z.leb_spec len 0); [lia|].
  destruct (Z.ltb_spec 0xFFFF len); [lia|]. cbn [orb].
  destruct (to_bytes_big_4 addr Ha) as [Ea La].
  destruct (to_bytes_big_4 len ltac:(lia)) as [El Ll].
  rewrite Ea, El. unfold bind.
  rewrite (_kwp_exchange SID_READ_MEMORY_BY_ADDR
             ([z2b 0x24] ++ be4 addr ++ [z2b 0x24] ++ be4 len)
             (z2b (pos SID_READ_MEMORY_BY_ADDR) :: d) w q).
  - cbn [rejected].
    change (b2z (z2b (pos SID_READ_MEMORY_BY_ADDR)) =? pos SID_READ_MEMORY_BY_ADDR)
      with true.
    cbn [negb drop]. rewrite drop_0. reflexivity.
  - cbn [length app]. rewrite length_app. cbn [length app].
    rewrite La, Ll. lia.
  - cbn [length]. lia.
  - exact Hq.
Qed.

Lemma take_slice {A} (l : list A) (a b k : nat) :
  let d := take k (slice l a b) in
  d = slice l a (a + length d).
Proof.
  cbv zeta. apply list_eq. intros j.
  set (m := length (take k (slice l a b))).
  assert (Hm : m = Nat.min k (Nat.min b (length l) - a)).
  { unfold m. rewrite length_take, length_slice. reflexivity. }
  unfold slice. rewrite !lookup_drop.
  destruct (Nat.lt_ge_cases j m) as [Hin|Hout].
  - rewrite lookup_take_lt by lia. rewrite lookup_drop.
    rewrite !lookup_take_lt by lia. reflexivity.
  - rewrite (lookup_take_ge l (a + m)) by lia.
    destruct (Nat.lt_ge_cases j k) as [Hk|Hk].
    + rewrite lookup_take_lt by lia. rewrite lookup_drop.
      destruct (Nat.lt_ge_cases (a + j) b) as [Hb|Hb].
      * rewrite lookup_take_lt by lia. apply lookup_ge_None_2. lia.
      * apply lookup_take_ge. lia.
    + apply lookup_take_ge. lia.
Qed.

(** ** Verification compares no more than the ECU returns *)

Section VerifyShort.
Variables (image : list byte) (keep : Z -> nat) (chunk : Z).
Hypothesis chunk_range : 0 < chunk <= 4094.
Hypothesis image_size : Z.of_nat (length image) < 2 ^ 32.

Lemma verify_loop_short :
  forall (addrs : list Z) (w : World) (q : list (option Frame)),
    Forall (fun a => 0 <= a < Z.of_nat (length image)) addrs ->
    rx_queue w
    = short_script image keep (Z.of_nat (length image)) chunk addrs ++ q ->
    exists w', for_each addrs (verify_body image chunk) w = (Ok tt, w')
               /\ rx_queue w' = q.
Proof.
  induction addrs as [|a addrs IH]; intros w q Hall Hq.
  - cbn in *. exists w. split; [reflexivity | exact Hq].
  - apply Forall_cons in Hall as [Ha Hall].
    cbn [for_each]. cbn [short_script flat_map] in Hq.
    rewrite <- app_assoc in Hq. unfold short_answer at 1 in Hq.
    set (len := Z.min chunk (Z.of_nat (length image) - a)) in *.
    unfold bind at 1. unfold verify_body at 1. unfold bind at 1.
    fold len.
    erewrite (read_block_answer a len _ w);
      [ | lia | lia | | exact Hq ];
      [ | rewrite length_take, length_slice; lia ].
    rewrite bool_decide_eq_true_2 by apply take_slice.
    cbn [negb]. unfold ret at 1.
    apply IH; [exact Hall | reflexivity].
Qed.
End VerifyShort.

(** X13. [verify] compares each answer with as many bytes of the image
    as the answer carries, not with the length it asked for.  An ECU that
    returns only a leading part of each stride, or a bare positive answer
    with no data at all, passes verification of any image. *)
Theorem verify_accepts_short_answers (image : list byte) (keep : Z -> nat)
    (chunk : Z) (w : World) (q : list (option Frame)) :
  0 < chunk <= 4094 -> Z.of_nat (length image) < 2 ^ 32 ->
  rx_queue w = short_verify_script image keep chunk ++ q ->
  exists w', verify image chunk w = (Ok tt, w') /\ rx_queue w' = q.
Proof.
  intros Hc Hn Hq. unfold verify, short_verify_script in *.
  rewrite range0_strides in * by lia.
  apply (verify_loop_short image keep chunk Hc Hn _ w q); [|exact Hq].
  apply Forall_forall. intros a Hin.
  apply list_elem_of_fmap in Hin as (k & -> & Hk).
  apply elem_of_seq in Hk. unfold stride_addr.
  split; [lia|]. apply stride_count; lia.
Qed.

Lemma verify_accepts_short_answers_witness :
  let image := map (fun k => z2b (Z.of_nat k)) (seq 0 10) in
  let bare := Some (mkFrame CAN_ID_RESP (Byte.x01 :: Byte.x63 :: zeros 6)) in
  let fc := Some (mkFrame CAN_ID_RESP
                    (Byte.x30 :: Byte.x00 :: Byte.x00 :: zeros 5)) in
  exists w',
    verify image 4 (mkWorld [fc; bare; fc; bare; fc; bare] [] [] [])
    = (Ok tt, w')
    /\ rx_queue w' = [].
Proof.
  intros image bare fc.
  exact (verify_accepts_short_answers image (fun _ => 0%nat) 4
           (mkWorld [fc; bare; fc; bare; fc; bare] [] [] []) []
           ltac:(lia) ltac:(cbn; lia) eq_refl).
Defined.

(** ** TransferData: a refused block, and a block size of zero *)

Lemma transfer_loop_refused (d : list byte) (block : nat) (neg : list byte) :
  (0 < block <= 4093)%nat ->
  (1 <= length neg <= 4095)%nat ->
  rejected neg SID_TRANSFER_DATA = true ->
  forall (m k fuel : nat) (w : World) (q : list (option Frame)),
    (m + k < block_count d block)%nat -> (m < fuel)%nat ->
    rx_queue w
    = transfer_script d block k m
      ++ kwp_script (transfer_request d block (m + k)) neg ++ q ->
    transfer_loop fuel d (Z.of_nat block) (block_counter k)
      (Nat.min (k * block) (length d)) w
    = (Raise (RuntimeError ("TransferData failed at block "
                            ++ dec_string (block_counter (m + k)))),
       mkWorld q
         (tx_log w ++ transfer_sent d block k m
          ++ kwp_sent (transfer_request d block (m + k)) neg)
         (slept w ++ flat_map (fun j => kwp_slept (transfer_request d block j))
                       (seq k (S m)))
         (files w)).
Proof.
  intros Hb Hneg Hrej.
  induction m as [|m IH]; intros k fuel w q Hk Hfuel Hq;
    (assert (Hlt : (k * block < length d)%nat) by (apply block_count_lt; lia));
    rewrite Nat.min_l by lia;
    (destruct fuel as [|fuel]; [lia|]); cbn [transfer_loop];
    (destruct (Nat.ltb_spec (k * block) (length d)) as [_|]; [|lia]);
    unfold chunk_at;
    (destruct (Z.leb_spec 0 (Z.of_nat (k * block) + Z.of_nat block)); [|lia]);
    replace (Z.to_nat (Z.of_nat (k * block) + Z.of_nat block))
      with (k * block + block)%nat by lia;
    rewrite block_counter_land, block_counter_succ;
    unfold bind at 1.
  - change (0 + k)%nat with k in *.
    cbn [transfer_script seq flat_map app] in Hq.
    erewrite (_kwp_exchange SID_TRANSFER_DATA
               ([z2b (block_counter k)] ++ slice d (k * block) (k * block + block))
               neg w);
      [ | cbn [length app]; rewrite length_slice; lia | exact Hneg | exact Hq ].
    rewrite Hrej. cbn [transfer_sent seq flat_map app].
    rewrite !app_nil_r. reflexivity.
  - cbn [transfer_script seq flat_map] in Hq. rewrite <- app_assoc in Hq.
    erewrite (_kwp_exchange SID_TRANSFER_DATA
               ([z2b (block_counter k)] ++ slice d (k * block) (k * block + block))
               (transfer_answer k) w);
      [ | cbn [length app]; rewrite length_slice; lia | cbn; lia | exact Hq ].
    cbn [rejected transfer_answer].
    change (b2z (z2b (pos SID_TRANSFER_DATA)) =? pos SID_TRANSFER_DATA) with true.
    cbn [negb].
    replace (k * block + length (slice d (k * block) (k * block + block)))%nat
      with (Nat.min (S k * block) (length d))
      by (rewrite length_slice; lia).
    replace (S m + k)%nat with (m + S k)%nat by lia.
    rewrite (IH (S k) fuel _ q); [ | lia | lia | ].
    + cbn [rx_queue tx_log slept files transfer_sent seq flat_map].
      rewrite <- !app_assoc. reflexivity.
    + cbn [rx_queue]. replace (m + S k)%nat with (S m + k)%nat by lia.
      reflexivity.
Qed.

(** X14. A refused block ends [transfer_data] at once.  When the ECU
    accepts the first [j] blocks and refuses the next, the call fails with
    "TransferData failed at block N", where N is the block counter of the
    refused block, that is [(j + 1) mod 256] and not its position; the
    requests up to the refused one have been transmitted, none after it,
    and what follows on the bus is left unread. *)
Theorem transfer_data_refused_block (d : list byte) (block j : nat)
    (neg : list byte) (w : World) (q : list (option Frame)) :
  (0 < block <= 4093)%nat ->
  (1 <= length neg <= 4095)%nat ->
  rejected neg SID_TRANSFER_DATA = true ->
  (j < block_count d block)%nat ->
  rx_queue w
  = transfer_script d block 0 j
    ++ kwp_script (transfer_request d block j) neg ++ q ->
  let r := transfer_data d (Z.of_nat block) w in
  fst r = Raise (RuntimeError ("TransferData failed at block "
                               ++ dec_string ((Z.of_nat j + 1) mod 256)))
  /\ rx_queue (snd r) = q
  /\ tx_log (snd r)
     = tx_log w ++ transfer_sent d block 0 j
       ++ kwp_sent (transfer_request d block j) neg.
Proof.
  intros Hb Hneg Hrej Hj Hq. cbv zeta.
  unfold transfer_data, bind, pending.
  pose proof (transfer_loop_refused d block neg Hb Hneg Hrej j 0
                (S (length (rx_queue w))) w q) as H.
  change (block_counter 0) with 1 in H.
  change (Nat.min (0 * block) (length d)) with 0%nat in H.
  rewrite Nat.add_0_r in H.
  rewrite H; [repeat split | lia | | exact Hq].
  rewrite Hq, length_app.
  pose proof (transfer_script_length d block j 0). lia.
Qed.

Lemma transfer_data_refused_block_witness :
  let d := map (fun k => z2b (Z.of_nat k)) (seq 0 10) in
  let neg := [Byte.x7f; Byte.x36; Byte.x72] in
  let w := mkWorld (transfer_script d 4 0 1
                    ++ kwp_script (transfer_request d 4 1) neg
                    ++ [None]) [] [] [] in
  let r := transfer_data d 4 w in
  fst r = Raise (RuntimeError "TransferData failed at block 2")
  /\ rx_queue (snd r) = [None]
  /\ tx_log (snd r)
     = transfer_sent d 4 0 1 ++ kwp_sent (transfer_request d 4 1) neg.
Proof.
  intros d neg w.
  exact (transfer_data_refused_block d 4 1 neg w [None]
           ltac:(lia) ltac:(cbn; lia) eq_refl ltac:(vm_compute; lia) eq_refl).
Defined.

Lemma transfer_loop_stuck (d : list byte) :
  d <> [] ->
  forall (fuel : nat) (counter : Z) (w : World),
    fst (transfer_loop fuel d 0 counter 0 w) <> Ok tt.
Proof.
  intros Hd. assert (Hlen : (0 < length d)%nat) by (destruct d; cbn; [congruence | lia]).
  induction fuel as [|fuel IH]; intros counter w; cbn [transfer_loop];
    (destruct (Nat.ltb_spec 0 (length d)) as [_|]; [|lia]);
    [discriminate|].
  unfold bind.
  destruct (_kwp SID_TRANSFER_DATA _ w) as [[resp|e] w1]; [|discriminate].
  destruct (rejected resp SID_TRANSFER_DATA); [discriminate|].
  change (chunk_at d 0 0) with (slice d 0 (Z.to_nat 0)).
  unfold slice. cbn [Z.to_nat take drop length Nat.add]. apply IH.
Qed.

(** X15. With a block size of zero every block is empty and the offset
    never advances, so [transfer_data] cannot return: on non-empty data it
    ends in an exception whatever the bus delivers, and that exception is a
    Python exception of the transfer, the loop not being cut short by the
    model. *)
Theorem transfer_data_zero_block (d : list byte) (w : World) :
  d <> [] ->
  exists (e : exn) (w' : World),
    transfer_data d 0 w = (Raise e, w') /\ e <> FuelExhausted.
Proof.
  intros Hd.
  pose proof (transfer_data_fuel d 0 w) as Hf.
  assert (Hs : fst (transfer_data d 0 w) <> Ok tt).
  { unfold transfer_data, bind, pending. apply transfer_loop_stuck, Hd. }
  destruct (transfer_data d 0 w) as [[[]|e] w']; cbn [fst] in *;
    [congruence|].
  exists e, w'. split; [reflexivity | congruence].
Qed.

Lemma transfer_data_zero_block_witness :
  exists (e : exn) (w' : World),
    transfer_data [Byte.x01; Byte.x02] 0
      (mkWorld (replicate 3 (Some (mkFrame CAN_ID_RESP
                                     (Byte.x02 :: Byte.x76 :: Byte.x01
                                      :: zeros 5)))) [] [] [])
    = (Raise e, w') /\ e <> FuelExhausted.
Proof.
  exact (transfer_data_zero_block [Byte.x01; Byte.x02] _
           ltac:(discriminate)).
Defined.

(** ** The backup file *)

Lemma file_contents_truncate (path : string) (fs : list (string * list byte)) :
  file_contents path (file_truncate path fs) = Some [].
Proof.
  induction fs as [|[p c] fs IH]; cbn [file_truncate file_contents].
  - rewrite String.eqb_refl. reflexivity.
  - destruct (String.eqb p path) eqn:E; cbn [file_contents]; rewrite E;
      [reflexivity | exact IH].
Qed.

Lemma file_contents_append (path : string) (d c : list byte)
    (fs : list (string * list byte)) :
  file_contents path fs = Some c ->
  file_contents path (file_append path d fs) = Some (c ++ d).
Proof.
  induction fs as [|[p c'] fs IH]; cbn [file_append file_contents];
    [discriminate|].
  destruct (String.eqb p path) eqn:E; cbn [file_contents]; rewrite E.
  - intros [= ->]. reflexivity.
  - exact IH.
Qed.

Lemma flash_size_bounds : 0 < FLASH_SIZE < 2 ^ 32.
Proof. vm_compute. split; reflexivity. Qed.

Section BackupLoop.
Variables (mem : list byte) (chunk : Z) (output : string).
Hypothesis chunk_range : 0 < chunk <= 4094.

Local Abbreviation stride := (stride_addr chunk).
Local Abbreviation upto :=
  (fun k : nat => take (Z.to_nat (Z.min (stride k) FLASH_SIZE)) mem).

Lemma backup_loop :
  forall (m s : nat) (w : World) (q : list (option Frame)),
    (forall k, (s <= k < s + m)%nat -> stride k < FLASH_SIZE) ->
    rx_queue w
    = memory_script mem FLASH_SIZE chunk (map stride (seq s m)) ++ q ->
    file_contents output (files w) = Some (upto s) ->
    exists w',
      for_each (map stride (seq s m))
        (fun addr =>
           let! d := read_block addr (Z.min chunk (FLASH_SIZE - addr)) in
           handle_write output d) w
      = (Ok tt, w')
      /\ rx_queue w' = q
      /\ file_contents output (files w') = Some (upto (s + m)%nat).
Proof.
  pose proof flash_size_bounds as Hn.
  induction m as [|m IH]; intros s w q Hall Hq Hf.
  - cbn in Hq. rewrite Nat.add_0_r. exists w. repeat split; assumption.
  - cbn [seq map for_each]. cbn [seq map memory_script flat_map] in Hq.
    rewrite <- app_assoc in Hq.
    pose proof (Hall s ltac:(lia)) as Hlt. unfold stride_addr in Hlt.
    set (addr := stride s) in *.
    assert (Ha : 0 <= addr < FLASH_SIZE)
      by (unfold addr, stride_addr; lia).
    set (len := Z.min chunk (FLASH_SIZE - addr)) in *.
    destruct (read_block_exchange mem addr len w _ ltac:(lia) ltac:(lia) Hq)
      as (w1 & Hrun & Hq1 & Hf1).
    unfold bind at 1. unfold bind at 1. rewrite Hrun.
    unfold handle_write at 1.
    set (w2 := mkWorld _ _ _ _).
    destruct (IH (S s) w2 q) as (w' & Hrun' & Hq' & Hf').
    + intros k Hk. apply Hall. lia.
    + exact Hq1.
    + unfold w2. cbn [files]. rewrite Hf1.
      rewrite (file_contents_append _ _ _ _ Hf). f_equal.
      replace (Z.min (stride s) FLASH_SIZE) with addr by (fold addr; lia).
      replace (Z.min (stride (S s)) FLASH_SIZE) with (addr + len)
        by (unfold len, addr, stride_addr;
            rewrite Nat2Z.inj_succ, Z.mul_succ_l;
            generalize (Z.of_nat s * chunk); clear; intros; lia).
      unfold slice.
      rewrite <- (take_drop (Z.to_nat addr) (take (Z.to_nat (addr + len)) mem))
        at 2.
      f_equal. rewrite take_take. f_equal. lia.
    + exists w'. split; [exact Hrun'|]. split; [exact Hq'|].
      rewrite Hf'. replace (s + S m)%nat with (S s + m)%nat by lia.
      reflexivity.
Qed.
End BackupLoop.

(** X16. A backup against a cooperative ECU puts the flash contents into
    the output file: read in strides of [chunk] bytes from an ECU that
    answers every ReadMemoryByAddress request with the bytes asked for,
    [backup] succeeds, consumes exactly the ECU's answers, and leaves a
    file that holds the 1 MiB of the ECU's memory, whatever the file held
    before. *)
Theorem backup_writes_memory (mem : list byte) (chunk : Z)
    (output : string) (w : World) (q : list (option Frame)) :
  0 < chunk <= 4094 ->
  Z.of_nat (length mem) = FLASH_SIZE ->
  rx_queue w = backup_script mem chunk ++ q ->
  exists w',
    backup output chunk w = (Ok tt, w')
    /\ rx_queue w' = q
    /\ file_contents output (files w') = Some mem.
Proof.
  intros Hc Hlen Hq. pose proof flash_size_bounds as Hn.
  unfold backup, backup_script in *.
  rewrite range0_strides in * by lia.
  unfold bind at 1. unfold open_wb at 1.
  set (w1 := mkWorld _ _ _ _).
  destruct (backup_loop mem chunk output Hc
              (Z.to_nat ((FLASH_SIZE + chunk - 1) / chunk)) 0 w1 q)
    as (w' & Hrun & Hq' & Hf').
  - intros k Hk. apply stride_count; lia.
  - exact Hq.
  - unfold w1. cbn [files]. rewrite file_contents_truncate.
    unfold stride_addr. rewrite Z.mul_0_l, Z.min_l by lia. reflexivity.
  - exists w'. split; [exact Hrun|]. split; [exact Hq'|].
    rewrite Hf'. f_equal. apply take_ge.
    cbn [Nat.add].
    set (c := Z.to_nat ((FLASH_SIZE + chunk - 1) / chunk)).
    assert (FLASH_SIZE <= stride_addr chunk c).
    { destruct (Z.le_gt_cases FLASH_SIZE (stride_addr chunk c)) as [|H];
        [assumption|].
      apply (stride_count FLASH_SIZE chunk c) in H; [unfold c in H; lia | lia | lia]. }
    lia.
Qed.

Lemma backup_writes_memory_witness :
  let mem := replicate (Z.to_nat FLASH_SIZE) Byte.xa5 in
  let w := mkWorld (backup_script mem 0x0400 ++ [None]) [] []
             [("backup.bin"%string, [Byte.x01; Byte.x02])] in
  exists w',
    backup "backup.bin" 0x0400 w = (Ok tt, w')
    /\ rx_queue w' = [None]
    /\ file_contents "backup.bin" (files w') = Some mem.
Proof.
  intros mem w.
  exact (backup_writes_memory mem 0x0400 "backup.bin" w [None]
           ltac:(lia) ltac:(vm_compute; reflexivity) eq_refl).
Defined.

(** X17. The stride of a backup is not checked.  With a stride of zero
    [backup] fails with the ValueError of [range], and with a negative
    stride it reads nothing and reports success; in both cases nothing is
    transmitted and the output file, already opened for writing, is left
    empty. *)
Theorem backup_degenerate_stride (output : string) (chunk : Z) (w : World) :
  chunk <= 0 ->
  backup output chunk w
  = ((if chunk =? 0
      then Raise (ValueError "range() arg 3 must not be zero")
      else Ok tt),
     mkWorld (rx_queue w) (tx_log w) (slept w)
       (file_truncate output (files w)))
  /\ file_contents output (file_truncate output (files w)) = Some [].
Proof.
  intros Hc. split; [|apply file_contents_truncate].
  unfold backup, bind, open_wb, range0.
  destruct (Z.eqb_spec chunk 0); [reflexivity|].
  destruct (Z.ltb_spec chunk 0); [reflexivity | lia].
Qed.

Lemma backup_degenerate_stride_witness :
  backup "backup.bin" (-1)
    (mkWorld [] [] [] [("backup.bin"%string, [Byte.x01; Byte.x02])])
  = (Ok tt, mkWorld [] [] [] [("backup.bin"%string, [])]).
Proof.
  exact (proj1 (backup_degenerate_stride "backup.bin" (-1)
                  (mkWorld [] [] []
                     [("backup.bin"%string, [Byte.x01; Byte.x02])])
                  ltac:(lia))).
Defined.

(** ** Reading the ECU identification *)

(** X18. [read_ecu_id] asks for the four identifiers 0x90, 0x92, 0x94
    and 0x97 in turn and never fails on a refusal: the result holds, in
    that order, an entry for each identifier whose answer starts with 0x5A,
    labelled "0x90" and so on and holding the answer without its first two
    bytes; refused identifiers are left out.  On a bus that stays silent
    it returns the empty dictionary after its four requests. *)
Theorem read_ecu_id_collects (a0 a1 a2 a3 : list byte) (w : World)
    (q : list (option Frame)) :
  (Forall (fun rs : list byte => (1 <= length rs <= 4095)%nat)
          [a0; a1; a2; a3] ->
   rx_queue w = id_script [a0; a1; a2; a3] ++ q ->
   read_ecu_id w
   = (Ok (id_entries [a0; a1; a2; a3]),
      mkWorld q (tx_log w ++ id_sent [a0; a1; a2; a3]) (slept w) (files w)))
  /\ (rx_queue w = [] ->
      read_ecu_id w
      = (Ok [],
         mkWorld [] (tx_log w
                     ++ map (fun ident =>
                               single_frame flasher_tp (id_request ident))
                          ecu_identifiers)
           (slept w) (files w))).
Proof.
  split.
  - intros Hall Hq.
    apply Forall_cons in Hall as [H0 Hall].
    apply Forall_cons in Hall as [H1 Hall].
    apply Forall_cons in Hall as [H2 Hall].
    apply Forall_cons in Hall as [H3 _].
    unfold id_script in Hq. cbn [ecu_identifiers zip zip_with flat_map] in Hq.
    rewrite app_nil_r, <- !app_assoc in Hq.
    unfold read_ecu_id, ecu_identifiers. cbn [read_ids].
    unfold bind at 1.
    rewrite (_kwp_exchange SID_READ_ECU_ID [Byte.x90] a0 w _
               ltac:(cbn; lia) H0 Hq).
    unfold bind at 1.
    erewrite (_kwp_exchange SID_READ_ECU_ID [Byte.x92] a1);
      [ | cbn; lia | exact H1 | cbn [rx_queue]; reflexivity ].
    unfold bind at 1.
    erewrite (_kwp_exchange SID_READ_ECU_ID [Byte.x94] a2);
      [ | cbn; lia | exact H2 | cbn [rx_queue]; reflexivity ].
    unfold bind at 1.
    erewrite (_kwp_exchange SID_READ_ECU_ID [Byte.x97] a3 _ q);
      [ | cbn; lia | exact H3 | cbn [rx_queue]; reflexivity ].
    unfold ret, id_entries, id_sent.
    cbn [ecu_identifiers zip zip_with flat_map tx_log slept files kwp_slept
         length Nat.leb id_request].
    rewrite !app_nil_r, <- !app_assoc.
    destruct (rejected a0 SID_READ_ECU_ID), (rejected a1 SID_READ_ECU_ID),
      (rejected a2 SID_READ_ECU_ID), (rejected a3 SID_READ_ECU_ID);
      reflexivity.
  - intros Hq. unfold read_ecu_id, ecu_identifiers. cbn [read_ids].
    unfold bind at 1.
    rewrite (_kwp_silence SID_READ_ECU_ID) by (cbn; try lia; rewrite Hq; reflexivity).
    unfold bind at 1.
    rewrite (_kwp_silence SID_READ_ECU_ID)
      by (cbn [rx_queue length]; try lia; rewrite Hq; reflexivity).
    unfold bind at 1.
    rewrite (_kwp_silence SID_READ_ECU_ID)
      by (cbn [rx_queue length]; try lia; rewrite Hq; reflexivity).
    unfold bind at 1.
    rewrite (_kwp_silence SID_READ_ECU_ID)
      by (cbn [rx_queue length]; try lia; rewrite Hq; reflexivity).
    cbn [rx_queue tx_log slept files rejected negb]. rewrite Hq.
    unfold ret. cbn [drop map]. rewrite <- !app_assoc. reflexivity.
Qed.

Lemma read_ecu_id_collects_witness :
  let hw := [Byte.x5a; Byte.x90; Byte.x31; Byte.x32] in
  let refusal := [Byte.x7f; Byte.x1a; Byte.x12] in
  let sw := [Byte.x5a; Byte.x94; Byte.x41; Byte.x42; Byte.x43; Byte.x44;
             Byte.x45; Byte.x46; Byte.x47] in
  read_ecu_id (mkWorld (id_script [hw; refusal; sw; refusal]) [] [] [])
  = (Ok [("0x90"%string, [Byte.x31; Byte.x32]);
         ("0x94"%string, [Byte.x41; Byte.x42; Byte.x43; Byte.x44;
                          Byte.x45; Byte.x46; Byte.x47])],
     mkWorld [] (id_sent [hw; refusal; sw; refusal]) [] [])
  /\ fst (read_ecu_id (mkWorld [] [] [] [])) = Ok [].
Proof.
  intros hw refusal sw. split.
  - refine (proj1 (read_ecu_id_collects hw refusal sw refusal
                     (mkWorld (id_script [hw; refusal; sw; refusal]) [] [] [])
                     []) _ eq_refl).
    repeat constructor; cbn; lia.
  - exact (f_equal fst
             (proj2 (read_ecu_id_collects [] [] [] [] (mkWorld [] [] [] []) [])
                eq_refl)).
Defined.

(** ** Where the flash workflow stops *)

Lemma erase_all_run (rs : list byte) (w : World) (q : list (option Frame)) :
  (1 <= length rs <= 4095)%nat ->
  rx_queue w = kwp_script erase_request rs ++ q ->
  erase_all w
  = ((if rejected rs SID_ROUTINE_CONTROL
      then Raise (RuntimeError "Erase routine rejected")
      else Ok tt),
     mkWorld q (tx_log w ++ kwp_sent erase_request rs) (slept w) (files w)).
Proof.
  intros Hrs Hq. unfold erase_all, bind.
  rewrite (_kwp_exchange SID_ROUTINE_CONTROL
             [z2b 0x01; z2b (Z.shiftr ROUTINE_ERASE_ALL 8);
              z2b (Z.land ROUTINE_ERASE_ALL 0xFF)] rs w q);
    [ | cbn; lia | exact Hrs | exact Hq ].
  change (kwp_slept _) with (@nil Z). rewrite app_nil_r.
  destruct (rejected rs SID_ROUTINE_CONTROL); reflexivity.
Qed.

Lemma request_download_run (addr len : Z) (rs : list byte) (w : World)
    (q : list (option Frame)) :
  0 <= addr < 2 ^ 32 -> 0 <= len < 2 ^ 32 -> (1 <= length rs <= 4095)%nat ->
  rx_queue w = kwp_script (download_request addr len) rs ++ q ->
  request_download addr len w
  = ((if rejected rs SID_REQUEST_DOWNLOAD
      then Raise (RuntimeError "RequestDownload rejected")
      else match rs !! 1%nat with
           | None => Raise IndexError
           | Some r1 =>
               Ok (if b2z r1 =? 0 then TRANSFER_SIZE_DEFAULT
                   else int_from_bytes_big
                          (slice rs 2 (2 + Z.to_nat (b2z r1))))
           end),
     mkWorld q (tx_log w ++ kwp_sent (download_request addr len) rs)
       (slept w ++ kwp_slept (download_request addr len)) (files w)).
Proof.
  intros Ha Hl Hrs Hq. unfold request_download.
  destruct (to_bytes_big_4 addr Ha) as [Ea La].
  destruct (to_bytes_big_4 len Hl) as [El Ll].
  rewrite Ea, El. unfold bind.
  rewrite (_kwp_exchange SID_REQUEST_DOWNLOAD
             ([z2b 0x00; z2b 0x44] ++ be4 addr ++ be4 len) rs w q);
    [ | cbn [length app]; rewrite length_app, La, Ll; lia
      | exact Hrs | exact Hq ].
  destruct (rejected rs SID_REQUEST_DOWNLOAD); [reflexivity|].
  destruct (rs !! 1%nat); reflexivity.
Qed.

(** X19. [flash] stops at the first step that fails, with nothing sent
    beyond it.  An image that is not exactly 1 MiB is turned down before
    anything is transmitted; a refused erase request ends the call with
    "Erase routine rejected" and no RequestDownload follows; a refused
    RequestDownload ends it with "RequestDownload rejected" and no
    TransferData follows, the flash being erased by then. *)
Theorem flash_stops_early (image : list byte) (chunk_size : Z) (w : World) :
  (Z.of_nat (length image) <> FLASH_SIZE ->
   flash image chunk_size w
   = (Raise (ValueError "Image must be exactly 1 MiB"), w))
  /\ (forall (rs : list byte) (q : list (option Frame)),
        Z.of_nat (length image) = FLASH_SIZE ->
        (1 <= length rs <= 4095)%nat ->
        rejected rs SID_ROUTINE_CONTROL = true ->
        rx_queue w = kwp_script erase_request rs ++ q ->
        flash image chunk_size w
        = (Raise (RuntimeError "Erase routine rejected"),
           mkWorld q (tx_log w ++ kwp_sent erase_request rs) (slept w)
             (files w)))
  /\ (forall (rs : list byte) (q : list (option Frame)),
        Z.of_nat (length image) = FLASH_SIZE ->
        (1 <= length rs <= 4095)%nat ->
        rejected rs SID_REQUEST_DOWNLOAD = true ->
        rx_queue w
        = kwp_script erase_request [z2b (pos SID_ROUTINE_CONTROL); z2b 0x01]
          ++ kwp_script (download_request 0 FLASH_SIZE) rs ++ q ->
        let r := flash image chunk_size w in
        fst r = Raise (RuntimeError "RequestDownload rejected")
        /\ rx_queue (snd r) = q
        /\ tx_log (snd r)
           = tx_log w
             ++ kwp_sent erase_request
                  [z2b (pos SID_ROUTINE_CONTROL); z2b 0x01]
             ++ kwp_sent (download_request 0 FLASH_SIZE) rs).
Proof.
  split; [|split].
  - intros Hne. unfold flash. apply Z.eqb_neq in Hne. rewrite Hne.
    reflexivity.
  - intros rs q Hlen Hrs Hrej Hq. unfold flash.
    rewrite Hlen, Z.eqb_refl. cbn [negb]. unfold bind at 1.
    rewrite (erase_all_run rs w q Hrs Hq), Hrej. reflexivity.
  - intros rs q Hlen Hrs Hrej Hq. cbv zeta.
    remember (flash image chunk_size w) as r eqn:E. unfold flash in E.
    rewrite Hlen, Z.eqb_refl in E. cbn [negb] in E. unfold bind at 1 in E.
    erewrite (erase_all_run _ w) in E; [ | | exact Hq ]; [ | cbn; lia ].
    change (rejected [z2b (pos SID_ROUTINE_CONTROL); z2b 1] SID_ROUTINE_CONTROL)
      with false in E. cbn iota in E.
    unfold bind at 1 in E.
    erewrite (request_download_run 0 FLASH_SIZE rs) in E;
      [ | vm_compute; split; congruence | vm_compute; split; congruence
        | exact Hrs | cbn [rx_queue]; reflexivity ].
    rewrite Hrej in E. subst r. cbn [fst snd rx_queue tx_log].
    rewrite <- ?app_assoc. repeat split.
Qed.

Lemma flash_stops_early_witness :
  let image := replicate (Z.to_nat FLASH_SIZE) Byte.x00 in
  let refusal := [Byte.x7f; Byte.x31; Byte.x33] in
  flash [Byte.x01] 0x0800 (mkWorld [] [] [] [])
  = (Raise (ValueError "Image must be exactly 1 MiB"), mkWorld [] [] [] [])
  /\ flash image 0x0800 (mkWorld (kwp_script erase_request refusal) [] [] [])
     = (Raise (RuntimeError "Erase routine rejected"),
        mkWorld [] (kwp_sent erase_request refusal) [] []).
Proof.
  intros image refusal. split.
  - exact (proj1 (flash_stops_early [Byte.x01] 0x0800 (mkWorld [] [] [] []))
             ltac:(vm_compute; discriminate)).
  - exact (proj1 (proj2 (flash_stops_early image 0x0800
                           (mkWorld (kwp_script erase_request refusal)
                              [] [] [])))
             refusal [] ltac:(vm_compute; reflexivity) ltac:(cbn; lia)
             eq_refl eq_refl).
Defined.

(** X20. [request_download] reads the length byte of a positive answer
    without checking that there is one.  When the ECU answers
    RequestDownload with the bare byte 0x74, [flash] fails with IndexError,
    after the erase routine has been run and acknowledged and before any
    data is transferred. *)
Theorem flash_bare_download_answer (image : list byte) (chunk_size : Z)
    (w : World) (q : list (option Frame)) :
  Z.of_nat (length image) = FLASH_SIZE ->
  rx_queue w
  = kwp_script erase_request [z2b (pos SID_ROUTINE_CONTROL); z2b 0x01]
    ++ kwp_script (download_request 0 FLASH_SIZE)
         [z2b (pos SID_REQUEST_DOWNLOAD)] ++ q ->
  let r := flash image chunk_size w in
  fst r = Raise IndexError
  /\ rx_queue (snd r) = q
  /\ tx_log (snd r)
     = tx_log w
       ++ kwp_sent erase_request [z2b (pos SID_ROUTINE_CONTROL); z2b 0x01]
       ++ kwp_sent (download_request 0 FLASH_SIZE)
            [z2b (pos SID_REQUEST_DOWNLOAD)].
Proof.
  intros Hlen Hq. cbv zeta.
  remember (flash image chunk_size w) as r eqn:E. unfold flash in E.
  rewrite Hlen, Z.eqb_refl in E. cbn [negb] in E. unfold bind at 1 in E.
  erewrite (erase_all_run _ w) in E; [ | | exact Hq ]; [ | cbn; lia ].
  change (rejected [z2b (pos SID_ROUTINE_CONTROL); z2b 1] SID_ROUTINE_CONTROL)
    with false in E. cbn iota in E.
  unfold bind at 1 in E.
  erewrite (request_download_run 0 FLASH_SIZE [z2b (pos SID_REQUEST_DOWNLOAD)])
    in E;
    [ | vm_compute; split; congruence | vm_compute; split; congruence
      | cbn; lia | cbn [rx_queue]; reflexivity ].
  change (rejected [z2b (pos SID_REQUEST_DOWNLOAD)] SID_REQUEST_DOWNLOAD)
    with false in E. cbn iota in E. cbn [lookup list_lookup] in E.
  subst r. cbn [fst snd rx_queue tx_log].
  rewrite <- ?app_assoc. repeat split.
Qed.

Lemma flash_bare_download_answer_witness :
  let image := replicate (Z.to_nat FLASH_SIZE) Byte.x00 in
  let w := mkWorld
             (kwp_script erase_request
                [z2b (pos SID_ROUTINE_CONTROL); z2b 0x01]
              ++ kwp_script (download_request 0 FLASH_SIZE)
                   [z2b (pos SID_REQUEST_DOWNLOAD)] ++ []) [] [] [] in
  fst (flash image 0x0800 w) = Raise IndexError.
Proof.
  intros image w.
  exact (proj1 (flash_bare_download_answer image 0x0800 w []
                  ltac:(vm_compute; reflexivity) eq_refl)).
Defined.

(** * Further properties of the VIN patch *)


(** ** What the VIN patch changes *)

(** X21. [patch_vin] looks for the VIN it is given, so what it writes
    over the place found are the bytes already there: on a 1 MiB image it
    succeeds only where the image holds that VIN in the CAL region, and the
    buffer it returns agrees with the image everywhere except, at most, in
    the two bytes of the checksum word at the end of the CAL region. *)
Theorem patch_vin_checksum_word_only (h : list (list byte)) (image : ref)
    (img : list byte) (vin : str) (vb : list byte) (i : nat) :
  h !! image = Some img ->
  Z.of_nat (length img) = FLASH_SIZE ->
  length vin = 17%nat -> encode_ascii vin = Some vb ->
  occurs_at (cal_of img) vb i ->
  exists (out : ref) (h' : list (list byte)) (res : list byte),
    patch_vin image vin h = (Ok out, h')
    /\ h' !! out = Some res
    /\ length res = length img
    /\ forall j : nat,
         ~ (nCAL_END - 2 <= j < nCAL_END)%nat -> res !! j = img !! j.
Proof.
  intros Himg Hsize Hlen Henc Hocc.
  pose proof (flash_spans_cal img Hsize) as Hspan.
  destruct (occurs_find _ _ _ Hocc) as (idx & Hfind & _).
  destruct (patch_vin_run h image img vin vb idx Himg Hlen Henc Hfind Hspan)
    as (ws & hi & lo & Hws & Hw & Hrun).
  cbv zeta in Hrun.
  eexists _, _, _. split; [exact Hrun|].
  split; [apply lookup_second_last|].
  split; [apply rewritten_length, Hspan|].
  intros j Hj. apply rewritten_lookup; lia.
Qed.

Lemma patch_vin_checksum_word_only_witness :
  let vin : str :=
    [87; 66; 65; 80; 77; 55; 51; 53; 48; 57; 69; 49; 50; 51; 52; 53; 54]%N in
  let vb := map (fun c => z2b (Z.of_N c)) vin in
  let img := replicate (Z.to_nat 0x10000) Byte.xff ++ replicate 100 Byte.x01
             ++ vb ++ replicate (Z.to_nat 0x3FF8B) Byte.x01
             ++ replicate (Z.to_nat 0xB0000) Byte.xff in
  exists (out : ref) (h' : list (list byte)) (res : list byte),
    patch_vin 0 vin [img] = (Ok out, h')
    /\ h' !! out = Some res
    /\ length res = length img
    /\ forall j : nat,
         ~ (nCAL_END - 2 <= j < nCAL_END)%nat -> res !! j = img !! j.
Proof.
  intros vin vb img.
  exact (patch_vin_checksum_word_only [img] 0 img vin vb 100 eq_refl
           ltac:(vm_compute; reflexivity) eq_refl eq_refl
           ltac:(vm_compute; reflexivity)).
Defined.

(** ** The checksum fix applied twice *)

Lemma word_bytes (hi lo hi' lo' : byte) :
  b2z hi * 256 + b2z lo = b2z hi' * 256 + b2z lo' -> hi = hi' /\ lo = lo'.
Proof.
  intros H.
  pose proof (b2z_range hi). pose proof (b2z_range lo).
  pose proof (b2z_range hi'). pose proof (b2z_range lo').
  assert (b2z hi = b2z hi') by lia. assert (b2z lo = b2z lo') by lia.
  split; [rewrite <- (z2b_b2z hi), <- (z2b_b2z hi')
         | rewrite <- (z2b_b2z lo), <- (z2b_b2z lo')]; congruence.
Qed.

Lemma set_slice_again (b : list byte) (hi lo : byte) :
  (nCAL_END <= length b)%nat ->
  let out := set_slice b (nCAL_END - 2) nCAL_END [hi; lo] in
  set_slice out (nCAL_END - 2) nCAL_END [hi; lo] = out.
Proof.
  pose proof cal_layout as [HS HE]. intros Hb. cbv zeta. unfold set_slice.
  rewrite take_app_le by (rewrite length_take; lia).
  rewrite take_take, Nat.min_id.
  do 2 f_equal.
  rewrite app_assoc, drop_app_length'; [reflexivity|].
  rewrite length_app, length_take. cbn [length]. lia.
Qed.

(** X22. [_fix_cal_checksum] is idempotent: on a buffer that contains
    the whole CAL region it succeeds, and a second run on the buffer it
    has fixed leaves every byte as it is. *)
Theorem _fix_cal_checksum_twice (h : list (list byte)) (buf : ref)
    (b : list byte) :
  h !! buf = Some b -> (nCAL_END <= length b)%nat ->
  exists h1 : list (list byte),
    _fix_cal_checksum buf h = (Ok tt, h1)
    /\ _fix_cal_checksum buf h1 = (Ok tt, h1).
Proof.
  intros Hb Hspan. pose proof cal_layout as [HS HE].
  destruct (_fix_cal_checksum_run h buf b Hb Hspan)
    as (ws & hi & lo & Hws & Hw & Hrun).
  set (out := set_slice b (nCAL_END - 2) nCAL_END [hi; lo]) in *.
  exists (<[buf := out]> h). split; [exact Hrun|].
  assert (Hout : <[buf := out]> h !! buf = Some out)
    by (apply list_lookup_insert_eq, (lookup_lt_Some _ _ _ Hb)).
  assert (Hspan' : (nCAL_END <= length out)%nat)
    by (unfold out; rewrite rewritten_length; assumption).
  destruct (_fix_cal_checksum_run _ buf out Hout Hspan')
    as (ws' & hi' & lo' & Hws' & Hw' & Hrun').
  assert (Hcal : take (length (cal_of out) - 2) (cal_of out)
                 = take (length (cal_of b) - 2) (cal_of b)).
  { unfold out. rewrite (rewritten_cal b hi lo Hspan).
    rewrite length_app. cbn [length].
    replace (length (take (length (cal_of b) - 2) (cal_of b)) + 2 - 2)%nat
      with (length (take (length (cal_of b) - 2) (cal_of b))) by lia.
    apply take_app_length. }
  rewrite Hcal, Hws in Hws'. injection Hws' as <-.
  destruct (word_bytes hi' lo' hi lo ltac:(congruence)) as [-> ->].
  rewrite Hrun'. unfold out.
  rewrite (set_slice_again b hi lo Hspan), list_insert_insert_eq.
  reflexivity.
Qed.

Lemma _fix_cal_checksum_twice_witness :
  let b := replicate (Z.to_nat 0x4FFFE) Byte.x01 ++ [Byte.xaa; Byte.xbb]
           ++ replicate 16 Byte.x02 in
  exists h1 : list (list byte),
    _fix_cal_checksum 0 [b] = (Ok tt, h1)
    /\ _fix_cal_checksum 0 h1 = (Ok tt, h1).
Proof.
  intros b.
  refine (_fix_cal_checksum_twice [b] 0 b eq_refl _).
  apply Nat2Z.inj_le. vm_compute. discriminate.
Defined.

(** ** Images that end inside the CAL region *)

Section ShortImage.
Variables (h : list (list byte)) (buf : ref) (b : list byte).
Hypothesis buf_holds : h !! buf = Some b.
Hypothesis ends_early : (nCAL_START + 2 <= length b <= nCAL_END - 2)%nat.
Hypothesis even_length : exists k : nat, length b = (2 * k)%nat.

Lemma cal_of_short : cal_of b = drop nCAL_START b.
Proof. unfold cal_of, slice. rewrite take_ge by lia. reflexivity. Qed.

Lemma _fix_cal_checksum_short :
  exists hi lo : byte,
    _fix_cal_checksum buf h = (Ok tt, <[buf := b ++ [hi; lo]]> h).
Proof.
  pose proof cal_layout as [HS HE]. destruct even_length as [k Hk].
  destruct (iter_unpack_H_even (k - Z.to_nat 0x8000 - 1)
              (take (length (cal_of b) - 2) (cal_of b))) as (ws & Hws & _).
  { rewrite length_take, cal_of_short, length_drop. lia. }
  destruct (corrected_sum (py_sum ws)) as (Hr & _ & _).
  destruct (to_bytes_big_2 _ Hr) as (hi & lo & Hb & _).
  exists hi, lo.
  unfold _fix_cal_checksum. unfold bind at 1. unfold load at 1.
  rewrite buf_holds. fold (cal_of b). rewrite Hws, Hb.
  unfold bind, load. rewrite buf_holds. unfold store, set_slice.
  rewrite take_ge, drop_ge by lia. reflexivity.
Qed.
End ShortImage.

(** X23. [patch_vin] does not check the size of the image.  On an image
    of even length that holds the VIN after offset 0x10000 but ends at
    least two bytes before the end of the CAL region at 0x50000, it
    succeeds and returns the image with two checksum bytes appended: the
    result is two bytes longer than the input. *)
Theorem patch_vin_short_image (h : list (list byte)) (image : ref)
    (img : list byte) (vin : str) (vb : list byte) (i : nat) (k : Z) :
  h !! image = Some img ->
  Z.of_nat (length img) = 2 * k ->
  Z.of_nat (length img) <= CAL_END - 2 ->
  length vin = 17%nat -> encode_ascii vin = Some vb ->
  occurs_at (cal_of img) vb i ->
  exists (out : ref) (h' : list (list byte)) (hi lo : byte),
    patch_vin image vin h = (Ok out, h')
    /\ h' !! out = Some (img ++ [hi; lo])
    /\ h' !! image = Some img.
Proof.
  intros Himg Heven Hshort Hlen Henc Hocc.
  pose proof cal_layout as [HS HE].
  assert (HE' : (length img <= nCAL_END - 2)%nat)
    by (unfold CAL_END, CAL_START, CAL_SIZE in Hshort; lia).
  pose proof (encode_ascii_length vin vb Henc) as Hvb. rewrite Hlen in Hvb.
  destruct (occurs_find _ _ _ Hocc) as (idx & Hfind & _).
  pose proof (find_Some _ _ _ Hfind) as [Hat _].
  unfold occurs_at in Hat.
  assert (Hfit : (nCAL_START + idx + 17 <= length img)%nat).
  { pose proof (f_equal length Hat) as Hl.
    rewrite length_take, length_drop in Hl. unfold cal_of in Hl.
    rewrite length_slice in Hl. lia. }
  rewrite (cal_of_short img ltac:(lia)) in Hat, Hfind.
  rewrite drop_drop in Hat.
  assert (Hsame : set_slice img (nCAL_START + idx) (nCAL_START + idx + 17) vb
                  = img).
  { rewrite <- Hvb. apply set_slice_same. exact Hat. }
  destruct (_fix_cal_checksum_short (h ++ [img]) (length h) img
              (lookup_last h img) ltac:(lia))
    as (hi & lo & Hfix).
  { exists (Z.to_nat k). lia. }
  pose proof (lookup_lt_Some _ _ _ Himg) as Hin.
  eexists _, _, hi, lo.
  split; [|split].
  - unfold patch_vin. rewrite Hlen. cbn [Nat.eqb negb].
    unfold bind at 1. unfold load at 1. rewrite Himg.
    unfold bind at 1. unfold alloc at 1. rewrite Henc.
    unfold bind at 1. unfold load at 1. rewrite lookup_last.
    fold (cal_of img). rewrite (cal_of_short img ltac:(lia)), Hfind.
    unfold bind at 1. unfold load at 1. rewrite lookup_last.
    unfold bind at 1. unfold store at 1. rewrite Hsame, insert_last.
    unfold bind at 1. rewrite Hfix, insert_last.
    unfold bind at 1. unfold load at 1. rewrite lookup_last.
    unfold alloc. reflexivity.
  - rewrite length_app. cbn [length].
    replace (length h + 1)%nat with (length (h ++ [img ++ [hi; lo]]))
      by (rewrite length_app; reflexivity).
    apply lookup_last.
  - rewrite lookup_app_l by (rewrite length_app; cbn [length]; lia).
    rewrite lookup_app_l by lia. exact Himg.
Qed.

Lemma patch_vin_short_image_witness :
  let vin : str :=
    [87; 66; 65; 80; 77; 55; 51; 53; 48; 57; 69; 49; 50; 51; 52; 53; 54]%N in
  let vb := map (fun c => z2b (Z.of_N c)) vin in
  let img := replicate (Z.to_nat 0x10000) Byte.xff ++ vb ++ [Byte.x00] in
  exists (out : ref) (h' : list (list byte)) (hi lo : byte),
    patch_vin 0 vin [img] = (Ok out, h')
    /\ h' !! out = Some (img ++ [hi; lo])
    /\ h' !! 0%nat = Some img.
Proof.
  intros vin vb img.
  exact (patch_vin_short_image [img] 0 img vin vb 0 0x8009 eq_refl
           ltac:(vm_compute; reflexivity) ltac:(vm_compute; discriminate)
           eq_refl eq_refl ltac:(vm_compute; reflexivity)).
Defined.

(** * The transfer loop of the web API *)


(** ** The transfer loop of the web API against the flasher's own *)

Lemma appends_transfer_loop (d : list byte) (chunk_size : Z) (fuel : nat) :
  forall (counter : Z) (offset : nat),
    appends (transfer_loop fuel d chunk_size counter offset).
Proof.
  induction fuel as [|fuel IH]; intros counter offset; cbn [transfer_loop];
    appends_tac.
Qed.

Section AnyCallback.
Context {C : Type}.
Variables (d : list byte) (chunk_size : Z).
Variable progress_callback : option (Callback C).
Hypothesis bus_kept :
  forall callback, progress_callback = Some callback -> keeps_bus callback.

Lemma transfer_progress_loop_refines :
  forall (fuel : nat) (counter : Z) (offset : nat) (w : World) (c : C),
    let r := transfer_progress_loop fuel d chunk_size progress_callback
               counter offset (w, c) in
    let r0 := transfer_loop fuel d chunk_size counter offset w in
    ((forall callback, progress_callback = Some callback -> returns callback)
     -> fst r = fst r0 /\ fst (snd r) = snd r0)
    /\ (progress_callback = None -> snd (snd r) = c)
    /\ ((fst r = fst r0 /\ fst (snd r) = snd r0)
        \/ (exists e : exn,
              raised_by progress_callback e /\ fst r = Raise e
              /\ tx_log (fst (snd r)) `prefix_of` tx_log (snd r0))).
Proof.
  induction fuel as [|fuel IH]; intros counter offset w c; cbv zeta;
    cbn [transfer_progress_loop transfer_loop];
    destruct (offset <? length d)%nat;
    try (split; [|split]; [intros _; split | intros _ | left; split];
         reflexivity).
  unfold bind, lift. cbn [fst snd].
  destruct (_kwp SID_TRANSFER_DATA _ w) as [[resp|e] w1];
    [|split; [|split]; [intros _; split | intros _ | left; split];
      reflexivity].
  destruct (rejected resp SID_TRANSFER_DATA);
    [split; [|split]; [intros _; split | intros _ | left; split];
     reflexivity|].
  set (offset' := (offset + length (chunk_at d offset chunk_size))%nat).
  set (counter' := Z.land (counter + 1) 255).
  destruct progress_callback as [callback|] eqn:Hcb.
  - pose proof (bus_kept callback eq_refl (Z.of_nat offset')
                  (Z.of_nat (length d)) w1 c) as Hk.
    destruct (callback (Z.of_nat offset') (Z.of_nat (length d)) (w1, c))
      as [[[]|e] [w1' c']] eqn:Hcall; cbn [fst snd] in Hk; subst w1'.
    + destruct (IH counter' offset' w1 c') as (H1 & _ & H3).
      split; [exact H1|]. split; [discriminate | exact H3].
    + cbn [fst snd]. split; [|split].
      * intros Hret. specialize (Hret callback eq_refl (Z.of_nat offset')
                                   (Z.of_nat (length d)) (w1, c)).
        rewrite Hcall in Hret. discriminate Hret.
      * discriminate.
      * right. exists e. split; [|split].
        -- exists callback, (Z.of_nat offset'), (Z.of_nat (length d)), (w1, c).
           split; [reflexivity | rewrite Hcall; reflexivity].
        -- reflexivity.
        -- apply (appends_transfer_loop d chunk_size fuel counter' offset' w1).
  - unfold ret. cbn [fst snd].
    destruct (IH counter' offset' w1 c) as (H1 & H2 & H3).
    split; [exact H1|]. split; [exact H2 | exact H3].
Qed.
End AnyCallback.



Lemma lift__kwp (sid : Z) `{Hsid : ByteRange sid} (payload rs : list byte)
    (w : World) (log : Progress) (q : list (option Frame)) :
  (length (z2b sid :: payload) <= 4095)%nat -> (1 <= length rs <= 4095)%nat ->
  rx_queue w = kwp_script (z2b sid :: payload) rs ++ q ->
  lift (_kwp sid payload) (w, log)
  = (Ok rs, (mkWorld q (tx_log w ++ kwp_sent (z2b sid :: payload) rs)
               (slept w ++ kwp_slept (z2b sid :: payload)) (files w), log)).
Proof.
  intros Hrq Hrs Hq. unfold lift. cbn [fst snd].
  rewrite (_kwp_exchange sid payload rs w q Hrq Hrs Hq). reflexivity.
Qed.

Lemma transfer_progress_loop_cooperative (d : list byte) (block : nat) :
  (0 < block <= 4093)%nat ->
  forall (m k fuel : nat) (w : World) (log : Progress)
         (q : list (option Frame)),
    (m + k = block_count d block)%nat -> (m <= fuel)%nat ->
    rx_queue w = transfer_script d block k m ++ q ->
    exists w',
      transfer_progress_loop fuel d (Z.of_nat block) (Some record_progress)
        (block_counter k)
        (Nat.min (k * block) (length d)) (w, log)
      = (Ok tt, (w', log ++ progress_reports d block k m))
      /\ rx_queue w' = q.
Proof.
  intros Hb.
  induction m as [|m IH]; intros k fuel w log q Hk Hfuel Hq.
  - assert (length d <= k * block)%nat.
    { destruct (Nat.le_gt_cases (length d) (k * block)) as [|H]; [assumption|].
      apply block_count_lt in H; lia. }
    rewrite Nat.min_r by lia. exists w.
    split; [|exact Hq]. cbn [progress_reports seq map]. rewrite app_nil_r.
    destruct fuel; cbn [transfer_progress_loop]; rewrite Nat.ltb_irrefl;
      reflexivity.
  - assert (Hlt : (k * block < length d)%nat) by (apply block_count_lt; lia).
    rewrite Nat.min_l by lia.
    destruct fuel as [|fuel]; [lia|]. cbn [transfer_progress_loop].
    destruct (Nat.ltb_spec (k * block) (length d)) as [_|]; [|lia].
    unfold chunk_at.
    destruct (Z.leb_spec 0 (Z.of_nat (k * block) + Z.of_nat block)); [|lia].
    replace (Z.to_nat (Z.of_nat (k * block) + Z.of_nat block))
      with (k * block + block)%nat by lia.
    rewrite block_counter_land, block_counter_succ.
    cbn [transfer_script seq flat_map] in Hq. rewrite <- app_assoc in Hq.
    unfold bind at 1.
    erewrite (lift__kwp SID_TRANSFER_DATA
               ([z2b (block_counter k)] ++ slice d (k * block) (k * block + block))
               (transfer_answer k) w);
      [ | cbn [length app]; rewrite length_slice; lia | cbn; lia | exact Hq ].
    cbn [rejected transfer_answer].
    change (b2z (z2b (pos SID_TRANSFER_DATA)) =? pos SID_TRANSFER_DATA) with true.
    cbn [negb].
    replace (k * block + length (slice d (k * block) (k * block + block)))%nat
      with (Nat.min (S k * block) (length d))
      by (rewrite length_slice; lia).
    unfold bind at 1. unfold record_progress at 1. cbn [fst snd].
    set (w1 := mkWorld _ _ _ _).
    destruct (IH (S k) fuel w1
                (log ++ [(Z.of_nat (Nat.min (S k * block) (length d)),
                          Z.of_nat (length d))]) q)
      as (w' & Hrun & Hq'); [ lia | lia | reflexivity | ].
    exists w'. split; [|exact Hq'].
    rewrite Hrun. cbn [progress_reports seq map].
    rewrite <- app_assoc. reflexivity.
Qed.

(** X25. Progress reported to the web client.  Against a cooperative ECU
    the callback is called once per block with the number of bytes
    transferred so far and the total; the offsets grow by the block size
    and the last report, for non-empty data, is [(total, total)]. *)
Theorem _transfer_with_progress_reports (d : list byte) (block : nat)
    (w : World) (log : Progress) (q : list (option Frame)) :
  (0 < block <= 4093)%nat ->
  rx_queue w = transfer_script d block 0 (block_count d block) ++ q ->
  exists w',
    _transfer_with_progress d (Z.of_nat block) (Some record_progress) (w, log)
    = (Ok tt, (w', log ++ progress_reports d block 0 (block_count d block)))
    /\ rx_queue w' = q
    /\ (d <> [] ->
        last (progress_reports d block 0 (block_count d block))
        = Some (Z.of_nat (length d), Z.of_nat (length d))).
Proof.
  intros Hb Hq. unfold _transfer_with_progress, bind, lift, pending.
  cbn [fst snd].
  pose proof (transfer_progress_loop_cooperative d block Hb
                (block_count d block) 0 (S (length (rx_queue w))) w log q)
    as H.
  change (block_counter 0) with 1 in H.
  change (Nat.min (0 * block) (length d)) with 0%nat in H.
  destruct H as (w' & Hrun & Hq'); [lia | | exact Hq |].
  { rewrite Hq, length_app.
    pose proof (transfer_script_length d block (block_count d block) 0). lia. }
  exists w'. split; [exact Hrun|]. split; [exact Hq'|].
  intros Hd. unfold progress_reports.
  assert (Hlen : (0 < length d)%nat) by (destruct d; cbn; [congruence | lia]).
  assert (Hc : (0 < block_count d block)%nat)
    by (apply block_count_lt; lia).
  destruct (block_count d block) as [|c] eqn:E; [lia|].
  rewrite seq_S, map_app. cbn [map Nat.add]. rewrite last_snoc.
  do 2 f_equal. f_equal.
  assert (~ (S c < block_count d block)%nat) by lia.
  rewrite block_count_lt in H by lia. lia.
Qed.

Lemma _transfer_with_progress_reports_witness :
  let d := map (fun k => z2b (Z.of_nat k)) (seq 0 10) in
  exists w',
    _transfer_with_progress d 4 (Some record_progress)
      (mkWorld (transfer_script d 4 0 3) [] [] [], [])
    = (Ok tt, (w', [(4, 10); (8, 10); (10, 10)]))
    /\ rx_queue w' = [].
Proof.
  intros d.
  destruct (_transfer_with_progress_reports d 4
              (mkWorld (transfer_script d 4 0 3) [] [] []) [] []
              ltac:(lia) eq_refl) as (w' & Hrun & Hq & _).
  exists w'. split; [exact Hrun | exact Hq].
Defined.
